(** * Internet audio streaming (llstreamingaudio_fmodstudio.cpp)

    A shallow embedding of the FMOD Studio streaming back end of the viewer:
    the waveform ring buffer fed by the DSP callback, the per-stream manager
    [LLAudioStreamManagerFMODSTUDIO], the controller
    [LLStreamingAudio_FMODSTUDIO] and the UTF-16 tag decoder.

    Conventions.
    - A C++ method [T::f(args)] becomes [f (this : T) args : M (result * T)]:
      the object is passed and returned, the engine and the globals live in
      the [World] threaded by the monad [M].
    - A pointer is an [option]; [None] is NULL.  A stream manager is owned
      by exactly one place (the current slot or the dead list), so it is
      embedded by value.
    - The FMOD engine is external.  Every call to it is appended to the call
      log of the world; every answer it gives is read from an oracle
      [Engine], indexed by the number of calls made so far, so that two
      consecutive queries may be answered differently.
    - [Fatal] is the outcome of [llassert_always] and [LL_ERRS]; [Undef] is
      C++ undefined behaviour (null dereference, out-of-range access).
    - The signedness of plain [char] is a parameter, [char_signed]; the
      host is little-endian.
    - Log output ([llinfos], [llwarns], [Check_FMOD_Error]) is left out;
      calls on a channel are taken to succeed. *)

From Stdlib Require Import ZArith List Lia Bool String Ascii.
From Stdlib Require Import Strings.Byte.
From Stdlib Require Import Floats.SpecFloat.
From stdpp Require Import base gmap strings list.

Local Open Scope Z_scope.

(** ** Outcomes *)

Inductive Res (A : Type) : Type :=
| Ok (a : A)
| Fatal
| Undef.
Arguments Ok {A} a.
Arguments Fatal {A}.
Arguments Undef {A}.

Definition rbind {A B} (r : Res A) (k : A -> Res B) : Res B :=
  match r with
  | Ok a => k a
  | Fatal => Fatal
  | Undef => Undef
  end.

Declare Scope res_scope.
Delimit Scope res_scope with res.
Notation "'let*' x := r 'in' k" := (rbind r (fun x => k))
  (at level 10, x pattern, r at level 200, k at level 200) : res_scope.

(** ** Single precision floats (F32)

    IEEE 754 binary32 as the Standard Library specifies it: 24 bits of
    precision, infinities at exponent 128, round to nearest even. *)

Module F32.
Definition prec : Z := 24.
Definition emax : Z := 128.
Definition t : Type := spec_float.
Definition zero : t := S754_zero false.
Definition one : t := S754_finite false 8388608 (-23).
Definition half : t := S754_finite false 8388608 (-24).
Definition quarter : t := S754_finite false 8388608 (-25).
Definition add : t -> t -> t := SFadd prec emax.
Definition mul : t -> t -> t := SFmul prec emax.
Definition div : t -> t -> t := SFdiv prec emax.
Definition ltb : t -> t -> bool := SFltb.
Definition leb : t -> t -> bool := SFleb.
(** conversion of an [int] to [float] *)
Definition of_int (z : Z) : t := binary_normalize prec emax z 0 false.
Definition is_nan (x : t) : bool :=
  match x with S754_nan => true | _ => false end.
End F32.
Abbreviation F32 := F32.t.

(** ** Machine integers *)

Definition U32 (z : Z) : Z := z mod 2 ^ 32.
Definition U16 (z : Z) : Z := z mod 2 ^ 16.

(** ** Arrays

    [memcpy dst doff src soff n] copies [n] elements; it is undefined when
    either range leaves its array. *)

Definition slice {A} (l : list A) (off n : nat) : list A :=
  firstn n (skipn off l).

Definition memcpy {A} (dst : list A) (doff : nat) (src : list A) (soff n : nat)
  : Res (list A) :=
  if (Nat.leb (doff + n) (length dst) && Nat.leb (soff + n) (length src))%bool
  then Ok (firstn doff dst ++ slice src soff n ++ skipn (doff + n) dst)
  else Undef.

(** [memset(dst + doff, 0, n * sizeof(float))] *)
Definition memset0 (dst : list F32) (doff n : nat) : Res (list F32) :=
  if Nat.leb (doff + n) (length dst)
  then Ok (firstn doff dst ++ repeat F32.zero n ++ skipn (doff + n) dst)
  else Undef.

Definition store {A} (l : list A) (i : nat) (x : A) : Res (list A) :=
  if Nat.ltb i (length l) then Ok (<[i:=x]> l) else Undef.

Definition load {A} (l : list A) (i : nat) : Res A :=
  match l !! i with
  | Some x => Ok x
  | None => Undef
  end.

(** ** The waveform ring buffer (lines 72-114)

    The globals [gWaveBufferMinSize], [gWaveDataBuffer],
    [gWaveDataBufferSize] and the callback's static [local_buf].  The mutex
    [gWaveDataMutex] makes the critical sections atomic; each is one
    function here. *)

Definition WAVE_BUFFER_SIZE : Z := 1024.

Record Wave := mkWave {
  gWaveBufferMinSize : Z;
  gWaveDataBuffer : list F32;
  gWaveDataBufferSize : Z;
  local_buf : list F32
}.

Definition wave_init : Wave :=
  {| gWaveBufferMinSize := 0;
     gWaveDataBuffer := repeat F32.zero 1024;
     gWaveDataBufferSize := 0;
     local_buf := [] |}.

(** The body of the loop of lines 101-110 for one sample [x].  The
    [memcpy] of line 106 is undefined when its two ranges overlap or leave
    the array, that is, when the watermark exceeds half the capacity; so
    is the store of line 109 outside the array. *)
Definition wave_store (x : F32) (w : Wave) : Res Wave :=
  let size1 := U32 (gWaveDataBufferSize w + 1) in
  (let* (buf, size2) :=
     (if size1 >? WAVE_BUFFER_SIZE then
        let m := gWaveBufferMinSize w in
        let* buf' :=
          (if negb (m =? 0) then
             if (m <=? WAVE_BUFFER_SIZE) && (m <=? WAVE_BUFFER_SIZE - m)
             then memcpy (gWaveDataBuffer w) (Z.to_nat (WAVE_BUFFER_SIZE - m))
                         (gWaveDataBuffer w) 0 (Z.to_nat m)
             else Undef
           else Ok (gWaveDataBuffer w)) in
        Ok (buf', U32 (1 + m))
      else Ok (gWaveDataBuffer w, size1)) in
   let* buf'' := store buf (Z.to_nat (U32 (WAVE_BUFFER_SIZE - size2))) x in
   Ok {| gWaveBufferMinSize := gWaveBufferMinSize w;
         gWaveDataBuffer := buf'';
         gWaveDataBufferSize := size2;
         local_buf := local_buf w |})%res.

(** [for (U32 i = length; i > 0; --i)] of line 101 *)
Fixpoint wave_push (i : nat) (w : Wave) : Res Wave :=
  match i with
  | O => Ok w
  | S i' =>
      (let* x := load (local_buf w) i' in
       let* w' := wave_store x w in
       wave_push i' w')%res
  end.

(** The inner loop of lines 91-94: [total += inbuffer[i*inchannels + j]]
    for [j] from [j0], [n] times. *)
Fixpoint mix_total (inbuffer : list F32) (base : nat) (n : nat) (j0 : nat)
  (total : F32) : Res F32 :=
  match n with
  | O => Ok total
  | S n' =>
      (let* x := load inbuffer (base + j0)%nat in
       mix_total inbuffer base n' (S j0) (F32.add total x))%res
  end.

(** The loop of lines 88-96, for [i] from [i0], [n] times. *)
Fixpoint mix_down (inbuffer : list F32) (inchannels : Z) (n : nat) (i0 : nat)
  (lb : list F32) : Res (list F32) :=
  match n with
  | O => Ok lb
  | S n' =>
      (let* total := mix_total inbuffer (i0 * Z.to_nat inchannels)
                     (Z.to_nat inchannels) 0 F32.zero in
       let* lb' := store lb i0 (F32.div total (F32.of_int inchannels)) in
       mix_down inbuffer inchannels n' (S i0) lb')%res
  end.

(** [local_buf.resize(length, 0.f)] when it is shorter *)
Definition resize_local (lb : list F32) (len : nat) : list F32 :=
  if Nat.ltb (length lb) len
  then lb ++ repeat F32.zero (len - length lb)
  else lb.

(** [waveDataCallback]: the output buffer and the globals after the call;
    the result code is always [FMOD_OK].  [len] is the [unsigned int
    length], [inchannels] the [int]; a negative [inchannels] makes the size
    of the [memcpy] of line 82 wrap around, which is undefined. *)
Definition waveDataCallback (inbuffer outbuffer : list F32) (len : Z)
  (inchannels : Z) (w : Wave) : Res (list F32 * Wave) :=
  if (len =? 0) || (inchannels =? 0) then Ok (outbuffer, w)
  else if inchannels <? 0 then Undef
  else
    (let* out := memcpy outbuffer 0 inbuffer 0 (Z.to_nat (len * inchannels)) in
     let lb := resize_local (local_buf w) (Z.to_nat len) in
     let* lb' := mix_down inbuffer inchannels (Z.to_nat len) 0 lb in
     let* w' := wave_push (Z.to_nat len)
                {| gWaveBufferMinSize := gWaveBufferMinSize w;
                   gWaveDataBuffer := gWaveDataBuffer w;
                   gWaveDataBufferSize := gWaveDataBufferSize w;
                   local_buf := lb' |} in
     Ok (out, w'))%res.

(** ** Bytes and characters

    A [std::string] is a list of bytes.  Plain [char] is signed on some
    targets and unsigned on others; [char_signed] says which, and
    [char_value] is the [int] a [char] promotes to in a comparison. *)

Definition byte_val (b : byte) : Z := Z.of_N (Byte.to_N b).

Definition char_value (char_signed : bool) (b : byte) : Z :=
  if char_signed && (128 <=? byte_val b) then byte_val b - 256 else byte_val b.

Definition byte_of_Z (z : Z) : byte :=
  match Byte.of_N (Z.to_N (z mod 256)) with
  | Some b => b
  | None => Byte.x00
  end.

(** [if (out.length() && out.back() == 0) out.pop_back();] *)
Definition strip_trailing_nul (out : list byte) : list byte :=
  match last out with
  | Some b => if byte_val b =? 0 then removelast out else out
  | None => out
  end.

(** ** The UTF-16 decoder (lines 215-253) *)

Inductive utf_endian_type_t := UTF16LE | UTF16BE | UTF16.

Definition utf_endian_eqb (a b : utf_endian_type_t) : bool :=
  match a, b with
  | UTF16LE, UTF16LE | UTF16BE, UTF16BE | UTF16, UTF16 => true
  | _, _ => false
  end.

(** [llutf16string out_16((U16* )input, n)]: [n] units read from the bytes
    in the byte order of the host, which is little-endian (the swap of line
    249 for big-endian text presupposes it). *)
Fixpoint units_of_bytes (input : list byte) (n : nat) {struct n}
  : Res (list Z) :=
  match n with
  | O => Ok []
  | S n' =>
      match input with
      | lo :: hi :: rest =>
          (let* us := units_of_bytes rest n' in
           Ok (byte_val lo + 256 * byte_val hi :: us))%res
      | _ => Undef
      end
  end.

(** [((v & 0x00FF) << 8) | ((v & 0xFF00) >> 8)] *)
Definition swap16 (v : Z) : Z :=
  Z.lor (Z.shiftl (Z.land v 255) 8) (Z.shiftr (Z.land v 65280) 8).

(** Modelled from the spec: [wchar_to_utf8chars] lives in llstring.cpp,
    which is not among the sources; it is the last step of the conversion
    to the narrow text encoding, one code point written in UTF-8. *)
Definition wchar_to_utf8chars (c : Z) : list byte :=
  if c <? 128 then [byte_of_Z c]
  else if c <? 2048 then
    [byte_of_Z (Z.lor 192 (Z.shiftr c 6)); byte_of_Z (Z.lor 128 (Z.land c 63))]
  else if c <? 65536 then
    [byte_of_Z (Z.lor 224 (Z.shiftr c 12));
     byte_of_Z (Z.lor 128 (Z.land (Z.shiftr c 6) 63));
     byte_of_Z (Z.lor 128 (Z.land c 63))]
  else
    [byte_of_Z (Z.lor 240 (Z.shiftr c 18));
     byte_of_Z (Z.lor 128 (Z.land (Z.shiftr c 12) 63));
     byte_of_Z (Z.lor 128 (Z.land (Z.shiftr c 6) 63));
     byte_of_Z (Z.lor 128 (Z.land c 63))].

(** Modelled from the spec: [utf16str_to_utf8str] lives in llstring.cpp,
    which is not among the sources; the spec calls it the final conversion
    of the 16-bit units to the narrow text encoding.  It is the usual
    transcoding: a surrogate pair makes one code point, any other unit is
    its own code point, and each code point is written in UTF-8. *)
Fixpoint utf16str_to_utf8str (us : list Z) : list byte :=
  match us with
  | [] => []
  | u :: rest =>
      if (55296 <=? u) && (u <=? 56319) then
        match rest with
        | u2 :: rest' =>
            wchar_to_utf8chars ((u - 55296) * 1024 + (u2 - 56320) + 65536)
              ++ utf16str_to_utf8str rest'
        | [] => wchar_to_utf8chars u
        end
      else wchar_to_utf8chars u ++ utf16str_to_utf8str rest
  end.

Section Decoder.
(** whether plain [char] is signed on the target *)
Variable char_signed : bool.

(** The test of lines 230-231 on the first two bytes. *)
Definition is_bom16 (c0 c1 : byte) : bool :=
  ((char_value char_signed c0 =? 254) && (char_value char_signed c1 =? 255))
  || ((char_value char_signed c0 =? 255) && (char_value char_signed c1 =? 254)).

(** Lines 224-238: the resolved input, length and type. *)
Definition resolve_bom (input : list byte) (len : Z) (type : utf_endian_type_t)
  : Res (list byte * Z * utf_endian_type_t) :=
  if utf_endian_eqb type UTF16 then
    if len >? 2 then
      (let* c0 := load input 0 in
       let* c1 := load input 1 in
       if is_bom16 c0 c1 then
         let input' := skipn 2 input in
         let len' := U32 (len - 2) in
         let* d0 := load input' 0 in
         Ok (input', len',
             if char_value char_signed d0 =? 254 then UTF16BE else UTF16LE)
       else Ok (input, len, UTF16BE))%res
    else Ok (input, len, UTF16BE)
  else Ok (input, len, type).

(** Lines 239-251: the 16-bit units handed to the transcoder. *)
Definition utf16input_units (input : list byte) (len : Z)
  (type : utf_endian_type_t) : Res (list Z) :=
  (let* (p, type') := resolve_bom input len type in
   let (input', len') := p : list byte * Z in
   let* out_16 := units_of_bytes input' (Z.to_nat (len' / 2)) in
   let* out_16' :=
     (if negb (len' mod 2 =? 0) then
        let* c := load input' (Z.to_nat (len' - 1)) in
        Ok (out_16 ++ [U16 (Z.shiftl (char_value char_signed c) 8)])
      else Ok out_16) in
   Ok (if utf_endian_eqb type' UTF16BE then map swap16 out_16' else out_16'))%res.

Definition utf16input_to_utf8 (input : list byte) (len : Z)
  (type : utf_endian_type_t) : Res (list byte) :=
  (let* out_16 := utf16input_units input len type in
   Ok (utf16str_to_utf8str out_16))%res.
End Decoder.

(** ** The FMOD engine, as this file sees it *)

Definition Sound : Type := nat.
Definition Channel : Type := nat.

Inductive FMOD_OPENSTATE :=
| FMOD_OPENSTATE_READY
| FMOD_OPENSTATE_LOADING
| FMOD_OPENSTATE_ERROR
| FMOD_OPENSTATE_CONNECTING
| FMOD_OPENSTATE_BUFFERING
| FMOD_OPENSTATE_SEEKING
| FMOD_OPENSTATE_PLAYING
| FMOD_OPENSTATE_SETPOSITION.

Definition openstate_eqb (a b : FMOD_OPENSTATE) : bool :=
  match a, b with
  | FMOD_OPENSTATE_READY, FMOD_OPENSTATE_READY
  | FMOD_OPENSTATE_LOADING, FMOD_OPENSTATE_LOADING
  | FMOD_OPENSTATE_ERROR, FMOD_OPENSTATE_ERROR
  | FMOD_OPENSTATE_CONNECTING, FMOD_OPENSTATE_CONNECTING
  | FMOD_OPENSTATE_BUFFERING, FMOD_OPENSTATE_BUFFERING
  | FMOD_OPENSTATE_SEEKING, FMOD_OPENSTATE_SEEKING
  | FMOD_OPENSTATE_PLAYING, FMOD_OPENSTATE_PLAYING
  | FMOD_OPENSTATE_SETPOSITION, FMOD_OPENSTATE_SETPOSITION => true
  | _, _ => false
  end.

(** What [Sound::getOpenState] writes through its four pointers. *)
Record OpenInfo := mkOpenInfo {
  open_state : FMOD_OPENSTATE;
  percentbuffered : Z;
  starving : bool;
  diskbusy : bool
}.

Inductive FMOD_TAGTYPE :=
| FMOD_TAGTYPE_UNKNOWN
| FMOD_TAGTYPE_ID3V1
| FMOD_TAGTYPE_ID3V2
| FMOD_TAGTYPE_VORBISCOMMENT
| FMOD_TAGTYPE_SHOUTCAST
| FMOD_TAGTYPE_ICECAST
| FMOD_TAGTYPE_ASF
| FMOD_TAGTYPE_MIDI
| FMOD_TAGTYPE_PLAYLIST
| FMOD_TAGTYPE_FMOD
| FMOD_TAGTYPE_USER.

Inductive FMOD_TAGDATATYPE :=
| FMOD_TAGDATATYPE_BINARY
| FMOD_TAGDATATYPE_INT
| FMOD_TAGDATATYPE_FLOAT
| FMOD_TAGDATATYPE_STRING
| FMOD_TAGDATATYPE_STRING_UTF16
| FMOD_TAGDATATYPE_STRING_UTF16BE
| FMOD_TAGDATATYPE_STRING_UTF8
| FMOD_TAGDATATYPE_CDTOC.

(** [tag.data] with [tag.datalen]: the payload is the list, its length the
    [datalen]. *)
Record FMOD_TAG := mkTag {
  tag_type : FMOD_TAGTYPE;
  tag_datatype : FMOD_TAGDATATYPE;
  tag_name : string;
  tag_data : list byte
}.

Definition tag_datalen (tag : FMOD_TAG) : Z := Z.of_nat (length (tag_data tag)).

(** The calls this file makes to the engine. *)
Inductive Call :=
| SetStreamBufferSize (bytes : Z)
| SetAdvancedSettings (defaultDecodeBufferSize : Z)
| CreateChannelGroup
| CreateDSP
| AddDSP
| CreateStream (url : string)
| GetOpenState (s : Sound)
| Release (s : Sound)
| PlaySound (s : Sound)
| SetPaused (c : Channel) (paused : bool)
| GetPaused (c : Channel)
| SetPriority (c : Channel) (priority : Z)
| SetVolume (c : Channel) (vol : F32)
| SetFrequency (c : Channel) (raw : list byte)
| GetMute (c : Channel)
| GetCurrentSound (c : Channel)
| GetNumTags (s : Sound)
| GetTag (s : Sound) (i : Z)
| LockDSP
| UnlockDSP
| DSPSetActive (active : bool).

(** The answers of the engine; the first argument is the number of calls
    made before the one being answered. *)
Record Engine := mkEngine {
  createChannelGroup_result : nat -> bool;
  createDSP_result : nat -> bool;
  createStream_result : nat -> string -> option Sound;
  getOpenState_result : nat -> Sound -> OpenInfo;
  release_result : nat -> Sound -> bool;
  playSound_result : nat -> Sound -> option Channel;
  getMute_result : nat -> Channel -> bool;
  getCurrentSound_result : nat -> Channel -> option Sound;
  getNumTags_result : nat -> Sound -> option (Z * Z);
  getTag_result : nat -> Sound -> Z -> option FMOD_TAG
}.

(** The world: the call log (oldest first) and its length, the pause flag
    the engine keeps per channel, whether the waveform DSP is active, and
    the ring-buffer globals. *)
Record World := mkWorld {
  clock : nat;
  calls : list Call;
  paused : Channel -> bool;
  dsp_active : bool;
  wave : Wave
}.

Definition world_init : World :=
  {| clock := 0; calls := []; paused := fun _ => false;
     dsp_active := false; wave := wave_init |}.

(** ** The monad of engine-calling code *)

Definition M (A : Type) : Type := World -> Res (A * World).

Definition ret {A} (a : A) : M A := fun w => Ok (a, w).

Definition bind {A B} (m : M A) (k : A -> M B) : M B :=
  fun w =>
    match m w with
    | Ok (a, w') => k a w'
    | Fatal => Fatal
    | Undef => Undef
    end.

Definition fatal {A} : M A := fun _ => Fatal.
Definition undef {A} : M A := fun _ => Undef.

Declare Scope m_scope.
Delimit Scope m_scope with M.
Notation "'let!' x := m 'in' k" := (bind m (fun x => k))
  (at level 10, x pattern, m at level 200, k at level 200) : m_scope.
Notation "m1 ;;; m2" := (bind m1 (fun _ => m2))
  (at level 100, m2 at level 200, right associativity) : m_scope.

(** Record a call; the result is the index its answer is read at. *)
Definition tick (c : Call) : M nat :=
  fun w =>
    Ok (clock w,
        {| clock := S (clock w); calls := calls w ++ [c];
           paused := paused w; dsp_active := dsp_active w; wave := wave w |}).

Definition set_paused (c : Channel) (b : bool) : M unit :=
  fun w =>
    Ok (tt,
        {| clock := clock w; calls := calls w;
           paused := fun c' => if Nat.eqb c' c then b else paused w c';
           dsp_active := dsp_active w; wave := wave w |}).

Definition set_dsp_active (b : bool) : M unit :=
  fun w =>
    Ok (tt,
        {| clock := clock w; calls := calls w; paused := paused w;
           dsp_active := b; wave := wave w |}).

Definition get_wave : M Wave := fun w => Ok (wave w, w).

Definition put_wave (v : Wave) : M unit :=
  fun w =>
    Ok (tt,
        {| clock := clock w; calls := calls w; paused := paused w;
           dsp_active := dsp_active w; wave := v |}).

Definition lift_res {A} (r : Res A) : M A :=
  fun w => match r with Ok a => Ok (a, w) | Fatal => Fatal | Undef => Undef end.

Section Streaming.
Variable E : Engine.
Variable char_signed : bool.

(** Modelled from the spec: [rawstr_to_utf8] lives in llstring.cpp, which
    is not among the sources; the spec says the raw 8-bit text is
    reinterpreted through a legacy-to-unicode table.  The table is a
    parameter. *)
Variable rawstr_to_utf8 : list byte -> list byte.

Local Open Scope m_scope.

(** *** Engine calls *)

Definition fmod_createStream (url : string) : M (option Sound) :=
  let! t := tick (CreateStream url) in ret (createStream_result E t url).

Definition fmod_getOpenState (s : Sound) : M OpenInfo :=
  let! t := tick (GetOpenState s) in ret (getOpenState_result E t s).

Definition fmod_release (s : Sound) : M bool :=
  let! t := tick (Release s) in ret (release_result E t s).

(** [playSound(sound, group, true, &channel)]: the channel starts paused. *)
Definition fmod_playSound (s : Sound) : M (option Channel) :=
  let! t := tick (PlaySound s) in
  match playSound_result E t s with
  | Some c => set_paused c true ;;; ret (Some c)
  | None => ret None
  end.

Definition fmod_setPaused (c : Channel) (b : bool) : M unit :=
  let! _ := tick (SetPaused c b) in set_paused c b.

Definition fmod_getPaused (c : Channel) : M bool :=
  let! _ := tick (GetPaused c) in fun w => Ok (paused w c, w).

Definition fmod_setPriority (c : Channel) (p : Z) : M unit :=
  let! _ := tick (SetPriority c p) in ret tt.

Definition fmod_setVolume (c : Channel) (v : F32) : M unit :=
  let! _ := tick (SetVolume c v) in ret tt.

Definition fmod_setFrequency (c : Channel) (raw : list byte) : M unit :=
  let! _ := tick (SetFrequency c raw) in ret tt.

Definition fmod_getMute (c : Channel) : M bool :=
  let! t := tick (GetMute c) in ret (getMute_result E t c).

Definition fmod_getCurrentSound (c : Channel) : M (option Sound) :=
  let! t := tick (GetCurrentSound c) in ret (getCurrentSound_result E t c).

Definition fmod_getNumTags (s : Sound) : M (option (Z * Z)) :=
  let! t := tick (GetNumTags s) in ret (getNumTags_result E t s).

Definition fmod_getTag (s : Sound) (i : Z) : M (option FMOD_TAG) :=
  let! t := tick (GetTag s i) in ret (getTag_result E t s i).

Definition dsp_setActive (b : bool) : M unit :=
  let! _ := tick (DSPSetActive b) in set_dsp_active b.

(** *** LLAudioStreamManagerFMODSTUDIO (lines 51-70, 559-634) *)

Record LLAudioStreamManagerFMODSTUDIO := mkLLAudioStreamManagerFMODSTUDIO {
  mStreamChannel : option Channel;
  mInternetStream : option Sound;
  mReady : bool;
  mInternetStreamURL : string
}.

(** The constructor, lines 559-580.  [createStream] writes
    [mInternetStream] when it succeeds; when it fails the pointer stays
    null, as initialised. *)
Definition new_LLAudioStreamManagerFMODSTUDIO (url : string)
  : M LLAudioStreamManagerFMODSTUDIO :=
  let! r := fmod_createStream url in
  match r with
  | None =>
      ret {| mStreamChannel := None; mInternetStream := None;
             mReady := false; mInternetStreamURL := url |}
  | Some s =>
      ret {| mStreamChannel := None; mInternetStream := Some s;
             mReady := true; mInternetStreamURL := url |}
  end.

(** Lines 629-634: [mInternetStream] is dereferenced as it is. *)
Definition getOpenState (this : LLAudioStreamManagerFMODSTUDIO) : M OpenInfo :=
  match mInternetStream this with
  | None => undef
  | Some s => fmod_getOpenState s
  end.

(** Lines 582-596. *)
Definition startStream (this : LLAudioStreamManagerFMODSTUDIO) : M
  (option Channel * LLAudioStreamManagerFMODSTUDIO) :=
  match mInternetStream this with
  | None => ret (None, this)
  | Some s =>
      let! oi := getOpenState this in
      if negb (openstate_eqb (open_state oi) FMOD_OPENSTATE_READY)
      then ret (None, this)
      else
        match mStreamChannel this with
        | Some c => ret (Some c, this)
        | None =>
            let! ch := fmod_playSound s in
            ret (ch, {| mStreamChannel := ch;
                        mInternetStream := mInternetStream this;
                        mReady := mReady this;
                        mInternetStreamURL := mInternetStreamURL this |})
        end
  end.

(** Lines 598-627. *)
Definition stopStream (this : LLAudioStreamManagerFMODSTUDIO) : M
  (bool * LLAudioStreamManagerFMODSTUDIO) :=
  match mInternetStream this with
  | Some s =>
      let! oi := getOpenState this in
      let close :=
        match open_state oi with
        | FMOD_OPENSTATE_CONNECTING => false
        | _ => true
        end in
      let! released := (if close then fmod_release s else ret false) in
      if released then
        ret (true, {| mStreamChannel := None; mInternetStream := None;
                      mReady := mReady this;
                      mInternetStreamURL := mInternetStreamURL this |})
      else ret (false, this)
  | None => ret (true, this)
  end.

(** *** Tag names and payloads (lines 320-400) *)

(** Modelled from the spec: [LLStringUtil::toUpper] lives in llstring.h,
    which is not among the sources; the spec says the canonical names are
    uppercased.  The letters a to z become A to Z. *)
Definition ascii_toupper (c : ascii) : ascii :=
  let n := nat_of_ascii c in
  if (Nat.leb 97 n && Nat.leb n 122)%bool then ascii_of_nat (n - 32) else c.

Fixpoint toUpper (s : string) : string :=
  match s with
  | EmptyString => EmptyString
  | String c s' => String (ascii_toupper c) (toUpper s')
  end.

(** Modelled from the spec: [LLStringUtil::compareInsensitive] lives in
    llstring.h, which is not among the sources; the spec says the names
    are matched case-insensitively.  The result is zero exactly when the
    two strings are equal up to the case of their letters. *)
Definition compareInsensitive (a b : string) : Z :=
  if String.eqb (toUpper a) (toUpper b) then 0 else 1.

(** little-endian bytes to an unsigned number *)
Fixpoint le_value (bs : list byte) : Z :=
  match bs with
  | [] => 0
  | b :: rest => byte_val b + 256 * le_value rest
  end.

(** [*(LLSD::Integer* )(tag.data)]: four bytes read as a signed int *)
Definition read_S32 (data : list byte) : Res Z :=
  if Nat.leb 4 (length data) then
    let u := le_value (firstn 4 data) in
    Ok (if u <? 2 ^ 31 then u else u - 2 ^ 32)
  else Undef.

(** [*(float* )(tag.data)] and [*(LLSD::Float* )(tag.data)]: the [n] bytes
    of the value, kept as they are *)
Definition read_raw (n : nat) (data : list byte) : Res (list byte) :=
  if Nat.leb n (length data) then Ok (firstn n data) else Undef.

(** What this file stores in an [LLSD] (llsd.h, not among the sources): an
    integer, a real (kept as the bytes read) or a string. *)
Inductive LLSD :=
| LLSD_Integer (i : Z)
| LLSD_Real (raw : list byte)
| LLSD_String (s : list byte).

(** The first switch, lines 324-347; [None] is the [continue] of line
    341. *)
Definition translate_name (c : Channel) (tag : FMOD_TAG) : M (option string) :=
  let name := tag_name tag in
  match tag_type tag with
  | FMOD_TAGTYPE_ID3V2 =>
      ret (Some (if compareInsensitive name "TIT2" =? 0 then "TITLE"%string
                 else if String.eqb name "TPE1" then "ARTIST"%string
                 else name))
  | FMOD_TAGTYPE_ASF =>
      ret (Some (if compareInsensitive name "Title" =? 0 then "TITLE"%string
                 else if compareInsensitive name "WM/AlbumArtist" =? 0
                      then "ARTIST"%string
                 else name))
  | FMOD_TAGTYPE_FMOD =>
      (if compareInsensitive name "Sample Rate Change" =? 0 then
         let! f := lift_res (read_raw 4 (tag_data tag)) in
         fmod_setFrequency c f
       else ret tt) ;;;
      ret None
  | _ =>
      ret (Some (if (compareInsensitive name "TITLE" =? 0)
                    || (compareInsensitive name "ARTIST" =? 0)
                 then toUpper name else name))
  end.

(** Line 371: the offset past a UTF-8 byte-order marker. *)
Definition utf8_bom_offs (tag : FMOD_TAG) : nat :=
  match tag_data tag with
  | c0 :: c1 :: c2 :: _ =>
      if (tag_datalen tag >? 3)
         && (char_value char_signed c0 =? 239)
         && (char_value char_signed c1 =? 187)
         && (char_value char_signed c2 =? 191)
      then 3%nat else 0%nat
  | _ => 0%nat
  end.

(** The second switch, lines 349-399: the value stored under the name, or
    [None] when the payload type stores nothing. *)
Definition decode_payload (tag : FMOD_TAG) : Res (option LLSD) :=
  match tag_datatype tag with
  | FMOD_TAGDATATYPE_INT =>
      (let* i := read_S32 (tag_data tag) in Ok (Some (LLSD_Integer i)))%res
  | FMOD_TAGDATATYPE_FLOAT =>
      (let* r := read_raw 8 (tag_data tag) in Ok (Some (LLSD_Real r)))%res
  | FMOD_TAGDATATYPE_STRING =>
      let out := rawstr_to_utf8 (tag_data tag) in
      Ok (Some (LLSD_String (strip_trailing_nul out)))
  | FMOD_TAGDATATYPE_STRING_UTF8 =>
      let out := skipn (utf8_bom_offs tag) (tag_data tag) in
      Ok (Some (LLSD_String (strip_trailing_nul out)))
  | FMOD_TAGDATATYPE_STRING_UTF16 =>
      (let* out := utf16input_to_utf8 char_signed (tag_data tag)
                     (tag_datalen tag) UTF16 in
       Ok (Some (LLSD_String (strip_trailing_nul out))))%res
  | FMOD_TAGDATATYPE_STRING_UTF16BE =>
      (let* out := utf16input_to_utf8 char_signed (tag_data tag)
                     (tag_datalen tag) UTF16BE in
       Ok (Some (LLSD_String (strip_trailing_nul out))))%res
  | _ => Ok None
  end.

(** One tag, handed over by [getTag]: the body of the loop of line 320
    after line 323. *)
Definition store_tag (c : Channel) (tag : FMOD_TAG) (md : gmap string LLSD)
  : M (gmap string LLSD) :=
  let! nm := translate_name c tag in
  match nm with
  | None => ret md
  | Some name =>
      let! v := lift_res (decode_payload tag) in
      match v with
      | Some v => ret (<[name:=v]> md)
      | None => ret md
      end
  end.

(** [for(S32 i = 0; i < tagcount; ++i)], from [i], [n] times. *)
Fixpoint tag_loop (s : Sound) (c : Channel) (n : nat) (i : Z)
  (md : gmap string LLSD) : M (gmap string LLSD) :=
  match n with
  | O => ret md
  | S n' =>
      let! r := fmod_getTag s i in
      let! md' :=
        match r with
        | None => ret md
        | Some tag => store_tag c tag md
        end in
      tag_loop s c n' (i + 1) md'
  end.

(** *** LLStreamingAudio_FMODSTUDIO *)

Definition DSP : Type := nat.

Record LLStreamingAudio_FMODSTUDIO := mkLLStreamingAudio_FMODSTUDIO {
  mCurrentInternetStreamp : option LLAudioStreamManagerFMODSTUDIO;
  mFMODInternetStreamChannelp : option Channel;
  mStreamDSP : option DSP;
  mDeadStreams : list LLAudioStreamManagerFMODSTUDIO;
  mURL : string;
  mPendingURL : string;
  mGain : F32;
  mMetaData : option (gmap string LLSD)
}.

Definition set_current (h : option LLAudioStreamManagerFMODSTUDIO)
  (this : LLStreamingAudio_FMODSTUDIO) : LLStreamingAudio_FMODSTUDIO :=
  mkLLStreamingAudio_FMODSTUDIO h (mFMODInternetStreamChannelp this) (mStreamDSP this)
    (mDeadStreams this) (mURL this) (mPendingURL this) (mGain this)
    (mMetaData this).

Definition set_channel (c : option Channel)
  (this : LLStreamingAudio_FMODSTUDIO) : LLStreamingAudio_FMODSTUDIO :=
  mkLLStreamingAudio_FMODSTUDIO (mCurrentInternetStreamp this) c (mStreamDSP this)
    (mDeadStreams this) (mURL this) (mPendingURL this) (mGain this)
    (mMetaData this).

Definition set_dead (l : list LLAudioStreamManagerFMODSTUDIO)
  (this : LLStreamingAudio_FMODSTUDIO) : LLStreamingAudio_FMODSTUDIO :=
  mkLLStreamingAudio_FMODSTUDIO (mCurrentInternetStreamp this)
    (mFMODInternetStreamChannelp this) (mStreamDSP this) l (mURL this)
    (mPendingURL this) (mGain this) (mMetaData this).

Definition set_url (u : string) (this : LLStreamingAudio_FMODSTUDIO)
  : LLStreamingAudio_FMODSTUDIO :=
  mkLLStreamingAudio_FMODSTUDIO (mCurrentInternetStreamp this)
    (mFMODInternetStreamChannelp this) (mStreamDSP this) (mDeadStreams this)
    u (mPendingURL this) (mGain this) (mMetaData this).

Definition set_pending (u : string) (this : LLStreamingAudio_FMODSTUDIO)
  : LLStreamingAudio_FMODSTUDIO :=
  mkLLStreamingAudio_FMODSTUDIO (mCurrentInternetStreamp this)
    (mFMODInternetStreamChannelp this) (mStreamDSP this) (mDeadStreams this)
    (mURL this) u (mGain this) (mMetaData this).

Definition set_gain (g : F32) (this : LLStreamingAudio_FMODSTUDIO)
  : LLStreamingAudio_FMODSTUDIO :=
  mkLLStreamingAudio_FMODSTUDIO (mCurrentInternetStreamp this)
    (mFMODInternetStreamChannelp this) (mStreamDSP this) (mDeadStreams this)
    (mURL this) (mPendingURL this) g (mMetaData this).

Definition set_metadata (m : option (gmap string LLSD))
  (this : LLStreamingAudio_FMODSTUDIO)
  : LLStreamingAudio_FMODSTUDIO :=
  mkLLStreamingAudio_FMODSTUDIO (mCurrentInternetStreamp this)
    (mFMODInternetStreamChannelp this) (mStreamDSP this) (mDeadStreams this)
    (mURL this) (mPendingURL this) (mGain this) m.

Definition is_empty_string (s : string) : bool :=
  match s with EmptyString => true | _ => false end.

(** The constructor, lines 119-158.  [mStreamGroup] and [mStreamDSP] are
    not in the initialiser list: each is written only by the call that
    creates it ([createChannelGroup], line 143; [createDSP], line 153), whose
    failure is logged and nothing more.  Line 155 then dereferences
    [mStreamGroup] and line 157 [mStreamDSP], as they are. *)
Definition new_LLStreamingAudio_FMODSTUDIO : M LLStreamingAudio_FMODSTUDIO :=
  let! _ := tick (SetStreamBufferSize (128 * 10 * 128)) in
  let! tg := tick CreateChannelGroup in
  let! t := tick CreateDSP in
  if createChannelGroup_result E tg then
    let! _ := tick AddDSP in
    if createDSP_result E t then
      dsp_setActive false ;;;
      ret {| mCurrentInternetStreamp := None;
             mFMODInternetStreamChannelp := None;
             mStreamDSP := Some 0%nat;
             mDeadStreams := [];
             mURL := EmptyString;
             mPendingURL := EmptyString;
             mGain := F32.one;
             mMetaData := None |}
    else undef
  else undef.

(** Lines 504-513. *)
Definition getGain (this : LLStreamingAudio_FMODSTUDIO) : F32 := mGain this.
Definition getURL (this : LLStreamingAudio_FMODSTUDIO) : string := mURL this.

(** Modelled from the spec: [llclamp] lives in lldefs.h, which is not
    among the sources; the spec says the squared gain is clamped to
    [0,1].  A value below the lower bound becomes the lower bound, a
    value above the upper bound the upper bound, any other is kept. *)
Definition llclamp (a minval maxval : F32) : F32 :=
  if F32.ltb a minval then minval
  else if F32.ltb maxval a then maxval
  else a.

(** Lines 516-526. *)
Definition setGain (this : LLStreamingAudio_FMODSTUDIO) (vol : F32)
  : M LLStreamingAudio_FMODSTUDIO :=
  let this := set_gain vol this in
  match mFMODInternetStreamChannelp this with
  | Some c =>
      let vol := llclamp (F32.mul vol vol) F32.zero F32.one in
      fmod_setVolume c vol ;;; ret this
  | None => ret this
  end.

(** Lines 646-666: the loop over the dead list ... *)
Fixpoint release_dead (l : list LLAudioStreamManagerFMODSTUDIO) : M
  (list LLAudioStreamManagerFMODSTUDIO) :=
  match l with
  | [] => ret []
  | streamp :: rest =>
      let! (ok, streamp') := stopStream streamp in
      let! rest' := release_dead rest in
      ret (if ok : bool then rest' else streamp' :: rest')
  end.

(** ... and its result. *)
Definition releaseDeadStreams (this : LLStreamingAudio_FMODSTUDIO) : M
  (bool * LLStreamingAudio_FMODSTUDIO) :=
  let! l := release_dead (mDeadStreams this) in
  ret (match l with [] => true | _ => false end, set_dead l this).

(** Lines 422-462. *)
Definition stop (this : LLStreamingAudio_FMODSTUDIO)
  : M LLStreamingAudio_FMODSTUDIO :=
  let this := set_metadata None (set_pending EmptyString this) in
  let! _ :=
    match mStreamDSP this with
    | Some _ =>
        let! _ := tick LockDSP in
        dsp_setActive false ;;;
        let! wv := get_wave in
        put_wave {| gWaveBufferMinSize := gWaveBufferMinSize wv;
                    gWaveDataBuffer := gWaveDataBuffer wv;
                    gWaveDataBufferSize := 0;
                    local_buf := local_buf wv |} ;;;
        let! _ := tick UnlockDSP in
        ret tt
    | None => ret tt
    end in
  let! this :=
    match mFMODInternetStreamChannelp this with
    | Some c =>
        fmod_setPaused c true ;;;
        fmod_setPriority c 0 ;;;
        ret (set_channel None this)
    | None => ret this
    end in
  match mCurrentInternetStreamp this with
  | Some h =>
      let! (ok, h') := stopStream h in
      if ok : bool then ret (set_current None this)
      else ret (set_current None (set_dead (mDeadStreams this ++ [h']) this))
  | None => ret this
  end.

(** Lines 182-213. *)
Definition start (this : LLStreamingAudio_FMODSTUDIO) (url : string)
  : M LLStreamingAudio_FMODSTUDIO :=
  let! this := stop this in
  if negb (is_empty_string url) then
    match mDeadStreams this with
    | [] =>
        let! h := new_LLAudioStreamManagerFMODSTUDIO url in
        ret (set_metadata (Some ∅) (set_url url (set_current (Some h) this)))
    | _ :: _ => ret (set_pending url this)
    end
  else ret (set_url EmptyString this).

(** Lines 289-297: the stream is ready. *)
Definition update_ready (this : LLStreamingAudio_FMODSTUDIO)
  (h : LLAudioStreamManagerFMODSTUDIO) : M LLStreamingAudio_FMODSTUDIO :=
  match mFMODInternetStreamChannelp this with
  | Some _ => ret this
  | None =>
      let! (ch, h') := startStream h in
      let this := set_channel ch (set_current (Some h') this) in
      match ch with
      | Some c =>
          let! this := setGain this (getGain this) in
          let! _ :=
            match mStreamDSP this with
            | Some _ => dsp_setActive true
            | None => ret tt
            end in
          fmod_setPaused c false ;;;
          ret this
      | None => ret this
      end
  end.

(** Lines 402-417: the starvation policy. *)
Definition starvation_policy (c : Channel) (oi : OpenInfo) : M unit :=
  if starving oi then
    let! p := fmod_getPaused c in
    if negb p then fmod_setPaused c true else ret tt
  else if percentbuffered oi >? 80 then fmod_setPaused c false
  else ret tt.

(** Lines 305-419: the channel is there. *)
Definition update_channel (this : LLStreamingAudio_FMODSTUDIO)
  (oi : OpenInfo) : M LLStreamingAudio_FMODSTUDIO :=
  match mFMODInternetStreamChannelp this with
  | Some c =>
      let md0 := match mMetaData this with Some m => m | None => ∅ end in
      let this := set_metadata (Some md0) this in
      let! sound := fmod_getCurrentSound c in
      match sound with
      | Some s =>
          let! nt := fmod_getNumTags s in
          let! md :=
            match nt with
            | Some (tagcount, dirtytagcount) =>
                if negb (dirtytagcount =? 0)
                then tag_loop s c (Z.to_nat tagcount) 0 ∅
                else ret md0
            | None => ret md0
            end in
          starvation_policy c oi ;;;
          ret (set_metadata (Some md) this)
      | None => ret this
      end
  | None => ret this
  end.

(** Lines 263-271: a deferred request is started. *)
Definition update_promote (this : LLStreamingAudio_FMODSTUDIO)
  : M LLStreamingAudio_FMODSTUDIO :=
  if negb (is_empty_string (mPendingURL this)) then
    match mCurrentInternetStreamp this with
    | Some _ => fatal
    | None =>
        let! h := new_LLAudioStreamManagerFMODSTUDIO (mPendingURL this) in
        ret (set_pending EmptyString
               (set_metadata (Some ∅)
                  (set_url (mPendingURL this)
                     (set_current (Some h) this))))
    end
  else ret this.

(** Lines 273-419: the current stream is polled. *)
Definition update_poll (this : LLStreamingAudio_FMODSTUDIO)
  : M LLStreamingAudio_FMODSTUDIO :=
  match mCurrentInternetStreamp this with
  | None => ret this
  | Some h =>
      let! oi := getOpenState h in
      match open_state oi with
      | FMOD_OPENSTATE_READY =>
          let! this := update_ready this h in
          update_channel this oi
      | FMOD_OPENSTATE_ERROR => stop this
      | _ => update_channel this oi
      end
  end.

(** Lines 255-420. *)
Definition update (this : LLStreamingAudio_FMODSTUDIO)
  : M LLStreamingAudio_FMODSTUDIO :=
  let! (drained, this) := releaseDeadStreams this in
  if negb drained then
    match mCurrentInternetStreamp this with
    | Some _ => fatal
    | None => ret this
    end
  else
    let! this := update_promote this in
    update_poll this.

(** Lines 464-482. *)
Definition pause (this : LLStreamingAudio_FMODSTUDIO) (pauseopt : Z)
  : M LLStreamingAudio_FMODSTUDIO :=
  let pauseopt :=
    if pauseopt <? 0
    then match mCurrentInternetStreamp this with Some _ => 1 | None => 0 end
    else pauseopt in
  if negb (pauseopt =? 0) then
    match mCurrentInternetStreamp this with
    | Some _ => stop this
    | None => ret this
    end
  else start this (getURL this).

(** Lines 487-501. *)
Definition isPlaying (this : LLStreamingAudio_FMODSTUDIO) : Z :=
  match mCurrentInternetStreamp this with
  | Some _ => 1
  | None =>
      if negb (is_empty_string (mURL this))
         || negb (is_empty_string (mPendingURL this))
      then 2 else 0
  end.

(** Lines 528-554.  [count] is the [S32] argument; the comparison of line
    530 is made in [U32].  [arr] is the caller's array; [stride] is not
    used. *)
Definition getWaveData (this : LLStreamingAudio_FMODSTUDIO) (arr : list F32)
  (count : Z)
  (stride : Z) : M (bool * list F32) :=
  if U32 count >? WAVE_BUFFER_SIZE / 2 then fatal
  else
    match mFMODInternetStreamChannelp this, mCurrentInternetStreamp this with
    | Some c, Some _ =>
        let! muted := fmod_getMute c in
        if muted then ret (false, arr)
        else
          let! wv := get_wave in
          put_wave {| gWaveBufferMinSize := U32 count;
                      gWaveDataBuffer := gWaveDataBuffer wv;
                      gWaveDataBufferSize := gWaveDataBufferSize wv;
                      local_buf := local_buf wv |} ;;;
          let buff_size := gWaveDataBufferSize wv in
          if buff_size =? 0 then ret (false, arr)
          else
            let! arr1 :=
              lift_res
                (memcpy arr 0 (gWaveDataBuffer wv)
                   (Z.to_nat (U32 (WAVE_BUFFER_SIZE - buff_size)))
                   (Z.to_nat (Z.min (U32 count) buff_size))) in
            let! arr2 :=
              (if buff_size <? U32 count then
                 lift_res (memset0 arr1 (Z.to_nat buff_size)
                             (Z.to_nat (U32 (U32 count - buff_size))))
               else ret arr1) in
            ret (true, arr2)
    | _, _ => ret (false, arr)
    end.

(** The audio thread runs the callback between two calls of the
    controller. *)
Definition run_callback (inbuffer outbuffer : list F32) (len inchannels : Z)
  : M (list F32) :=
  let! wv := get_wave in
  let! (out, wv') := lift_res (waveDataCallback inbuffer outbuffer len inchannels wv) in
  put_wave wv' ;;; ret out.

End Streaming.

(** ** Sessions: sequences of calls made by the host application *)

Inductive Op :=
| OpStart (url : string)
| OpStop
| OpUpdate
| OpPause (pauseopt : Z)
| OpSetGain (vol : F32).

Section Sessions.
Variable E : Engine.
Variable char_signed : bool.
Variable rawstr_to_utf8 : list byte -> list byte.

Definition exec (op : Op) (this : LLStreamingAudio_FMODSTUDIO)
  : M LLStreamingAudio_FMODSTUDIO :=
  match op with
  | OpStart url => start E this url
  | OpStop => stop E this
  | OpUpdate => update E char_signed rawstr_to_utf8 this
  | OpPause pauseopt => pause E this pauseopt
  | OpSetGain vol => setGain this vol
  end.

Fixpoint exec_all (ops : list Op) (this : LLStreamingAudio_FMODSTUDIO)
  : M LLStreamingAudio_FMODSTUDIO :=
  match ops with
  | [] => ret this
  | op :: rest => bind (exec op this) (exec_all rest)
  end.

(** [n] consecutive ticks *)
Fixpoint updates (n : nat) (this : LLStreamingAudio_FMODSTUDIO)
  : M LLStreamingAudio_FMODSTUDIO :=
  match n with
  | O => ret this
  | S n' => bind (update E char_signed rawstr_to_utf8 this) (updates n')
  end.
End Sessions.

(** The calls of [w'] made after [w]. *)
Definition calls_since (w w' : World) : list Call :=
  skipn (length (calls w)) (calls w').

Definition is_create (c : Call) : bool :=
  match c with CreateStream _ => true | _ => false end.

Definition is_pause_of (ch : Channel) (c : Call) : bool :=
  match c with SetPaused c' true => Nat.eqb c' ch | _ => false end.

Definition is_set_paused (c : Call) : bool :=
  match c with SetPaused _ _ => true | _ => false end.

Definition count_calls (p : Call -> bool) (l : list Call) : nat :=
  length (filter (fun c => p c = true) l).

(** The valid region of the ring buffer: its last [gWaveDataBufferSize]
    cells, lowest index first. *)
Definition wave_view (w : Wave) : list F32 :=
  skipn (Z.to_nat (WAVE_BUFFER_SIZE - gWaveDataBufferSize w)) (gWaveDataBuffer w).

Definition wave_wf (w : Wave) : Prop :=
  length (gWaveDataBuffer w) = 1024%nat
  /\ 0 <= gWaveDataBufferSize w <= WAVE_BUFFER_SIZE
  /\ 0 <= gWaveBufferMinSize w <= WAVE_BUFFER_SIZE / 2.

(** ** Predicates and sample inputs of the statements *)

Definition engine_connecting : Engine :=
  {| createChannelGroup_result := fun _ => true;
     createDSP_result := fun _ => true;
     createStream_result := fun _ _ => Some 7%nat;
     getOpenState_result := fun _ _ =>
       mkOpenInfo FMOD_OPENSTATE_CONNECTING 0 false false;
     release_result := fun _ _ => true;
     playSound_result := fun _ _ => Some 3%nat;
     getMute_result := fun _ _ => false;
     getCurrentSound_result := fun _ _ => None;
     getNumTags_result := fun _ _ => None;
     getTag_result := fun _ _ _ => None |}.

Definition engine_refusing : Engine :=
  {| createChannelGroup_result := fun _ => true;
     createDSP_result := fun _ => true;
     createStream_result := fun _ _ => None;
     getOpenState_result := fun _ _ =>
       mkOpenInfo FMOD_OPENSTATE_READY 100 false false;
     release_result := fun _ _ => true;
     playSound_result := fun _ _ => Some 3%nat;
     getMute_result := fun _ _ => false;
     getCurrentSound_result := fun _ _ => None;
     getNumTags_result := fun _ _ => None;
     getTag_result := fun _ _ _ => None |}.

Definition controller_idle : LLStreamingAudio_FMODSTUDIO :=
  {| mCurrentInternetStreamp := None;
     mFMODInternetStreamChannelp := None;
     mStreamDSP := Some 0%nat;
     mDeadStreams := [];
     mURL := EmptyString;
     mPendingURL := EmptyString;
     mGain := F32.one;
     mMetaData := None |}.

Definition same_slots (a b : LLStreamingAudio_FMODSTUDIO) : Prop :=
  mDeadStreams a = mDeadStreams b
  /\ mURL a = mURL b
  /\ mPendingURL a = mPendingURL b
  /\ mStreamDSP a = mStreamDSP b
  /\ mGain a = mGain b.

(** The calls of the metadata loop: [getTag] and [setFrequency] only, and
    the pause flags stay as they are. *)
Definition quiet (c : Call) : bool := negb (is_create c) && negb
  (is_set_paused c).

Definition appends_quiet (w w' : World) : Prop :=
  paused w' = paused w
  /\ exists d, calls w' = calls w ++ d /\ forallb quiet d = true.

(** A current stream excludes dead streams and a pending request. *)
Definition session_inv (this : LLStreamingAudio_FMODSTUDIO) : Prop :=
  mCurrentInternetStreamp this <> None ->
  mDeadStreams this = [] /\ mPendingURL this = EmptyString.

Definition controller_playing : LLStreamingAudio_FMODSTUDIO :=
  {| mCurrentInternetStreamp := Some (mkLLAudioStreamManagerFMODSTUDIO (Some 3%nat) (Some 7%nat) true "http://radio/");
     mFMODInternetStreamChannelp := Some 3%nat;
     mStreamDSP := Some 0%nat;
     mDeadStreams := [];
     mURL := "http://radio/";
     mPendingURL := EmptyString;
     mGain := F32.half;
     mMetaData := Some ∅ |}.

Definition session_two_starts : list Op :=
  [OpStart "http://radio/"; OpStart "http://other/"].


Definition tag_marker_title : FMOD_TAG :=
  {| tag_type := FMOD_TAGTYPE_ID3V2;
     tag_datatype := FMOD_TAGDATATYPE_STRING_UTF8;
     tag_name := "TIT2";
     tag_data := [Byte.xef; Byte.xbb; Byte.xbf; Byte.x41; Byte.x00] |}.

Definition ramp (n : nat) : list F32 :=
  map (fun i => F32.of_int (Z.of_nat i)) (seq 1 n).

Definition wave_full_marked : Wave :=
  {| gWaveBufferMinSize := 2;
     gWaveDataBuffer := ramp 1024;
     gWaveDataBufferSize := 1024;
     local_buf := [] |}.

Definition world_two_samples : World :=
  {| clock := 0; calls := []; paused := fun _ => false; dsp_active := true;
     wave := {| gWaveBufferMinSize := 0;
                gWaveDataBuffer := repeat F32.zero 1022 ++ [F32.half; F32.quarter];
                gWaveDataBufferSize := 2;
                local_buf := [] |} |}.

(** A tag whose payload is as long as its declared type needs. *)
Definition tag_ok (tag : FMOD_TAG) : Prop :=
  Z.of_nat (length (tag_data tag)) < 2 ^ 32
  /\ (tag_datatype tag = FMOD_TAGDATATYPE_INT -> (4 <= length (tag_data tag))%nat)
  /\ (tag_datatype tag = FMOD_TAGDATATYPE_FLOAT -> (8 <= length (tag_data tag))%nat)
  /\ (tag_type tag = FMOD_TAGTYPE_FMOD ->
      compareInsensitive (tag_name tag) "Sample Rate Change" = 0 ->
      (4 <= length (tag_data tag))%nat).

Definition tags_ok (E : Engine) : Prop :=
  forall t s i tag, getTag_result E t s i = Some tag -> tag_ok tag.

(** The shape of a controller with a live channel on its current stream. *)
Definition live (this : LLStreamingAudio_FMODSTUDIO) (s : Sound)
  (c : Channel) : Prop :=
  (exists h, mCurrentInternetStreamp this = Some h
             /\ mInternetStream h = Some s)
  /\ mFMODInternetStreamChannelp this = Some c
  /\ mDeadStreams this = []
  /\ mPendingURL this = EmptyString.

Definition engine_starving : Engine :=
  {| createChannelGroup_result := fun _ => true;
     createDSP_result := fun _ => true;
     createStream_result := fun _ _ => Some 7%nat;
     getOpenState_result := fun _ _ =>
       mkOpenInfo FMOD_OPENSTATE_READY 10 true false;
     release_result := fun _ _ => true;
     playSound_result := fun _ _ => Some 3%nat;
     getMute_result := fun _ _ => false;
     getCurrentSound_result := fun _ _ => Some 7%nat;
     getNumTags_result := fun _ _ => None;
     getTag_result := fun _ _ _ => None |}.

(** ** More of the file: teardown, buffer sizes, managers on their own *)

Section Teardown.
Variable E : Engine.

(** The loop of lines 164-169 of the destructor with [n] passes left.  The
    result counts the [ms_sleep(10)] calls; the sleep itself has no effect
    on anything modelled. *)
Fixpoint drain_dead (n : nat) (this : LLStreamingAudio_FMODSTUDIO)
  : M (nat * LLStreamingAudio_FMODSTUDIO) :=
  match n with
  | O => ret (O, this)
  | S n' =>
      (let! (drained, this) := releaseDeadStreams E this in
       if drained : bool then ret (O, this)
       else
         let! (k, this) := drain_dead n' this in
         ret (S k, this))%M
  end.

(** Lines 161-169 of the destructor: [stop], then at most 100 passes over
    the dead list.  The statements that follow (lines 171-178) release the
    channel group and the DSP and touch nothing else. *)
Definition destructor_drain (this : LLStreamingAudio_FMODSTUDIO)
  : M (nat * LLStreamingAudio_FMODSTUDIO) :=
  (let! this := stop E this in drain_dead 100 this)%M.
End Teardown.

(** Lines 636-644.  [streambuffertime] and [decodebuffertime] are [U32].
    The settings handed to [setAdvancedSettings] are zeroed but for their
    own size and [defaultDecodeBufferSize], which the call records. *)
Definition setBufferSizes (streambuffertime decodebuffertime : Z) : M unit :=
  (let! _ := tick (SetStreamBufferSize
                     (U32 (U32 (streambuffertime / 1000 * 128) * 128))) in
   let! _ := tick (SetAdvancedSettings decodebuffertime) in
   ret tt)%M.

(** Calls on a manager, one after the other. *)
Inductive ManagerOp :=
| MStartStream
| MStopStream.

Section Managers.
Variable E : Engine.

Definition manager_exec (op : ManagerOp)
  (this : LLAudioStreamManagerFMODSTUDIO) : M LLAudioStreamManagerFMODSTUDIO :=
  match op with
  | MStartStream => (let! (_, this') := startStream E this in ret this')%M
  | MStopStream => (let! (_, this') := stopStream E this in ret this')%M
  end.

Fixpoint manager_exec_all (ops : list ManagerOp)
  (this : LLAudioStreamManagerFMODSTUDIO) : M LLAudioStreamManagerFMODSTUDIO :=
  match ops with
  | [] => ret this
  | op :: rest => bind (manager_exec op this) (manager_exec_all rest)
  end.
End Managers.

(** 16-bit units written out as bytes, low byte first and high byte first:
    the inputs of the decoder's round trips. *)
Definition utf16le_bytes (us : list Z) : list byte :=
  flat_map (fun u => [byte_of_Z u; byte_of_Z (u / 256)]) us.

Definition utf16be_bytes (us : list Z) : list byte :=
  flat_map (fun u => [byte_of_Z (u / 256); byte_of_Z u]) us.

Definition is_unit16 (u : Z) : Prop := 0 <= u < 65536.

Definition is_play_sound (c : Call) : bool :=
  match c with PlaySound _ => true | _ => false end.

Definition is_release (c : Call) : bool :=
  match c with Release _ => true | _ => false end.

Definition is_get_tag (c : Call) : bool :=
  match c with GetTag _ _ => true | _ => false end.

(** The calls [stop] makes on the DSP (lines 434-437). *)
Definition is_dsp_call (c : Call) : bool :=
  match c with LockDSP | UnlockDSP | DSPSetActive _ => true | _ => false end.

(** A controller with nothing to do. *)
Definition idle (this : LLStreamingAudio_FMODSTUDIO) : Prop :=
  mCurrentInternetStreamp this = None
  /\ mFMODInternetStreamChannelp this = None
  /\ mDeadStreams this = []
  /\ mPendingURL this = EmptyString.

(** What every manager built by the constructor satisfies, whatever is
    called on it next: it keeps its address, has a channel only while it has
    a stream, and has a stream only once it is ready. *)
Definition manager_inv (url : string) (h : LLAudioStreamManagerFMODSTUDIO)
  : Prop :=
  mInternetStreamURL h = url
  /\ (mStreamChannel h <> None -> mInternetStream h <> None)
  /\ (mInternetStream h <> None -> mReady h = true).

(** The value the callback keeps for frame [i] of a block: the sum of the
    frame's channels, added in order to zero, divided by the number of
    channels (lines 90-95). *)
Definition frame_mean (inbuffer : list F32) (inchannels : Z) (i : nat) : F32 :=
  F32.div
    (fold_left F32.add
       (slice inbuffer (i * Z.to_nat inchannels) (Z.to_nat inchannels))
       F32.zero)
    (F32.of_int inchannels).

(** An engine that opens every stream it is asked for, one that always
    makes the channel group, and one that always makes the DSP. *)
Definition engine_opens (E : Engine) : Prop :=
  forall t url, createStream_result E t url <> None.

Definition engine_makes_group (E : Engine) : Prop :=
  forall t, createChannelGroup_result E t = true.

Definition engine_makes_dsp (E : Engine) : Prop :=
  forall t, createDSP_result E t = true.

(** The current manager, if any, holds a stream. *)
Definition current_has_stream (this : LLStreamingAudio_FMODSTUDIO) : Prop :=
  forall h, mCurrentInternetStreamp this = Some h -> mInternetStream h <> None.

(** * Properties *)

(** ** Floats *)

Lemma shr_1_nonneg (mrs : shr_record) :
  0 <= shr_m mrs -> 0 <= shr_m (shr_1 mrs).
Proof.
  destruct mrs as [m r s]; simpl.
  destruct m as [|p|p]; try destruct p; simpl; lia.
Qed.

Lemma iter_pos_shr_1_nonneg (p : positive) :
  forall mrs, 0 <= shr_m mrs -> 0 <= shr_m (SpecFloat.iter_pos shr_1 p mrs).
Proof.
  induction p as [p IH|p IH|]; intros mrs H; simpl.
  - apply IH, IH, shr_1_nonneg, H.
  - apply IH, IH, H.
  - apply shr_1_nonneg, H.
Qed.

Lemma shr_fexp_nonneg (prec emax m e : Z) (l : location) :
  0 <= m -> 0 <= shr_m (fst (shr_fexp prec emax m e l)).
Proof.
  intros H. unfold shr_fexp, shr.
  assert (H0 : 0 <= shr_m (shr_record_of_loc m l))
    by (destruct l as [|[| |]]; simpl; exact H).
  destruct (fexp prec emax (Zdigits2 m + e) - e); simpl;
    auto using iter_pos_shr_1_nonneg.
Qed.

Lemma round_nearest_even_nonneg (m : Z) (l : location) :
  0 <= m -> 0 <= round_nearest_even m l.
Proof.
  intros H. destruct l as [|[| |]]; simpl; try lia.
  destruct (Z.even m); lia.
Qed.

Lemma binary_round_aux_not_nan (prec emax : Z) (sx : bool) (mx ex : Z)
  (lx : location) :
  0 <= mx -> binary_round_aux prec emax sx mx ex lx <> S754_nan.
Proof.
  intros H. unfold binary_round_aux.
  pose proof (shr_fexp_nonneg prec emax mx ex lx H) as H1.
  destruct (shr_fexp prec emax mx ex lx) as [mrs' e']. simpl in H1.
  pose proof (shr_fexp_nonneg prec emax
                (round_nearest_even (shr_m mrs') (loc_of_shr_record mrs'))
                e' loc_Exact
                (round_nearest_even_nonneg _ _ H1)) as H2.
  destruct (shr_fexp prec emax _ e' loc_Exact) as [mrs'' e'']. simpl in H2.
  destruct (shr_m mrs'') as [|p|p]; try discriminate.
  - destruct (e'' <=? emax - prec); discriminate.
  - lia.
Qed.

Lemma square_not_nan (v : F32) :
  F32.is_nan v = false -> F32.is_nan (F32.mul v v) = false.
Proof.
  destruct v as [s|s| |s m e]; simpl; intros H; try reflexivity; try discriminate.
  unfold F32.mul, SFmul.
  pose proof (binary_round_aux_not_nan F32.prec F32.emax (xorb s s)
                (Z.pos (m * m)) (e + e) loc_Exact) as Hn.
  destruct (binary_round_aux F32.prec F32.emax (xorb s s) (Z.pos (m * m))
              (e + e) loc_Exact); try reflexivity.
  exfalso. apply Hn; [lia | reflexivity].
Qed.

Lemma SFcompare_antisym (x y : spec_float) :
  SFcompare y x = option_map CompOpp (SFcompare x y).
Proof.
  destruct x as [sx|sx| |sx mx ex], y as [sy|sy| |sy my ey]; simpl;
    try reflexivity;
    try (destruct sx; reflexivity); try (destruct sy; reflexivity);
    try (destruct sx, sy; reflexivity).
  rewrite (Z.compare_antisym ex ey).
  rewrite !Pos.compare_cont_spec. simpl.
  rewrite (Pos.compare_antisym mx my).
  destruct sx, sy; simpl; try reflexivity;
    destruct (ex ?= ey); simpl; try reflexivity;
    destruct (mx ?= my)%positive; reflexivity.
Qed.

Lemma SFcompare_some (x y : spec_float) :
  F32.is_nan x = false -> F32.is_nan y = false ->
  exists c, SFcompare x y = Some c.
Proof.
  destruct x as [sx|sx| |sx mx ex], y as [sy|sy| |sy my ey]; simpl;
    intros Hx Hy; try discriminate; eauto.
Qed.

Lemma not_ltb_leb (x y : F32) :
  F32.is_nan x = false -> F32.is_nan y = false ->
  F32.ltb x y = false -> F32.leb y x = true.
Proof.
  intros Hx Hy. unfold F32.ltb, F32.leb, SFltb, SFleb.
  rewrite (SFcompare_antisym x y).
  destruct (SFcompare_some x y Hx Hy) as [c ->]. simpl.
  destruct c; simpl; congruence.
Qed.

Lemma llclamp_unit_range (a : F32) :
  F32.is_nan a = false ->
  F32.leb F32.zero (llclamp a F32.zero F32.one) = true
  /\ F32.leb (llclamp a F32.zero F32.one) F32.one = true.
Proof.
  intros Ha. unfold llclamp.
  destruct (F32.ltb a F32.zero) eqn:H0; [split; reflexivity|].
  destruct (F32.ltb F32.one a) eqn:H1; [split; reflexivity|].
  split.
  - apply not_ltb_leb; auto.
  - apply not_ltb_leb; auto.
Qed.

(** ** The monad *)

Lemma bind_Ok {A B} (m : M A) (k : A -> M B) (w : World) (r : B * World) :
  bind m k w = Ok r -> exists a w1, m w = Ok (a, w1) /\ k a w1 = Ok r.
Proof.
  unfold bind. destruct (m w) as [[a w1]| |]; try discriminate. eauto.
Qed.

Lemma bind_step {A B} (m : M A) (k : A -> M B) (w w1 : World) (a : A) :
  m w = Ok (a, w1) -> bind m k w = k a w1.
Proof. unfold bind. intros ->. reflexivity. Qed.

Lemma calls_since_app (w w' : World) (d : list Call) :
  calls w' = calls w ++ d -> calls_since w w' = d.
Proof. unfold calls_since. intros ->. apply drop_app_length. Qed.

Lemma count_calls_app (p : Call -> bool) (l1 l2 : list Call) :
  count_calls p (l1 ++ l2) = (count_calls p l1 + count_calls p l2)%nat.
Proof. unfold count_calls. rewrite filter_app, length_app. reflexivity. Qed.

(** Break [bind m k w = Ok r] in hypothesis [H] into its two steps. *)
Ltac inv_bind H :=
  let a := fresh "a" in
  let w1 := fresh "w" in
  let H1 := fresh "Hm" in
  apply bind_Ok in H as (a & w1 & H1 & H).

Ltac inv_ret H := unfold ret in H; injection H as ? ?; subst.

(** ** Volume (C8) *)

(** C8.  For every value [v], [setGain v] returns, and [getGain] then reads
    [v] back unchanged; with a live channel the one call made to the engine
    sets the volume to [v * v] clamped by 0 and 1, which lies in [0,1]
    unless [v] is not a number; without a channel no call is made.  In
    particular 0.5 squared and clamped is 0.25. *)
Theorem setGain_linear_store_square_applied
  (this : LLStreamingAudio_FMODSTUDIO) (v : F32)
  (w : World) :
  exists this' w',
    setGain this v w = Ok (this', w')
    /\ getGain this' = v
    /\ match mFMODInternetStreamChannelp this with
       | Some c =>
           calls_since w w'
           = [SetVolume c (llclamp (F32.mul v v) F32.zero F32.one)]
       | None => calls_since w w' = []
       end
    /\ (F32.is_nan v = true
        \/ (F32.leb F32.zero (llclamp (F32.mul v v) F32.zero F32.one) = true
            /\ F32.leb (llclamp (F32.mul v v) F32.zero F32.one) F32.one = true))
    /\ llclamp (F32.mul F32.half F32.half) F32.zero F32.one = F32.quarter.
Proof.
  unfold setGain. simpl.
  destruct (mFMODInternetStreamChannelp this) as [c|] eqn:Hc.
  - eexists _, _. split; [reflexivity|]. simpl.
    split; [reflexivity|]. split.
    + apply calls_since_app. reflexivity.
    + split; [|vm_compute; reflexivity].
      destruct (F32.is_nan v) eqn:Hn; [left; reflexivity|right].
      apply llclamp_unit_range, square_not_nan, Hn.
  - eexists _, _. split; [reflexivity|]. simpl.
    split; [reflexivity|]. split.
    + apply calls_since_app. rewrite app_nil_r. reflexivity.
    + split; [|vm_compute; reflexivity].
      destruct (F32.is_nan v) eqn:Hn; [left; reflexivity|right].
      apply llclamp_unit_range, square_not_nan, Hn.
Qed.

(** ** Closing a stream (C6) *)

(** C6.  For a manager that holds a stream [s]: [stopStream] asks the
    stream for its open state; when that is CONNECTING it makes no other
    call, returns false and leaves the manager as it was; in every other
    state it calls [release] once and returns true exactly when the release
    succeeds, and then the manager's stream and channel are both null (when
    the release fails the manager is left as it was). *)
Theorem stopStream_defers_connecting_else_releases (E : Engine)
  (this : LLAudioStreamManagerFMODSTUDIO) (s : Sound) (w : World) :
  mInternetStream this = Some s ->
  exists r this' w',
    stopStream E this w = Ok ((r, this'), w')
    /\ (open_state (getOpenState_result E (clock w) s)
        = FMOD_OPENSTATE_CONNECTING ->
        r = false /\ this' = this /\ calls_since w w' = [GetOpenState s])
    /\ (open_state (getOpenState_result E (clock w) s)
        <> FMOD_OPENSTATE_CONNECTING ->
        calls_since w w' = [GetOpenState s; Release s]
        /\ r = release_result E (S (clock w)) s
        /\ (r = true ->
            mInternetStream this' = None /\ mStreamChannel this' = None)
        /\ (r = false -> this' = this)).
Proof.
  intros Hs. unfold stopStream, getOpenState. rewrite Hs.
  unfold fmod_getOpenState, fmod_release, bind, tick, ret. simpl.
  destruct (open_state (getOpenState_result E (clock w) s)) eqn:Hst; cbn;
    try (destruct (release_result E (S (clock w)) s) eqn:Hr;
         eexists _, _, _; (split; [reflexivity|]); simpl;
         (split; [discriminate|]); intros _;
         (split; [apply calls_since_app; simpl; rewrite <- app_assoc; reflexivity|]);
         (split; [reflexivity|]); split; intros; try discriminate; auto).
  eexists _, _, _. split; [reflexivity|]. split.
  - intros _. split; [reflexivity|]. split; [reflexivity|].
    apply calls_since_app. reflexivity.
  - intros H. congruence.
Qed.

Lemma stopStream_defers_connecting_else_releases_witness :
  exists r this' w',
    stopStream engine_connecting
      (mkLLAudioStreamManagerFMODSTUDIO None (Some 7%nat) true "http://radio/") world_init
    = Ok ((r, this'), w')
    /\ r = false /\ calls_since world_init w' = [GetOpenState 7%nat].
Proof.
  destruct (stopStream_defers_connecting_else_releases engine_connecting
              (mkLLAudioStreamManagerFMODSTUDIO None (Some 7%nat) true "http://radio/") 7%nat
              world_init eq_refl)
    as (r & this' & w' & Hrun & Hconn & _).
  destruct (Hconn eq_refl) as (Hr & _ & Hcalls).
  exists r, this', w'. split; [exact Hrun|]. split; [exact Hr|exact Hcalls].
Defined.
(** ** Stopping *)

Ltac unfold_engine :=
  unfold fmod_createStream, fmod_getOpenState, fmod_release, fmod_playSound,
    fmod_setPaused, fmod_getPaused, fmod_setPriority, fmod_setVolume,
    fmod_setFrequency, fmod_getMute, fmod_getCurrentSound, fmod_getNumTags,
    fmod_getTag, dsp_setActive, set_paused, set_dsp_active, get_wave,
    put_wave, tick, bind, ret in *.

Lemma stopStream_total (E : Engine) (this : LLAudioStreamManagerFMODSTUDIO)
  (w : World) :
  exists r this' w' d,
    stopStream E this w = Ok ((r, this'), w')
    /\ calls w' = calls w ++ d
    /\ count_calls is_create d = 0%nat
    /\ (r = false -> this' = this /\ mInternetStream this <> None).
Proof.
  unfold stopStream, getOpenState.
  destruct (mInternetStream this) as [s|] eqn:Hs.
  - unfold_engine. cbn.
    destruct (open_state (getOpenState_result E (clock w) s)); cbn;
      try (destruct (release_result E (S (clock w)) s); cbn);
      eexists _, _, _, _; (split; [reflexivity|]); cbn;
      (split; [try rewrite <- app_assoc; reflexivity|]);
      (split; [reflexivity|]); intros; try discriminate; split; congruence.
  - exists true, this, w, []. split; [reflexivity|].
    rewrite app_nil_r. repeat split; try discriminate.
Qed.

Lemma stop_spec (E : Engine) (this : LLStreamingAudio_FMODSTUDIO) (w : World) :
  exists this' w' d,
    stop E this w = Ok (this', w')
    /\ calls w' = calls w ++ d
    /\ count_calls is_create d = 0%nat
    /\ mCurrentInternetStreamp this' = None
    /\ mFMODInternetStreamChannelp this' = None
    /\ mPendingURL this' = EmptyString
    /\ mMetaData this' = None
    /\ mURL this' = mURL this
    /\ mGain this' = mGain this
    /\ mStreamDSP this' = mStreamDSP this
    /\ (mDeadStreams this' = mDeadStreams this
        \/ exists h, mDeadStreams this' = mDeadStreams this ++ [h])
    /\ (mCurrentInternetStreamp this = None ->
        mDeadStreams this' = mDeadStreams this).
Proof.
  unfold stop.
  destruct this as [cur ch dsp dead url pend gain md]. cbn.
  set (m1 := match dsp with Some _ => _ | None => _ end).
  assert (H1 : exists w1 d1, m1 w = Ok (tt, w1) /\ calls w1 = calls w ++ d1
                             /\ count_calls is_create d1 = 0%nat).
  { subst m1. destruct dsp; unfold_engine; cbn.
    - eexists _, _. split; [reflexivity|]. cbn.
      rewrite <- !app_assoc. split; reflexivity.
    - exists w, []. rewrite app_nil_r. repeat split. }
  destruct H1 as (w1 & d1 & Hm1 & Hc1 & Hn1).
  rewrite (bind_step _ _ _ _ _ Hm1). clear Hm1.
  set (m2 := match ch with Some _ => _ | None => _ end).
  assert (H2 : exists w2 d2,
             m2 w1 = Ok (mkLLStreamingAudio_FMODSTUDIO cur None dsp dead url EmptyString gain None, w2)
             /\ calls w2 = calls w1 ++ d2
             /\ count_calls is_create d2 = 0%nat).
  { subst m2. destruct ch; unfold_engine; cbn.
    - eexists _, _. split; [reflexivity|]. cbn.
      rewrite <- !app_assoc. split; reflexivity.
    - exists w1, []. rewrite app_nil_r. repeat split. }
  destruct H2 as (w2 & d2 & Hm2 & Hc2 & Hn2).
  rewrite (bind_step _ _ _ _ _ Hm2). clear Hm2. cbn.
  destruct cur as [h|].
  - destruct (stopStream_total E h w2) as (r & h' & w3 & d3 & Hm3 & Hc3 & Hn3 & _).
    rewrite (bind_step _ _ _ _ _ Hm3).
    destruct r; unfold ret; cbn;
      eexists _, _, (d1 ++ d2 ++ d3); (split; [reflexivity|]); cbn;
      rewrite Hc3, Hc2, Hc1, <- !app_assoc, !count_calls_app, Hn1, Hn2, Hn3;
      repeat split; eauto; discriminate.
  - unfold ret. eexists _, _, (d1 ++ d2). split; [reflexivity|]. cbn.
    rewrite Hc2, Hc1, <- !app_assoc, !count_calls_app, Hn1, Hn2.
    repeat split; eauto.
Qed.

Lemma is_empty_string_false (s : string) :
  s <> EmptyString -> is_empty_string s = false.
Proof. destruct s; [congruence|reflexivity]. Qed.

Lemma is_empty_string_true (s : string) :
  is_empty_string s = true -> s = EmptyString.
Proof. destruct s; [reflexivity|discriminate]. Qed.

(** ** Polling a stream that never opened (C10) *)

(** C10.  [getOpenState] is undefined behaviour exactly when the manager's
    stream pointer is null.  When the engine refuses to open [url], a
    [start url] on a controller with no current stream and no dead stream
    still makes the failed manager (null stream, not ready) the current
    one, and the next [update] polls it, which is undefined behaviour. *)
Theorem update_polls_manager_whose_open_failed (E : Engine)
  (char_signed : bool) (rawstr_to_utf8 : list byte -> list byte)
  (this : LLStreamingAudio_FMODSTUDIO) (url : string) (w : World) :
  url <> EmptyString ->
  mCurrentInternetStreamp this = None ->
  mDeadStreams this = [] ->
  (forall t, createStream_result E t url = None) ->
  (forall h w0, getOpenState E h w0 = Undef <-> mInternetStream h = None)
  /\ exists this' w' h,
      start E this url w = Ok (this', w')
      /\ mCurrentInternetStreamp this' = Some h
      /\ mInternetStream h = None
      /\ mReady h = false
      /\ update E char_signed rawstr_to_utf8 this' w' = Undef.
Proof.
  intros Hurl Hcur Hdead Hfail. split.
  - intros h w0. unfold getOpenState.
    destruct (mInternetStream h) as [s|]; split; intros H;
      try reflexivity; try discriminate.
  - unfold start.
    destruct (stop_spec E this w)
      as (this1 & w1 & d & Hstop & _ & _ & Hc1 & Hch1 & Hp1 & _ & _ & _ & _ & _ & Hd1).
    rewrite (bind_step _ _ _ _ _ Hstop).
    rewrite (is_empty_string_false url Hurl). cbn.
    rewrite (Hd1 Hcur), Hdead.
    unfold new_LLAudioStreamManagerFMODSTUDIO, fmod_createStream, tick, bind, ret. cbn.
    rewrite Hfail.
    eexists _, _, _. split; [reflexivity|]. cbn.
    split; [reflexivity|]. split; [reflexivity|]. split; [reflexivity|].
    unfold update, update_promote, update_poll, releaseDeadStreams, bind, ret.
    cbn. rewrite (Hd1 Hcur), Hdead. cbn. rewrite Hp1. cbn. reflexivity.
Qed.

Lemma update_polls_manager_whose_open_failed_witness :
  exists this' w' h,
    start engine_refusing controller_idle "http://radio/" world_init
    = Ok (this', w')
    /\ mCurrentInternetStreamp this' = Some h
    /\ mInternetStream h = None
    /\ mReady h = false
    /\ update engine_refusing true (fun s => s) this' w' = Undef.
Proof.
  apply (update_polls_manager_whose_open_failed engine_refusing true
           (fun s => s) controller_idle "http://radio/" world_init).
  - discriminate.
  - reflexivity.
  - reflexivity.
  - reflexivity.
Defined.

(** ** What each step leaves alone *)

Lemma same_slots_refl (a : LLStreamingAudio_FMODSTUDIO) : same_slots a a.
Proof. repeat split. Qed.

Lemma setGain_frame (this : LLStreamingAudio_FMODSTUDIO) (v : F32) (w : World)
  (this' : LLStreamingAudio_FMODSTUDIO) (w' : World) :
  setGain this v w = Ok (this', w') ->
  this' = set_gain v this
  /\ paused w' = paused w
  /\ exists d, calls w' = calls w ++ d
               /\ count_calls is_create d = 0%nat
               /\ count_calls is_set_paused d = 0%nat.
Proof.
  unfold setGain. cbn.
  destruct (mFMODInternetStreamChannelp this); unfold_engine; cbn;
    intros H; injection H as <- <-; cbn; (split; [reflexivity|]);
    (split; [reflexivity|]).
  - eexists. split; [reflexivity|]. split; reflexivity.
  - exists []. rewrite app_nil_r. repeat split.
Qed.

Lemma startStream_frame (E : Engine) (h : LLAudioStreamManagerFMODSTUDIO)
  (w : World)
  (ch : option Channel) (h' : LLAudioStreamManagerFMODSTUDIO) (w' : World) :
  startStream E h w = Ok ((ch, h'), w') ->
  mInternetStream h' = mInternetStream h
  /\ exists d, calls w' = calls w ++ d /\ count_calls is_create d = 0%nat.
Proof.
  unfold startStream, getOpenState.
  destruct (mInternetStream h) as [s|] eqn:Hs.
  - unfold_engine. cbn.
    destruct (openstate_eqb _ _); cbn.
    + destruct (mStreamChannel h); cbn.
      * intros H; injection H as <- <- <-. rewrite Hs. split; [reflexivity|].
        eexists; split; reflexivity.
      * destruct (playSound_result E (S (clock w)) s); cbn;
          intros H; injection H as <- <- <-; cbn; (split; [reflexivity|]);
          rewrite <- app_assoc; eexists; split; reflexivity.
    + intros H; injection H as <- <- <-. rewrite Hs. split; [reflexivity|].
      eexists; split; reflexivity.
  - unfold ret. intros H; injection H as <- <- <-. rewrite Hs.
    split; [reflexivity|]. exists []. rewrite app_nil_r. split; reflexivity.
Qed.

Lemma update_ready_frame (E : Engine) (this : LLStreamingAudio_FMODSTUDIO)
  (h : LLAudioStreamManagerFMODSTUDIO)
  (w : World) (this' : LLStreamingAudio_FMODSTUDIO) (w' : World) :
  update_ready E this h w = Ok (this', w') ->
  same_slots this' this
  /\ (mCurrentInternetStreamp this = Some h ->
      exists h', mCurrentInternetStreamp this' = Some h'
                 /\ mInternetStream h' = mInternetStream h)
  /\ (forall c, mFMODInternetStreamChannelp this = Some c ->
      this' = this /\ w' = w)
  /\ exists d, calls w' = calls w ++ d /\ count_calls is_create d = 0%nat.
Proof.
  unfold update_ready.
  destruct (mFMODInternetStreamChannelp this) as [c|] eqn:Hc.
  - unfold ret. intros H; injection H as <- <-.
    split; [apply same_slots_refl|]. split; [eauto|].
    split; [auto|]. exists []. rewrite app_nil_r. split; reflexivity.
  - intros H. inv_bind H. destruct a as [ch h'].
    apply startStream_frame in Hm as (Hs & d1 & Hd1 & Hn1).
    destruct ch as [c|].
    + inv_bind H. apply setGain_frame in Hm as (-> & _ & d2 & Hd2 & Hn2 & _).
      inv_bind H. inv_bind H. inv_ret H.
      assert (Hd3 : exists d3, calls w2 = calls w1 ++ d3
                               /\ count_calls is_create d3 = 0%nat).
      { cbn in Hm. destruct (mStreamDSP this); unfold_engine;
          injection Hm as _ <-; cbn.
        - eexists; split; reflexivity.
        - exists []. rewrite app_nil_r. split; reflexivity. }
      destruct Hd3 as (d3 & Hd3 & Hn3).
      unfold_engine. injection Hm0 as _ <-. cbn.
      split; [repeat split|]. split; [intros _; eexists; split; [reflexivity|exact Hs]|].
      split; [discriminate|].
      exists (d1 ++ d2 ++ d3 ++ [SetPaused c false]).
      rewrite Hd3, Hd2, Hd1, <- !app_assoc, !count_calls_app, Hn1, Hn2, Hn3.
      split; reflexivity.
    + inv_ret H. split; [repeat split|].
      split; [intros _; eexists; split; [reflexivity|exact Hs]|].
      split; [discriminate|]. exists d1. split; assumption.
Qed.

Lemma update_channel_frame (E : Engine) (char_signed : bool)
  (rawstr_to_utf8 : list byte -> list byte) (this : LLStreamingAudio_FMODSTUDIO)
  (oi : OpenInfo) (w : World) (this' : LLStreamingAudio_FMODSTUDIO)
  (w' : World) :
  update_channel E char_signed rawstr_to_utf8 this oi w = Ok (this', w') ->
  same_slots this' this
  /\ mCurrentInternetStreamp this' = mCurrentInternetStreamp this
  /\ mFMODInternetStreamChannelp this' = mFMODInternetStreamChannelp this.
Proof.
  unfold update_channel.
  destruct (mFMODInternetStreamChannelp this) as [c|] eqn:Hc.
  - intros H. inv_bind H. destruct a as [s|].
    + inv_bind H. inv_bind H. inv_bind H. inv_ret H. cbn.
      repeat split. exact Hc.
    + inv_ret H. cbn. repeat split. exact Hc.
  - intros H. inv_ret H. repeat split. auto.
Qed.

Lemma release_dead_calls (E : Engine)
  (l : list LLAudioStreamManagerFMODSTUDIO) :
  forall (w : World) (l' : list LLAudioStreamManagerFMODSTUDIO) (w' : World),
    release_dead E l w = Ok (l', w') ->
    exists d, calls w' = calls w ++ d /\ count_calls is_create d = 0%nat.
Proof.
  induction l as [|h rest IH]; intros w l' w' H; cbn in H.
  - inv_ret H. exists []. rewrite app_nil_r. split; reflexivity.
  - inv_bind H. destruct a as [ok h'].
    destruct (stopStream_total E h w) as (r & h2 & w2 & d1 & Hr & Hd1 & Hn1 & _).
    rewrite Hr in Hm. injection Hm as -> -> ->.
    inv_bind H. apply IH in Hm as (d2 & Hd2 & Hn2). inv_ret H.
    exists (d1 ++ d2). rewrite Hd2, Hd1, <- app_assoc, count_calls_app, Hn1, Hn2.
    split; reflexivity.
Qed.

Lemma release_dead_nil (E : Engine) (w : World) :
  release_dead E [] w = Ok ([], w).
Proof. reflexivity. Qed.

Lemma appends_quiet_refl (w : World) : appends_quiet w w.
Proof. split; [reflexivity|]. exists []. rewrite app_nil_r. split; reflexivity. Qed.

Lemma appends_quiet_trans (w1 w2 w3 : World) :
  appends_quiet w1 w2 -> appends_quiet w2 w3 -> appends_quiet w1 w3.
Proof.
  intros (Hp1 & d1 & Hd1 & Hq1) (Hp2 & d2 & Hd2 & Hq2). split; [congruence|].
  exists (d1 ++ d2). rewrite Hd2, Hd1, <- app_assoc, forallb_app, Hq1, Hq2.
  split; reflexivity.
Qed.

Lemma appends_quiet_tick (c : Call) (w : World) (t : nat) (w' : World) :
  quiet c = true -> tick c w = Ok (t, w') -> appends_quiet w w'.
Proof.
  intros Hq H. unfold tick in H. injection H as _ <-. split; [reflexivity|].
  exists [c]. cbn. rewrite Hq. split; reflexivity.
Qed.

Lemma lift_res_Ok {A} (r : Res A) (w : World) (a : A) (w' : World) :
  lift_res r w = Ok (a, w') -> r = Ok a /\ w' = w.
Proof. unfold lift_res. destruct r; intros H; inversion H; auto. Qed.

Lemma translate_name_quiet (c : Channel) (tag : FMOD_TAG) (w : World)
  (r : option string) (w' : World) :
  translate_name c tag w = Ok (r, w') -> appends_quiet w w'.
Proof.
  unfold translate_name.
  destruct (tag_type tag); try (intros H; inv_ret H; apply appends_quiet_refl).
  intros H. inv_bind H. inv_ret H.
  destruct (compareInsensitive _ _ =? 0).
  - inv_bind Hm. apply lift_res_Ok in Hm0 as [_ ->].
    unfold fmod_setFrequency in Hm. inv_bind Hm. inv_ret Hm.
    eapply appends_quiet_tick; [|exact Hm0]. reflexivity.
  - inv_ret Hm. apply appends_quiet_refl.
Qed.

Lemma store_tag_quiet (char_signed : bool)
  (rawstr_to_utf8 : list byte -> list byte) (c : Channel) (tag : FMOD_TAG)
  (md : gmap string LLSD) (w : World) (md' : gmap string LLSD) (w' : World) :
  store_tag char_signed rawstr_to_utf8 c tag md w = Ok (md', w') ->
  appends_quiet w w'.
Proof.
  unfold store_tag. intros H. inv_bind H.
  apply translate_name_quiet in Hm.
  destruct a as [name|].
  - inv_bind H. apply lift_res_Ok in Hm0 as [_ ->].
    destruct a; inv_ret H; exact Hm.
  - inv_ret H. exact Hm.
Qed.

Lemma tag_loop_quiet (E : Engine) (char_signed : bool)
  (rawstr_to_utf8 : list byte -> list byte) (s : Sound) (c : Channel)
  (n : nat) :
  forall (i : Z) (md : gmap string LLSD) (w : World)
         (md' : gmap string LLSD) (w' : World),
    tag_loop E char_signed rawstr_to_utf8 s c n i md w = Ok (md', w') ->
    appends_quiet w w'.
Proof.
  induction n as [|n IH]; intros i md w md' w' H; cbn [tag_loop] in H.
  - inv_ret H. apply appends_quiet_refl.
  - inv_bind H. unfold fmod_getTag in Hm. inv_bind Hm. inv_ret Hm.
    eapply appends_quiet_tick in Hm0; [|reflexivity].
    inv_bind H. apply IH in H.
    eapply appends_quiet_trans; [exact Hm0|].
    eapply appends_quiet_trans; [|exact H].
    destruct (getTag_result E a0 s i) as [tag|].
    + eapply store_tag_quiet; exact Hm.
    + inv_ret Hm. apply appends_quiet_refl.
Qed.

Lemma forallb_quiet_no_create (d : list Call) :
  forallb quiet d = true -> count_calls is_create d = 0%nat.
Proof.
  induction d as [|c d IH]; [reflexivity|].
  intros H. cbn [forallb] in H. apply andb_true_iff in H as [Hc Hd].
  unfold count_calls in *. rewrite filter_cons.
  destruct (decide (is_create c = true)) as [Hx|Hx].
  - unfold quiet in Hc. rewrite Hx in Hc. discriminate.
  - auto.
Qed.

Lemma forallb_quiet_no_set_paused (d : list Call) :
  forallb quiet d = true -> count_calls is_set_paused d = 0%nat.
Proof.
  induction d as [|c d IH]; [reflexivity|].
  intros H. cbn [forallb] in H. apply andb_true_iff in H as [Hc Hd].
  unfold count_calls in *. rewrite filter_cons.
  destruct (decide (is_set_paused c = true)) as [Hx|Hx].
  - unfold quiet in Hc. rewrite Hx, andb_false_r in Hc. discriminate.
  - auto.
Qed.

Lemma starvation_policy_calls (c : Channel) (oi : OpenInfo) (w : World)
  (u : unit) (w' : World) :
  starvation_policy c oi w = Ok (u, w') ->
  exists d, calls w' = calls w ++ d /\ count_calls is_create d = 0%nat.
Proof.
  unfold starvation_policy.
  destruct (starving oi).
  - unfold_engine. cbn. destruct (paused w c); cbn; intros H;
      injection H as _ <-; cbn; try rewrite <- app_assoc;
      eexists; split; reflexivity.
  - destruct (percentbuffered oi >? 80); unfold_engine; intros H;
      injection H as _ <-; cbn.
    + eexists; split; reflexivity.
    + exists []. rewrite app_nil_r. split; reflexivity.
Qed.

Lemma update_channel_calls (E : Engine) (char_signed : bool)
  (rawstr_to_utf8 : list byte -> list byte) (this : LLStreamingAudio_FMODSTUDIO)
  (oi : OpenInfo) (w : World) (this' : LLStreamingAudio_FMODSTUDIO)
  (w' : World) :
  update_channel E char_signed rawstr_to_utf8 this oi w = Ok (this', w') ->
  exists d, calls w' = calls w ++ d /\ count_calls is_create d = 0%nat.
Proof.
  unfold update_channel.
  destruct (mFMODInternetStreamChannelp this) as [c|].
  - intros H. inv_bind H.
    unfold fmod_getCurrentSound in Hm. inv_bind Hm. inv_ret Hm.
    unfold tick in Hm0. injection Hm0 as <- <-.
    destruct (getCurrentSound_result E (clock w) c) as [s|].
    + inv_bind H. unfold fmod_getNumTags in Hm. inv_bind Hm. inv_ret Hm.
      unfold tick in Hm0. injection Hm0 as <- <-.
      inv_bind H. inv_bind H. inv_ret H.
      apply starvation_policy_calls in Hm0 as (d3 & Hd3 & Hn3).
      match type of Hm with _ ?wa = _ => assert (Hq : appends_quiet wa w0) end.
      { destruct (getNumTags_result E (S (clock w)) s) as [[tc dc]|].
        - destruct (negb (dc =? 0)).
          + eapply tag_loop_quiet; exact Hm.
          + inv_ret Hm. apply appends_quiet_refl.
        - inv_ret Hm. apply appends_quiet_refl. }
      destruct Hq as (_ & d2 & Hd2 & Hq2).
      apply forallb_quiet_no_create in Hq2.
      cbn in Hd2.
      exists ([GetCurrentSound c; GetNumTags s] ++ d2 ++ d3).
      rewrite Hd3, Hd2, <- !app_assoc. split; [reflexivity|].
      rewrite !count_calls_app, Hq2, Hn3. reflexivity.
    + inv_ret H. cbn. eexists; split; reflexivity.
  - intros H. inv_ret H. exists []. rewrite app_nil_r. split; reflexivity.
Qed.

(** ** The session invariant *)

Lemma update_promote_spec (E : Engine) (this : LLStreamingAudio_FMODSTUDIO)
  (w : World)
  (this' : LLStreamingAudio_FMODSTUDIO) (w' : World) :
  update_promote E this w = Ok (this', w') ->
  mDeadStreams this' = mDeadStreams this
  /\ mPendingURL this' = EmptyString
  /\ mGain this' = mGain this
  /\ if is_empty_string (mPendingURL this)
     then this' = this /\ w' = w
     else mCurrentInternetStreamp this = None
          /\ mURL this' = mPendingURL this
          /\ calls w' = calls w ++ [CreateStream (mPendingURL this)].
Proof.
  unfold update_promote.
  destruct (is_empty_string (mPendingURL this)) eqn:Hp; cbn [negb].
  - intros H. inv_ret H. apply is_empty_string_true in Hp. auto.
  - destruct (mCurrentInternetStreamp this) eqn:Hc; [discriminate|].
    intros H. inv_bind H. inv_ret H. cbn.
    unfold new_LLAudioStreamManagerFMODSTUDIO, fmod_createStream in Hm. inv_bind Hm. inv_bind Hm0.
    inv_ret Hm0. unfold tick in Hm1. injection Hm1 as <- <-.
    destruct (createStream_result E (clock w) (mPendingURL this));
      inv_ret Hm; cbn; repeat split.
Qed.

Lemma update_poll_spec (E : Engine) (char_signed : bool)
  (rawstr_to_utf8 : list byte -> list byte)
  (this : LLStreamingAudio_FMODSTUDIO) (w : World)
  (this' : LLStreamingAudio_FMODSTUDIO) (w' : World) :
  update_poll E char_signed rawstr_to_utf8 this w = Ok (this', w') ->
  mDeadStreams this = [] -> mPendingURL this = EmptyString ->
  session_inv this'
  /\ mURL this' = mURL this
  /\ mGain this' = mGain this
  /\ exists d, calls w' = calls w ++ d /\ count_calls is_create d = 0%nat.
Proof.
  unfold update_poll. intros H Hdead Hpend.
  destruct (mCurrentInternetStreamp this) as [h|] eqn:Hc.
  - inv_bind H.
    assert (Hopen : exists d0, calls w0 = calls w ++ d0
                               /\ count_calls is_create d0 = 0%nat).
    { unfold getOpenState in Hm. destruct (mInternetStream h); [|discriminate].
      unfold fmod_getOpenState in Hm. inv_bind Hm. inv_ret Hm.
      unfold tick in Hm0. injection Hm0 as _ <-. cbn.
      eexists; split; reflexivity. }
    destruct Hopen as (d0 & Hd0 & Hn0).
    assert (Hchan : forall this1 w1 d1,
               same_slots this1 this ->
               calls w1 = calls w0 ++ d1 -> count_calls is_create d1 = 0%nat ->
               update_channel E char_signed rawstr_to_utf8 this1 a w1
               = Ok (this', w') ->
               session_inv this'
               /\ mURL this' = mURL this
               /\ mGain this' = mGain this
               /\ exists d, calls w' = calls w ++ d
                            /\ count_calls is_create d = 0%nat).
    { intros this1 w1 d1 (S1 & S2 & S3 & S4 & S5) Hd1 Hn1 Hch.
      pose proof (update_channel_calls _ _ _ _ _ _ _ _ Hch) as (d2 & Hd2 & Hn2).
      apply update_channel_frame in Hch as ((T1 & T2 & T3 & T4 & T5) & _ & _).
      split; [intros _; split; congruence|].
      split; [congruence|]. split; [congruence|].
      exists (d0 ++ d1 ++ d2).
      rewrite Hd2, Hd1, Hd0, <- !app_assoc, !count_calls_app, Hn0, Hn1, Hn2.
      split; reflexivity. }
    destruct (open_state a).
    + inv_bind H.
      apply update_ready_frame in Hm0 as (Hs & _ & _ & d1 & Hd1 & Hn1).
      eapply Hchan; eauto.
    + eapply (Hchan this w0 []); eauto using same_slots_refl.
      rewrite app_nil_r; reflexivity.
    + destruct (stop_spec E this w0)
        as (t & w2 & d & Hstop & Hd & Hn & Hcur & _ & _ & _ & Hurl & Hg & _).
      rewrite Hstop in H. injection H as <- <-.
      split; [intros Hx; congruence|]. split; [exact Hurl|]. split; [exact Hg|].
      exists (d0 ++ d). rewrite Hd, Hd0, <- app_assoc, count_calls_app, Hn0, Hn.
      split; reflexivity.
    + eapply (Hchan this w0 []); eauto using same_slots_refl.
      rewrite app_nil_r; reflexivity.
    + eapply (Hchan this w0 []); eauto using same_slots_refl.
      rewrite app_nil_r; reflexivity.
    + eapply (Hchan this w0 []); eauto using same_slots_refl.
      rewrite app_nil_r; reflexivity.
    + eapply (Hchan this w0 []); eauto using same_slots_refl.
      rewrite app_nil_r; reflexivity.
    + eapply (Hchan this w0 []); eauto using same_slots_refl.
      rewrite app_nil_r; reflexivity.
  - inv_ret H. split; [intros Hx; congruence|].
    split; [reflexivity|]. split; [reflexivity|].
    exists []. rewrite app_nil_r. split; reflexivity.
Qed.

(** What one [update] does, by whether the dead list drains. *)
Lemma update_spec (E : Engine) (char_signed : bool)
  (rawstr_to_utf8 : list byte -> list byte)
  (this : LLStreamingAudio_FMODSTUDIO) (w : World)
  (this' : LLStreamingAudio_FMODSTUDIO) (w' : World) :
  update E char_signed rawstr_to_utf8 this w = Ok (this', w') ->
  exists l w1 d1,
    release_dead E (mDeadStreams this) w = Ok (l, w1)
    /\ calls w1 = calls w ++ d1
    /\ count_calls is_create d1 = 0%nat
    /\ session_inv this'
    /\ mGain this' = mGain this
    /\ (l <> [] -> this' = set_dead l this /\ w' = w1)
    /\ (l = [] ->
        if is_empty_string (mPendingURL this)
        then mURL this' = mURL this
             /\ exists d2, calls w' = calls w1 ++ d2
                           /\ count_calls is_create d2 = 0%nat
        else mURL this' = mPendingURL this
             /\ exists d2, calls w' = calls w1 ++ CreateStream (mPendingURL this) :: d2
                           /\ count_calls is_create d2 = 0%nat).
Proof.
  unfold update. intros H. inv_bind H. destruct a as [drained this1].
  unfold releaseDeadStreams in Hm. inv_bind Hm. inv_ret Hm.
  pose proof (release_dead_calls _ _ _ _ _ Hm0) as (d1 & Hd1 & Hn1).
  exists a, w0, d1. split; [exact Hm0|]. split; [exact Hd1|]. split; [exact Hn1|].
  destruct a as [|h0 rest]; cbn [negb] in H.
  - inv_bind H.
    apply update_promote_spec in Hm as (P1 & P2 & P3 & P4).
    apply update_poll_spec in H as (I1 & I2 & I3 & d2 & Hd2 & Hn2);
      [|rewrite P1; reflexivity|exact P2].
    split; [exact I1|]. split; [rewrite I3, P3; reflexivity|].
    split; [congruence|]. intros _. cbn in P4.
    destruct (is_empty_string (mPendingURL this)).
    + destruct P4 as [-> ->]. split; [exact I2|]. exists d2. split; assumption.
    + destruct P4 as (_ & Q2 & Q3). split; [congruence|].
      exists d2. rewrite Hd2, Q3, <- app_assoc. split; [reflexivity|exact Hn2].
  - cbn in H. destruct (mCurrentInternetStreamp this) eqn:Hc; [discriminate|].
    inv_ret H. split; [intros Hx; cbn in Hx; congruence|].
    split; [reflexivity|]. split; [auto|]. intros Hx; discriminate.
Qed.

Lemma is_empty_string_false_inv (s : string) :
  is_empty_string s = false -> s <> EmptyString.
Proof. destruct s; [discriminate|congruence]. Qed.

(** What one [start] does: it stops, then defers, opens or forgets. *)
Lemma start_spec (E : Engine) (this : LLStreamingAudio_FMODSTUDIO)
  (url : string) (w : World) :
  exists this' w' this1 w1 d1,
    stop E this w = Ok (this1, w1)
    /\ calls w1 = calls w ++ d1
    /\ count_calls is_create d1 = 0%nat
    /\ start E this url w = Ok (this', w')
    /\ session_inv this'
    /\ mGain this' = mGain this
    /\ (url = EmptyString -> mURL this' = EmptyString /\ w' = w1)
    /\ (url <> EmptyString -> mDeadStreams this1 <> [] ->
        this' = set_pending url this1 /\ w' = w1)
    /\ (url <> EmptyString -> mDeadStreams this1 = [] ->
        mURL this' = url /\ calls w' = calls w1 ++ [CreateStream url])
    /\ (url <> EmptyString -> mURL this' = url \/ mURL this' = mURL this).
Proof.
  destruct (stop_spec E this w)
    as (this1 & w1 & d1 & Hstop & Hd1 & Hn1 & Hcur & Hch & Hp & Hmd & Hurl & Hg & _).
  unfold start. rewrite (bind_step _ _ _ _ _ Hstop).
  destruct url as [|a url'].
  - cbn. unfold ret. eexists _, _, this1, w1, d1.
    do 3 (split; [assumption|]). split; [reflexivity|]. cbn.
    split; [intros Hx; cbn in Hx; congruence|]. split; [exact Hg|].
    split; [auto|]. repeat split; intros; congruence.
  - cbn [is_empty_string negb].
    destruct (mDeadStreams this1) as [|h0 rest] eqn:Hdead.
    + unfold new_LLAudioStreamManagerFMODSTUDIO, fmod_createStream, tick, bind, ret. cbn.
      destruct (createStream_result E (clock w1) (String a url'));
        (eexists _, _, this1, w1, d1;
         do 3 (split; [assumption|]); split; [reflexivity|]; cbn;
         split; [intros _; split; [exact Hdead|exact Hp]|];
         split; [exact Hg|]; split; [discriminate|];
         split; [congruence|]; split; [auto|]; auto).
    + unfold ret. eexists _, _, this1, w1, d1.
      do 3 (split; [assumption|]). split; [reflexivity|]. cbn.
      split; [intros Hx; cbn in Hx; congruence|]. split; [exact Hg|].
      split; [discriminate|]. split; [auto|]. split; [congruence|].
      intros _. right. exact Hurl.
Qed.

Lemma exec_url (E : Engine) (char_signed : bool)
  (rawstr_to_utf8 : list byte -> list byte) (op : Op)
  (this : LLStreamingAudio_FMODSTUDIO)
  (w : World) (this' : LLStreamingAudio_FMODSTUDIO) (w' : World) :
  exec E char_signed rawstr_to_utf8 op this w = Ok (this', w') ->
  getURL this <> EmptyString -> getURL this' = EmptyString ->
  op = OpStart EmptyString.
Proof.
  unfold getURL. intros H Hne He.
  assert (Hstart : forall url, url <> EmptyString ->
             start E this url w = Ok (this', w') ->
             mURL this' = url \/ mURL this' = mURL this).
  { intros url Hu Hs.
    destruct (start_spec E this url w)
      as (t & w2 & _ & _ & _ & _ & _ & _ & Hs' & _ & _ & _ & _ & _ & Hor).
    rewrite Hs in Hs'. injection Hs' as <- <-. auto. }
  destruct op as [url| | |pauseopt|vol]; cbn in H.
  - destruct (string_dec url EmptyString) as [->|Hu]; [reflexivity|].
    exfalso. destruct (Hstart url Hu H); congruence.
  - exfalso.
    destruct (stop_spec E this w)
      as (t & w2 & d & Hs & _ & _ & _ & _ & _ & _ & Hurl & _).
    rewrite Hs in H. injection H as <- <-. congruence.
  - exfalso.
    apply update_spec in H
      as (l & w1 & d1 & _ & _ & _ & _ & _ & Hne' & Hnil).
    destruct l as [|h0 rest].
    + specialize (Hnil eq_refl).
      destruct (is_empty_string (mPendingURL this)) eqn:Hp.
      * destruct Hnil as [Hu _]. congruence.
      * destruct Hnil as [Hu _]. apply is_empty_string_false_inv in Hp.
        congruence.
    + destruct Hne' as [-> _]; [discriminate|]. cbn in He. congruence.
  - exfalso. unfold pause in H.
    destruct (negb (_ =? 0)).
    + destruct (mCurrentInternetStreamp this).
      * destruct (stop_spec E this w)
          as (t & w2 & d & Hs & _ & _ & _ & _ & _ & _ & Hurl & _).
        rewrite Hs in H. injection H as <- <-. congruence.
      * inv_ret H. congruence.
    + destruct (Hstart (getURL this) Hne H); unfold getURL in *; congruence.
  - exfalso. apply setGain_frame in H as (-> & _). cbn in He. congruence.
Qed.

(** ** The remembered URL (C9) *)

(** C9.  [stop] always returns, and it leaves the remembered URL (what
    [getURL] reads), the gain and the DSP as they were while the pending
    URL, the metadata, the channel reference and the current manager are
    cleared.  No call of the session interface turns a non-empty remembered
    URL into the empty one, except [start] with the empty url. *)
Theorem stop_keeps_remembered_url (E : Engine) (char_signed : bool)
  (rawstr_to_utf8 : list byte -> list byte)
  (this : LLStreamingAudio_FMODSTUDIO) (w : World) :
  (exists this' w',
     stop E this w = Ok (this', w')
     /\ getURL this' = getURL this
     /\ mGain this' = mGain this
     /\ mStreamDSP this' = mStreamDSP this
     /\ mPendingURL this' = EmptyString
     /\ mMetaData this' = None
     /\ mFMODInternetStreamChannelp this' = None
     /\ mCurrentInternetStreamp this' = None)
  /\ (forall op this' w',
        exec E char_signed rawstr_to_utf8 op this w = Ok (this', w') ->
        getURL this <> EmptyString -> getURL this' = EmptyString ->
        op = OpStart EmptyString).
Proof.
  split.
  - destruct (stop_spec E this w)
      as (t & w2 & d & Hs & _ & _ & Hc & Hch & Hp & Hmd & Hurl & Hg & Hdsp & _).
    exists t, w2. unfold getURL. repeat split; assumption.
  - intros op this' w'. apply exec_url.
Qed.

Lemma stop_keeps_remembered_url_witness :
  (exists this' w',
     stop engine_connecting controller_playing world_init = Ok (this', w')
     /\ getURL this' = "http://radio/"%string
     /\ mCurrentInternetStreamp this' = None)
  /\ OpStart EmptyString = OpStart EmptyString.
Proof.
  destruct (stop_keeps_remembered_url engine_connecting true (fun s => s)
              controller_playing world_init)
    as ((this' & w' & Hs & Hu & _ & _ & _ & _ & _ & Hc) & Hop).
  split.
  - exists this', w'. split; [exact Hs|]. split; [exact Hu|exact Hc].
  - eapply (Hop (OpStart EmptyString)).
    + cbv. reflexivity.
    + discriminate.
    + reflexivity.
Defined.

(** ** One stream at a time (C1) *)

Lemma exec_inv (E : Engine) (char_signed : bool)
  (rawstr_to_utf8 : list byte -> list byte) (op : Op)
  (this : LLStreamingAudio_FMODSTUDIO)
  (w : World) (this' : LLStreamingAudio_FMODSTUDIO) (w' : World) :
  exec E char_signed rawstr_to_utf8 op this w = Ok (this', w') ->
  session_inv this -> session_inv this'.
Proof.
  intros H Hinv.
  assert (Hstop : forall t w2, stop E this w = Ok (t, w2) -> session_inv t).
  { intros t w2 Hs.
    destruct (stop_spec E this w) as (t' & w2' & d & Hs' & _ & _ & Hc & _).
    rewrite Hs in Hs'. injection Hs' as <- <-. intros Hx. congruence. }
  assert (Hstart : forall url t w2,
             start E this url w = Ok (t, w2) -> session_inv t).
  { intros url t w2 Hs.
    destruct (start_spec E this url w)
      as (t' & w2' & _ & _ & _ & _ & _ & _ & Hs' & Hi & _).
    rewrite Hs in Hs'. injection Hs' as <- <-. exact Hi. }
  destruct op as [url| | |pauseopt|vol]; cbn in H; eauto.
  - apply update_spec in H as (l & w1 & d1 & _ & _ & _ & Hi & _). exact Hi.
  - unfold pause in H. destruct (negb (_ =? 0)); eauto.
    destruct (mCurrentInternetStreamp this); eauto.
    inv_ret H. exact Hinv.
  - apply setGain_frame in H as (-> & _). exact Hinv.
Qed.

Lemma exec_all_inv (E : Engine) (char_signed : bool)
  (rawstr_to_utf8 : list byte -> list byte) (ops : list Op) :
  forall (this : LLStreamingAudio_FMODSTUDIO) (w : World) (this' : LLStreamingAudio_FMODSTUDIO) (w' : World),
    exec_all E char_signed rawstr_to_utf8 ops this w = Ok (this', w') ->
    session_inv this -> session_inv this'.
Proof.
  induction ops as [|op rest IH]; intros this w this' w' H Hinv; cbn in H.
  - inv_ret H. exact Hinv.
  - inv_bind H. eapply IH; [exact H|]. eapply exec_inv; eauto.
Qed.

Lemma new_LLStreamingAudio_FMODSTUDIO_inv (E : Engine) (w : World)
  (this : LLStreamingAudio_FMODSTUDIO)
  (w' : World) :
  new_LLStreamingAudio_FMODSTUDIO E w = Ok (this, w') -> session_inv this.
Proof.
  unfold new_LLStreamingAudio_FMODSTUDIO, dsp_setActive, set_dsp_active, tick, bind, ret. cbn.
  destruct (createChannelGroup_result E _); [|discriminate].
  destruct (createDSP_result E _); [|discriminate].
  intros H. injection H as <- <-. intros Hx. cbn in Hx. congruence.
Qed.

Lemma count_create_cons (u : string) (d : list Call) :
  count_calls is_create (CreateStream u :: d) = S (count_calls is_create d).
Proof. reflexivity. Qed.

(** C1.  In every state a session of [start], [stop], [update], [pause]
    and [setGain] calls reaches from the constructor:
    - when there is a current manager, the dead list is empty and no
      request is pending, so the current manager is the only one alive;
    - [start url] with a non-empty [url] while the dead list is non-empty
      returns with [url] in the pending slot, no current manager, and no
      [createStream] call made;
    - an [update] makes at most one [createStream] call, and when it makes
      one, the dead list has drained completely in that same call and the
      stream opened is the pending one;
    - the two assertions of [update] hold: there is no current manager
      when a dead stream remains or a request is pending. *)
Theorem one_current_stream_and_deferred_start (E : Engine)
  (char_signed : bool) (rawstr_to_utf8 : list byte -> list byte)
  (ops : list Op) (w0 : World) (this : LLStreamingAudio_FMODSTUDIO)
  (w : World) :
  bind (new_LLStreamingAudio_FMODSTUDIO E) (exec_all E char_signed rawstr_to_utf8 ops) w0
  = Ok (this, w) ->
  (mCurrentInternetStreamp this <> None ->
   mDeadStreams this = [] /\ mPendingURL this = EmptyString)
  /\ (forall url, url <> EmptyString -> mDeadStreams this <> [] ->
      exists this' w',
        start E this url w = Ok (this', w')
        /\ mPendingURL this' = url
        /\ mCurrentInternetStreamp this' = None
        /\ mDeadStreams this' <> []
        /\ count_calls is_create (calls_since w w') = 0%nat)
  /\ (forall this' w',
      update E char_signed rawstr_to_utf8 this w = Ok (this', w') ->
      (count_calls is_create (calls_since w w') <= 1)%nat
      /\ (count_calls is_create (calls_since w w') <> 0%nat ->
          (exists w1, release_dead E (mDeadStreams this) w = Ok ([], w1))
          /\ mPendingURL this <> EmptyString
          /\ In (CreateStream (mPendingURL this)) (calls_since w w')))
  /\ (forall l w1,
      release_dead E (mDeadStreams this) w = Ok (l, w1) -> l <> [] ->
      mCurrentInternetStreamp this = None)
  /\ (mPendingURL this <> EmptyString -> mCurrentInternetStreamp this = None).
Proof.
  intros Hrun.
  assert (Hinv : session_inv this).
  { inv_bind Hrun. eapply exec_all_inv; [exact Hrun|].
    eapply new_LLStreamingAudio_FMODSTUDIO_inv; exact Hm. }
  clear Hrun. split; [exact Hinv|]. split; [|split; [|split]].
  - intros url Hurl Hdead.
    destruct (start_spec E this url w)
      as (this' & w' & this1 & w1 & d1 & Hstop & Hd1 & Hn1 & Hs & _ & _ & _ & Hdef & _).
    destruct (stop_spec E this w)
      as (t & w2 & d & Hs2 & _ & _ & Hc & _ & _ & _ & _ & _ & _ & Hgrow & _).
    rewrite Hstop in Hs2. injection Hs2 as <- <-.
    assert (Hdead1 : mDeadStreams this1 <> []).
    { destruct Hgrow as [->|[h ->]]; [exact Hdead|].
      destruct (mDeadStreams this); discriminate. }
    destruct (Hdef Hurl Hdead1) as [-> ->].
    exists (set_pending url this1), w1. split; [exact Hs|]. cbn.
    split; [reflexivity|]. split; [exact Hc|]. split; [exact Hdead1|].
    rewrite (calls_since_app _ _ _ Hd1). exact Hn1.
  - intros this' w' Hup.
    apply update_spec in Hup
      as (l & w1 & d1 & Hrel & Hd1 & Hn1 & _ & _ & Hne & Hnil).
    destruct l as [|h0 rest].
    + specialize (Hnil eq_refl).
      destruct (is_empty_string (mPendingURL this)) eqn:Hp.
      * destruct Hnil as (_ & d2 & Hd2 & Hn2).
        rewrite Hd1, <- app_assoc in Hd2.
        rewrite (calls_since_app _ _ _ Hd2), count_calls_app, Hn1, Hn2.
        split; [lia|]. intros Hx. exfalso. apply Hx. reflexivity.
      * destruct Hnil as (_ & d2 & Hd2 & Hn2).
        rewrite Hd1, <- app_assoc in Hd2.
        rewrite (calls_since_app _ _ _ Hd2), count_calls_app, Hn1,
          count_create_cons, Hn2.
        split; [cbn; lia|]. intros _. split; [eauto|].
        split; [apply is_empty_string_false_inv, Hp|].
        apply in_or_app. right. left. reflexivity.
    + destruct Hne as [-> ->]; [discriminate|].
      rewrite (calls_since_app _ _ _ Hd1), Hn1. split; [lia|].
      intros Hx. exfalso. apply Hx. reflexivity.
  - intros l w1 Hrel Hl.
    destruct (mCurrentInternetStreamp this) eqn:Hc; [|reflexivity].
    exfalso. destruct Hinv as [Hd _]; [congruence|].
    rewrite Hd in Hrel. cbn in Hrel. inv_ret Hrel. apply Hl. reflexivity.
  - intros Hp.
    destruct (mCurrentInternetStreamp this) eqn:Hc; [|reflexivity].
    exfalso. destruct Hinv as [_ Hq]; [congruence|]. congruence.
Qed.

Lemma one_current_stream_and_deferred_start_witness :
  exists this w,
    bind (new_LLStreamingAudio_FMODSTUDIO engine_connecting)
      (exec_all engine_connecting true (fun s => s) session_two_starts)
      world_init = Ok (this, w)
    /\ mPendingURL this = "http://other/"%string
    /\ mDeadStreams this <> []
    /\ (mCurrentInternetStreamp this <> None ->
        mDeadStreams this = [] /\ mPendingURL this = EmptyString).
Proof.
  eexists _, _. split; [cbv; reflexivity|].
  split; [reflexivity|]. split; [discriminate|].
  eapply (one_current_stream_and_deferred_start engine_connecting true
            (fun s => s) session_two_starts world_init).
  cbv. reflexivity.
Defined.

(** ** The UTF-16 decoder (C4) *)

Lemma char_value_signed_range (b : byte) : -128 <= char_value true b <= 127.
Proof.
  unfold char_value, byte_val. cbn [andb].
  pose proof (Byte.to_N_bounded b).
  destruct (128 <=? Z.of_N (to_N b)) eqn:H128; lia.
Qed.

(** Where plain [char] is signed, the test of lines 230-231 never
    succeeds. *)
Lemma is_bom16_signed (c0 c1 : byte) : is_bom16 true c0 c1 = false.
Proof.
  unfold is_bom16.
  pose proof (char_value_signed_range c0).
  replace (char_value true c0 =? 254) with false
    by (symmetry; apply Z.eqb_neq; lia).
  replace (char_value true c0 =? 255) with false
    by (symmetry; apply Z.eqb_neq; lia).
  reflexivity.
Qed.

(** Where plain [char] is unsigned, a big-endian marker before a text that
    starts with a zero byte resolves to little-endian. *)
Lemma resolve_bom_unsigned_big_endian (rest : list byte) :
  resolve_bom false (Byte.xfe :: Byte.xff :: Byte.x00 :: rest)
    (Z.of_nat (3 + length rest)) UTF16
  = Ok (Byte.x00 :: rest, U32 (Z.of_nat (3 + length rest) - 2), UTF16LE).
Proof.
  unfold resolve_bom. cbn [utf_endian_eqb].
  replace (Z.of_nat (3 + length rest) >? 2) with true
    by (symmetry; apply Z.gtb_lt; lia).
  reflexivity.
Qed.

(** C4.  The decoder at the three inputs of the claim, auto-detecting the
    byte order, for both signednesses of plain [char].  The input
    [FE FF 00 41] never decodes to "A": where [char] is signed no marker is
    ever recognised, so it stays in the text as U+FEFF; where it is
    unsigned the marker is stripped but the byte order is read off the byte
    after it, so the text is taken for little-endian and becomes U+4100.
    The input [FF FE 41 00] decodes to "A" only where [char] is unsigned.
    The input [00 41] decodes to "A". *)
Theorem utf16_big_endian_marker_misdecoded :
  utf16input_units true [Byte.xfe; Byte.xff; Byte.x00; Byte.x41] 4 UTF16
  = Ok [65279; 65]
  /\ utf16input_to_utf8 true [Byte.xfe; Byte.xff; Byte.x00; Byte.x41] 4 UTF16
     = Ok [Byte.xef; Byte.xbb; Byte.xbf; Byte.x41]
  /\ utf16input_units false [Byte.xfe; Byte.xff; Byte.x00; Byte.x41] 4 UTF16
     = Ok [16640]
  /\ utf16input_to_utf8 false [Byte.xfe; Byte.xff; Byte.x00; Byte.x41] 4 UTF16
     = Ok [Byte.xe4; Byte.x84; Byte.x80]
  /\ utf16input_to_utf8 true [Byte.xff; Byte.xfe; Byte.x41; Byte.x00] 4 UTF16
     = Ok [Byte.xef; Byte.xbf; Byte.xbe; Byte.xe4; Byte.x84; Byte.x80]
  /\ utf16input_to_utf8 false [Byte.xff; Byte.xfe; Byte.x41; Byte.x00] 4 UTF16
     = Ok [Byte.x41]
  /\ utf16input_to_utf8 true [Byte.x00; Byte.x41] 2 UTF16 = Ok [Byte.x41]
  /\ utf16input_to_utf8 false [Byte.x00; Byte.x41] 2 UTF16 = Ok [Byte.x41]
  /\ (forall c0 c1, is_bom16 true c0 c1 = false)
  /\ (forall rest,
        resolve_bom false (Byte.xfe :: Byte.xff :: Byte.x00 :: rest)
          (Z.of_nat (3 + length rest)) UTF16
        = Ok (Byte.x00 :: rest, U32 (Z.of_nat (3 + length rest) - 2),
              UTF16LE)).
Proof.
  repeat (split; [vm_compute; reflexivity|]).
  split; [apply is_bom16_signed|apply resolve_bom_unsigned_big_endian].
Qed.

(** ** Text payloads (C7) *)








Lemma units_of_bytes_total (n : nat) :
  forall input : list byte,
    (2 * n <= length input)%nat -> exists us, units_of_bytes input n = Ok us.
Proof.
  induction n as [|n IH]; intros input H; cbn [units_of_bytes].
  - eexists; reflexivity.
  - destruct input as [|lo [|hi rest]]; cbn [length] in H; try lia.
    destruct (IH rest) as [us Hus]; [lia|]. rewrite Hus. cbn.
    eexists; reflexivity.
Qed.

Lemma load_Ok {A} (l : list A) (i : nat) :
  (i < length l)%nat -> exists x, load l i = Ok x.
Proof.
  intros H. unfold load. destruct (lookup_lt_is_Some_2 l i H) as [x ->]. eauto.
Qed.

Lemma resolve_bom_total (char_signed : bool) (input : list byte)
  (type : utf_endian_type_t) :
  Z.of_nat (length input) < 2 ^ 32 ->
  exists input' type',
    resolve_bom char_signed input (Z.of_nat (length input)) type
    = Ok (input', Z.of_nat (length input'), type').
Proof.
  intros Hlen. unfold resolve_bom.
  destruct (utf_endian_eqb type UTF16); [|eexists _, _; reflexivity].
  destruct (Z.of_nat (length input) >? 2) eqn:H2; [|eexists _, _; reflexivity].
  apply Z.gtb_lt in H2.
  destruct input as [|c0 [|c1 [|d0 rest]]]; cbn [length] in H2; try lia.
  cbn [load lookup list_lookup rbind].
  destruct (is_bom16 char_signed c0 c1); [|eexists _, _; reflexivity].
  cbn [skipn rbind load lookup list_lookup].
  replace (U32 (Z.of_nat (length (c0 :: c1 :: d0 :: rest)) - 2))
    with (Z.of_nat (length (d0 :: rest))).
  - eexists _, _; reflexivity.
  - unfold U32. rewrite Z.mod_small; cbn [length] in *; lia.
Qed.

(** The decoder returns when [len] is the length of the array. *)
Lemma utf16input_to_utf8_total (char_signed : bool) (input : list byte)
  (type : utf_endian_type_t) :
  Z.of_nat (length input) < 2 ^ 32 ->
  exists out,
    utf16input_to_utf8 char_signed input (Z.of_nat (length input)) type = Ok out.
Proof.
  intros Hlen. unfold utf16input_to_utf8, utf16input_units.
  destruct (resolve_bom_total char_signed input type Hlen) as (input' & type' & ->).
  cbn [rbind].
  destruct (units_of_bytes_total (Z.to_nat (Z.of_nat (length input') / 2)) input')
    as [us ->].
  { pose proof (Z.mul_div_le (Z.of_nat (length input')) 2). lia. }
  cbn [rbind].
  destruct (negb (Z.of_nat (length input') mod 2 =? 0)) eqn:Hodd.
  - destruct (load_Ok input' (Z.to_nat (Z.of_nat (length input') - 1))) as [c ->].
    { destruct input'; [discriminate|]. cbn [length]. lia. }
    cbn. eexists; reflexivity.
  - cbn. eexists; reflexivity.
Qed.






(** ** The ring buffer (C2) *)

Lemma skipn_insert_here {A} (l : list A) :
  forall (i : nat) (x : A),
    (i < length l)%nat -> skipn i (<[i:=x]> l) = x :: skipn (S i) l.
Proof.
  induction l as [|y l IH]; intros i x H; cbn [length] in H; [lia|].
  destruct i as [|i]; [reflexivity|].
  cbn. apply IH. lia.
Qed.

Lemma skipn_insert_before {A} (l : list A) :
  forall (i n : nat) (x : A),
    (i < n)%nat -> skipn n (<[i:=x]> l) = skipn n l.
Proof.
  induction l as [|y l IH]; intros i n x H; [reflexivity|].
  destruct n as [|n]; [lia|].
  destruct i as [|i]; [reflexivity|].
  cbn. apply IH. lia.
Qed.

Lemma wave_view_length (w : Wave) :
  wave_wf w -> length (wave_view w) = Z.to_nat (gWaveDataBufferSize w).
Proof.
  intros (Hl & Hs & _). unfold wave_view, WAVE_BUFFER_SIZE in *.
  rewrite length_skipn, Hl. lia.
Qed.

(** One store: below capacity the sample is put in front of the valid
    region; at capacity the region is first cut down to its
    [gWaveBufferMinSize] newest samples, moved to the end of the array. *)
Lemma wave_store_spec (x : F32) (w : Wave) :
  wave_wf w ->
  exists w',
    wave_store x w = Ok w'
    /\ wave_wf w'
    /\ gWaveBufferMinSize w' = gWaveBufferMinSize w
    /\ local_buf w' = local_buf w
    /\ (gWaveDataBufferSize w < WAVE_BUFFER_SIZE ->
        gWaveDataBufferSize w' = gWaveDataBufferSize w + 1
        /\ wave_view w' = x :: wave_view w)
    /\ (gWaveDataBufferSize w = WAVE_BUFFER_SIZE ->
        gWaveDataBufferSize w' = gWaveBufferMinSize w + 1
        /\ wave_view w' = x :: firstn (Z.to_nat (gWaveBufferMinSize w)) (wave_view w)
        /\ skipn (Z.to_nat (WAVE_BUFFER_SIZE - gWaveBufferMinSize w))
             (gWaveDataBuffer w')
           = firstn (Z.to_nat (gWaveBufferMinSize w)) (wave_view w)).
Proof.
  intros (Hl & Hs & Hm). unfold WAVE_BUFFER_SIZE in *.
  change (1024 / 2) with 512 in Hm.
  destruct w as [m buf size lb]. cbn [gWaveBufferMinSize gWaveDataBuffer
    gWaveDataBufferSize local_buf] in *.
  unfold wave_store, wave_view, WAVE_BUFFER_SIZE.
  cbn [gWaveBufferMinSize gWaveDataBuffer gWaveDataBufferSize local_buf].
  assert (HU : U32 (size + 1) = size + 1)
    by (unfold U32; apply Z.mod_small; lia).
  rewrite HU.
  destruct (size + 1 >? 1024) eqn:Hfull.
  - apply Z.gtb_lt in Hfull. assert (size = 1024) by lia. subst size.
    assert (HU2 : U32 (1 + m) = 1 + m)
      by (unfold U32; apply Z.mod_small; lia).
    assert (HU3 : U32 (1024 - (1 + m)) = 1023 - m)
      by (unfold U32; rewrite Z.mod_small; lia).
    set (buf' := if negb (m =? 0)
                 then firstn (Z.to_nat (1024 - m)) buf
                        ++ firstn (Z.to_nat m) buf
                 else buf).
    assert (Hcopy :
              (if negb (m =? 0)
               then if (m <=? 1024) && (m <=? 1024 - m)
                    then memcpy buf (Z.to_nat (1024 - m)) buf 0 (Z.to_nat m)
                    else Undef
               else Ok buf) = Ok buf').
    { subst buf'. destruct (m =? 0) eqn:Hm0; cbn [negb]; [reflexivity|].
      replace (m <=? 1024) with true by (symmetry; apply Z.leb_le; lia).
      replace (m <=? 1024 - m) with true by (symmetry; apply Z.leb_le; lia).
      cbn [andb]. unfold memcpy, slice.
      replace (Nat.leb (Z.to_nat (1024 - m) + Z.to_nat m) (length buf))
        with true by (symmetry; apply Nat.leb_le; lia).
      replace (Nat.leb (0 + Z.to_nat m) (length buf))
        with true by (symmetry; apply Nat.leb_le; lia).
      cbn [andb skipn].
      rewrite (@skipn_all2 _ (Z.to_nat (1024 - m) + Z.to_nat m)%nat buf) by lia.
      rewrite app_nil_r. reflexivity. }
    rewrite Hcopy. cbn [rbind]. rewrite HU2, HU3.
    assert (Hl' : length buf' = 1024%nat).
    { subst buf'. destruct (negb (m =? 0)); [|exact Hl].
      rewrite length_app, !length_firstn. lia. }
    assert (Htail : skipn (Z.to_nat (1024 - m)) buf' = firstn (Z.to_nat m) buf).
    { subst buf'. destruct (m =? 0) eqn:Hm0; cbn [negb].
      - apply Z.eqb_eq in Hm0. subst m. cbn. apply skipn_all2. lia.
      - rewrite skipn_app, skipn_all2 by (rewrite length_firstn; lia).
        rewrite length_firstn.
        replace (Z.to_nat (1024 - m) - Init.Nat.min (Z.to_nat (1024 - m)) (length buf))%nat
          with 0%nat by lia.
        reflexivity. }
    unfold store.
    replace (Nat.ltb (Z.to_nat (1023 - m)) (length buf')) with true
      by (symmetry; apply Nat.ltb_lt; lia).
    cbn [rbind]. eexists. split; [reflexivity|].
    unfold wave_wf, WAVE_BUFFER_SIZE.
    cbn [gWaveBufferMinSize gWaveDataBuffer gWaveDataBufferSize local_buf].
    change (1024 / 2) with 512. rewrite length_insert.
    split; [lia|]. split; [reflexivity|]. split; [reflexivity|].
    split; [lia|]. intros _. split; [lia|].
    replace (Z.to_nat (1024 - 1024)) with 0%nat by lia. cbn [skipn].
    replace (1024 - (1 + m)) with (1023 - m) by lia.
    replace (Z.to_nat (1024 - m)) with (S (Z.to_nat (1023 - m))) in * by lia.
    split.
    + rewrite skipn_insert_here by lia. rewrite Htail. reflexivity.
    + rewrite skipn_insert_before by lia. exact Htail.
  - rewrite Z.gtb_ltb in Hfull. apply Z.ltb_ge in Hfull.
    cbn [rbind].
    assert (HU3 : U32 (1024 - (size + 1)) = 1023 - size)
      by (unfold U32; rewrite Z.mod_small; lia).
    rewrite HU3. unfold store.
    replace (Nat.ltb (Z.to_nat (1023 - size)) (length buf)) with true
      by (symmetry; apply Nat.ltb_lt; lia).
    cbn [rbind]. eexists. split; [reflexivity|].
    unfold wave_wf, WAVE_BUFFER_SIZE.
    cbn [gWaveBufferMinSize gWaveDataBuffer gWaveDataBufferSize local_buf].
    change (1024 / 2) with 512. rewrite length_insert.
    split; [lia|]. split; [reflexivity|]. split; [reflexivity|].
    split; [|lia]. intros _. split; [reflexivity|].
    replace (1024 - (size + 1)) with (1023 - size) by lia.
    replace (Z.to_nat (1024 - size)) with (S (Z.to_nat (1023 - size))) by lia.
    apply skipn_insert_here. lia.
Qed.

(** A block of stores: the valid region stays a prefix of the samples
    stored, newest first. *)
Lemma wave_push_spec (n : nat) :
  forall w : Wave,
    wave_wf w -> (n <= length (local_buf w))%nat ->
    exists w',
      wave_push n w = Ok w'
      /\ wave_wf w'
      /\ gWaveBufferMinSize w' = gWaveBufferMinSize w
      /\ local_buf w' = local_buf w
      /\ wave_view w' `prefix_of` (firstn n (local_buf w) ++ wave_view w)
      /\ ((0 < n)%nat -> 1 <= gWaveDataBufferSize w').
Proof.
  induction n as [|n IH]; intros w Hwf Hn; cbn [wave_push].
  - exists w. split; [reflexivity|]. split; [exact Hwf|].
    split; [reflexivity|]. split; [reflexivity|]. split; [reflexivity|]. lia.
  - destruct (lookup_lt_is_Some_2 (local_buf w) n) as [x Hx]; [lia|].
    unfold load. rewrite Hx. cbn [rbind].
    destruct (wave_store_spec x w Hwf)
      as (w1 & Hst & Hwf1 & Hm1 & Hlb1 & Hlt & Heq).
    rewrite Hst. cbn [rbind].
    destruct (IH w1 Hwf1) as (w' & Hp & Hwf' & Hm' & Hlb' & Hpre & Hpos);
      [rewrite Hlb1; lia|].
    exists w'. split; [exact Hp|]. split; [exact Hwf'|].
    split; [congruence|]. split; [congruence|]. split.
    + etrans; [exact Hpre|]. rewrite Hlb1, (take_S_r _ _ _ Hx), <- app_assoc.
      apply prefix_app. cbn [app].
      destruct Hwf as (_ & Hs & _).
      destruct (Z.eq_dec (gWaveDataBufferSize w) WAVE_BUFFER_SIZE) as [Hfull|Hnf].
      * destruct (Heq Hfull) as (_ & -> & _). apply prefix_cons, prefix_take.
      * destruct Hlt as (_ & ->); [lia|]. reflexivity.
    + intros _. destruct n as [|n'].
      * cbn in Hp. injection Hp as <-.
        destruct Hwf as (_ & Hs & Hmin).
        destruct (Z.eq_dec (gWaveDataBufferSize w) WAVE_BUFFER_SIZE) as [Hfull|Hnf].
        -- destruct (Heq Hfull) as (-> & _). lia.
        -- destruct Hlt as (-> & _); lia.
      * apply Hpos. lia.
Qed.

Lemma mix_total_total (inbuffer : list F32) (base : nat) (n : nat) :
  forall (j0 : nat) (total : F32),
    (base + j0 + n <= length inbuffer)%nat ->
    exists r, mix_total inbuffer base n j0 total = Ok r.
Proof.
  induction n as [|n IH]; intros j0 total H; cbn [mix_total].
  - eexists; reflexivity.
  - destruct (load_Ok inbuffer (base + j0)) as [x ->]; [lia|]. cbn [rbind].
    apply IH. lia.
Qed.

Lemma mix_down_total (inbuffer : list F32) (inchannels : Z) (n : nat) :
  forall (i0 : nat) (lb : list F32),
    ((i0 + n) * Z.to_nat inchannels <= length inbuffer)%nat ->
    (i0 + n <= length lb)%nat ->
    exists lb', mix_down inbuffer inchannels n i0 lb = Ok lb'
                /\ length lb' = length lb.
Proof.
  induction n as [|n IH]; intros i0 lb Hin Hlb; cbn [mix_down].
  - eexists; split; reflexivity.
  - destruct (mix_total_total inbuffer (i0 * Z.to_nat inchannels)
                (Z.to_nat inchannels) 0 F32.zero) as [total ->]; [nia|].
    cbn [rbind]. unfold store.
    replace (Nat.ltb i0 (length lb)) with true
      by (symmetry; apply Nat.ltb_lt; lia).
    cbn [rbind].
    destruct (IH (S i0) (<[i0:=F32.div total (F32.of_int inchannels)]> lb))
      as (lb' & -> & Hl).
    + replace (S i0 + n)%nat with (i0 + S n)%nat by lia. exact Hin.
    + rewrite length_insert. lia.
    + exists lb'. split; [reflexivity|]. rewrite Hl. apply length_insert.
Qed.

Lemma resize_local_length (lb : list F32) (len : nat) :
  (len <= length (resize_local lb len))%nat.
Proof.
  unfold resize_local. destruct (Nat.ltb (length lb) len) eqn:H.
  - apply Nat.ltb_lt in H. rewrite length_app, repeat_length. lia.
  - apply Nat.ltb_ge in H. exact H.
Qed.

(** One block through the callback. *)
Lemma waveDataCallback_spec (inbuffer outbuffer : list F32)
  (len inchannels : Z) (w : Wave) :
  wave_wf w -> 0 < len -> 0 < inchannels ->
  (Z.to_nat (len * inchannels) <= length inbuffer)%nat ->
  (Z.to_nat (len * inchannels) <= length outbuffer)%nat ->
  exists out w',
    waveDataCallback inbuffer outbuffer len inchannels w = Ok (out, w')
    /\ wave_wf w'
    /\ gWaveBufferMinSize w' = gWaveBufferMinSize w
    /\ wave_view w'
       `prefix_of` (firstn (Z.to_nat len) (local_buf w') ++ wave_view w)
    /\ 1 <= gWaveDataBufferSize w' <= WAVE_BUFFER_SIZE.
Proof.
  intros Hwf Hlen Hch Hin Hout. unfold waveDataCallback.
  replace (len =? 0) with false by (symmetry; apply Z.eqb_neq; lia).
  replace (inchannels =? 0) with false by (symmetry; apply Z.eqb_neq; lia).
  replace (inchannels <? 0) with false by (symmetry; apply Z.ltb_ge; lia).
  cbn [orb]. unfold memcpy.
  replace (Nat.leb (0 + Z.to_nat (len * inchannels)) (length outbuffer))
    with true by (symmetry; apply Nat.leb_le; lia).
  replace (Nat.leb (0 + Z.to_nat (len * inchannels)) (length inbuffer))
    with true by (symmetry; apply Nat.leb_le; lia).
  cbn [andb rbind].
  pose proof (resize_local_length (local_buf w) (Z.to_nat len)) as Hrl.
  destruct (mix_down_total inbuffer inchannels (Z.to_nat len) 0
              (resize_local (local_buf w) (Z.to_nat len)))
    as (lb' & -> & Hlb'); [nia|lia|].
  cbn [rbind].
  set (w0 := {| gWaveBufferMinSize := gWaveBufferMinSize w;
                gWaveDataBuffer := gWaveDataBuffer w;
                gWaveDataBufferSize := gWaveDataBufferSize w;
                local_buf := lb' |}).
  assert (Hwf0 : wave_wf w0) by exact Hwf.
  destruct (wave_push_spec (Z.to_nat len) w0 Hwf0)
    as (w' & -> & Hwf' & Hm' & Hlbw & Hpre & Hpos); [cbn; lia|].
  cbn [rbind]. eexists _, w'. split; [reflexivity|].
  split; [exact Hwf'|]. split; [exact Hm'|]. split.
  - rewrite Hlbw. exact Hpre.
  - destruct Hwf' as (_ & Hs & _). split; [apply Hpos; lia|lia].
Qed.

(** C2, as stated, fails: after 1024 samples and one more, written with no
    watermark recorded, the buffer holds the last sample only. *)
Lemma ring_buffer_overflow_keeps_one_sample :
  exists out1 w1 out2 w2,
    waveDataCallback (ramp 1024) (repeat F32.zero 1024) 1024 1 wave_init
    = Ok (out1, w1)
    /\ waveDataCallback [F32.half] [F32.zero] 1 1 w1 = Ok (out2, w2)
    /\ gWaveDataBufferSize w1 = 1024
    /\ wave_view w1 = ramp 1024
    /\ gWaveDataBufferSize w2 = 1
    /\ wave_view w2 = [F32.half]
    /\ length (wave_view w2) <> 1024%nat.
Proof.
  remember (waveDataCallback (ramp 1024) (repeat F32.zero 1024) 1024 1 wave_init)
    as r1 eqn:H1.
  vm_compute in H1.
  match type of H1 with _ = Ok (?o, ?w) => exists o, w end.
  match goal with
  | |- context [waveDataCallback [F32.half] [F32.zero] 1 1 ?w] =>
      remember (waveDataCallback [F32.half] [F32.zero] 1 1 w) as r2 eqn:H2;
      vm_compute in H2
  end.
  match type of H2 with _ = Ok (?o, ?w) => exists o, w end.
  split; [exact H1|]. split; [exact H2|].
  split; [reflexivity|]. split; [vm_compute; reflexivity|].
  split; [reflexivity|]. split; [vm_compute; reflexivity|].
  vm_compute. discriminate.
Qed.

(** C2, amended.  From a well-formed buffer (1024 cells, fill count at most
    1024, watermark at most 512, which is what [getWaveData] can record):
    - a block written through the callback leaves the buffer well formed,
      with a fill count between 1 and 1024 and the watermark unchanged,
      and its valid region is a prefix of the samples stored, newest first
      (the mixed block, then the former valid region);
    - a store below capacity puts the sample in front of the valid region;
    - a store at capacity is an eviction pass: it keeps the watermark's
      count of newest samples, contiguous at the end of the array, and
      puts the new sample in front of them, so the fill count becomes the
      watermark plus one. *)
Theorem ring_buffer_keeps_newest_down_to_watermark
  (inbuffer outbuffer : list F32) (len inchannels : Z) (w : Wave) :
  wave_wf w -> 0 < len -> 0 < inchannels ->
  (Z.to_nat (len * inchannels) <= length inbuffer)%nat ->
  (Z.to_nat (len * inchannels) <= length outbuffer)%nat ->
  (exists out w',
     waveDataCallback inbuffer outbuffer len inchannels w = Ok (out, w')
     /\ wave_wf w'
     /\ gWaveBufferMinSize w' = gWaveBufferMinSize w
     /\ wave_view w'
        `prefix_of` (firstn (Z.to_nat len) (local_buf w') ++ wave_view w)
     /\ length (wave_view w') = Z.to_nat (gWaveDataBufferSize w')
     /\ 1 <= gWaveDataBufferSize w' <= WAVE_BUFFER_SIZE)
  /\ (forall x,
      exists w',
        wave_store x w = Ok w'
        /\ wave_wf w'
        /\ gWaveBufferMinSize w' = gWaveBufferMinSize w
        /\ (gWaveDataBufferSize w < WAVE_BUFFER_SIZE ->
            gWaveDataBufferSize w' = gWaveDataBufferSize w + 1
            /\ wave_view w' = x :: wave_view w)
        /\ (gWaveDataBufferSize w = WAVE_BUFFER_SIZE ->
            gWaveDataBufferSize w' = gWaveBufferMinSize w + 1
            /\ wave_view w'
               = x :: firstn (Z.to_nat (gWaveBufferMinSize w)) (wave_view w)
            /\ skipn (Z.to_nat (WAVE_BUFFER_SIZE - gWaveBufferMinSize w))
                 (gWaveDataBuffer w')
               = firstn (Z.to_nat (gWaveBufferMinSize w)) (wave_view w))).
Proof.
  intros Hwf Hlen Hch Hin Hout. split.
  - destruct (waveDataCallback_spec inbuffer outbuffer len inchannels w
                Hwf Hlen Hch Hin Hout)
      as (out & w' & Hrun & Hwf' & Hm & Hpre & Hsz).
    exists out, w'. split; [exact Hrun|]. split; [exact Hwf'|].
    split; [exact Hm|]. split; [exact Hpre|].
    split; [apply wave_view_length, Hwf'|exact Hsz].
  - intros x.
    destruct (wave_store_spec x w Hwf) as (w' & Hst & Hwf' & Hm & _ & Hlt & Heq).
    exists w'. split; [exact Hst|]. split; [exact Hwf'|]. split; [exact Hm|].
    split; assumption.
Qed.

Lemma ring_buffer_keeps_newest_down_to_watermark_witness :
  exists w',
    wave_store F32.half wave_full_marked = Ok w'
    /\ gWaveDataBufferSize w' = 3
    /\ wave_view w' = [F32.half; F32.of_int 1; F32.of_int 2].
Proof.
  destruct (ring_buffer_keeps_newest_down_to_watermark
              [F32.half] [F32.zero] 1 1 wave_full_marked)
    as (_ & Hstore).
  - split; [vm_compute; reflexivity|].
    unfold wave_full_marked, WAVE_BUFFER_SIZE.
    cbn [gWaveBufferMinSize gWaveDataBufferSize].
    change (1024 / 2) with 512. lia.
  - lia.
  - lia.
  - cbn. lia.
  - cbn. lia.
  - destruct (Hstore F32.half) as (w' & Hst & _ & _ & _ & Hfull).
    destruct (Hfull eq_refl) as (Hsz & Hview & _).
    exists w'. split; [exact Hst|]. split; [exact Hsz|]. exact Hview.
Defined.

(** ** Reading the waveform (C3) *)

Lemma U32_small (z : Z) : 0 <= z < 2 ^ 32 -> U32 z = z.
Proof. intros H. unfold U32. apply Z.mod_small. exact H. Qed.

Lemma U32_negative (z : Z) : - 2 ^ 31 <= z < 0 -> U32 z = z + 2 ^ 32.
Proof.
  intros H. unfold U32.
  rewrite <- (Z.mod_add z 1 (2 ^ 32)) by lia.
  rewrite Z.mod_small; lia.
Qed.

(** [getWaveData], case by case.  For an [S32] [count]:
    - above half the capacity (512), and also below zero, since the
      comparison is unsigned, [getWaveData] is fatal;
    - from 0 to 512 it returns false and leaves the array alone when the
      channel or the current manager is missing, when the channel is muted
      (the ring buffer is then untouched), and when the fill count is zero
      (the watermark is then [count]);
    - otherwise, on a well-formed buffer and an array of at least [count]
      cells, it returns true; the array then starts with the first
      [min count fill] cells of the valid region, followed by zeros up to
      [count], the cells from [count] on are unchanged; and the watermark is
      [count]. *)
Lemma getWaveData_outcome (E : Engine) (this : LLStreamingAudio_FMODSTUDIO)
  (arr : list F32) (count stride : Z) (w : World) :
  - 2 ^ 31 <= count < 2 ^ 31 ->
  (WAVE_BUFFER_SIZE / 2 < count \/ count < 0 ->
   getWaveData E this arr count stride w = Fatal)
  /\ (0 <= count <= WAVE_BUFFER_SIZE / 2 ->
      match mFMODInternetStreamChannelp this, mCurrentInternetStreamp this with
      | Some c, Some _ =>
          if getMute_result E (clock w) c then
            exists w',
              getWaveData E this arr count stride w = Ok ((false, arr), w')
              /\ wave w' = wave w
          else if gWaveDataBufferSize (wave w) =? 0 then
            exists w',
              getWaveData E this arr count stride w = Ok ((false, arr), w')
              /\ gWaveBufferMinSize (wave w') = count
          else
            wave_wf (wave w) -> (Z.to_nat count <= length arr)%nat ->
            exists w',
              let n := Z.to_nat (Z.min count (gWaveDataBufferSize (wave w))) in
              getWaveData E this arr count stride w
              = Ok ((true,
                     firstn n (wave_view (wave w))
                       ++ repeat F32.zero (Z.to_nat count - n)
                       ++ skipn (Z.to_nat count) arr), w')
              /\ gWaveBufferMinSize (wave w') = count
              /\ wave_view (wave w') = wave_view (wave w)
              /\ wave_wf (wave w')
      | _, _ => getWaveData E this arr count stride w = Ok ((false, arr), w)
      end).
Proof.
  intros Hrange. unfold WAVE_BUFFER_SIZE. change (1024 / 2) with 512.
  unfold getWaveData, WAVE_BUFFER_SIZE. change (1024 / 2) with 512. split.
  - intros Hbad.
    replace (U32 count >? 512) with true; [reflexivity|].
    symmetry. apply Z.gtb_lt.
    destruct Hbad as [Hbig|Hneg].
    + rewrite U32_small; lia.
    + rewrite U32_negative; lia.
  - intros Hok. rewrite (U32_small count) by lia.
    replace (count >? 512) with false
      by (symmetry; rewrite Z.gtb_ltb; apply Z.ltb_ge; lia).
    destruct (mFMODInternetStreamChannelp this) as [c|]; [|reflexivity].
    destruct (mCurrentInternetStreamp this) as [h|]; [|reflexivity].
    unfold fmod_getMute, get_wave, put_wave, tick, bind, ret. cbn.
    destruct (getMute_result E (clock w) c).
    + eexists. split; reflexivity.
    + destruct (wave w) as [m buf fill lb] eqn:Hw. cbn.
      destruct (fill =? 0) eqn:Hfill.
      * eexists. split; reflexivity.
      * intros (Hl & Hs & Hm) Harr. unfold WAVE_BUFFER_SIZE in *.
        cbn [gWaveBufferMinSize gWaveDataBuffer gWaveDataBufferSize] in *.
        apply Z.eqb_neq in Hfill.
        rewrite (U32_small (1024 - fill)) by lia.
        unfold lift_res, memcpy, slice.
        replace (Nat.leb (0 + Z.to_nat (Z.min count fill)) (length arr))
          with true by (symmetry; apply Nat.leb_le; lia).
        replace (Nat.leb (Z.to_nat (1024 - fill) + Z.to_nat (Z.min count fill))
                   (length buf))
          with true by (symmetry; apply Nat.leb_le; lia).
        cbn [andb firstn app Nat.add].
        unfold wave_view, WAVE_BUFFER_SIZE.
        cbn [gWaveBufferMinSize gWaveDataBuffer gWaveDataBufferSize].
        set (view := skipn (Z.to_nat (1024 - fill)) buf).
        assert (Hview : length view = Z.to_nat fill)
          by (subst view; rewrite length_skipn; lia).
        change (firstn 0 arr) with (@nil F32). cbn [app].
        destruct (fill <? count) eqn:Hpad.
        -- apply Z.ltb_lt in Hpad.
           rewrite (U32_small (count - fill)) by lia.
           replace (Z.min count fill) with fill by lia.
           rewrite (firstn_all2 view) by lia.
           unfold memset0.
           rewrite length_app, length_skipn, Hview.
           replace (Nat.leb (Z.to_nat fill + Z.to_nat (count - fill))
                      (Z.to_nat fill + (length arr - Z.to_nat fill)))
             with true by (symmetry; apply Nat.leb_le; lia).
           rewrite take_app_length' by lia.
           rewrite drop_app_ge by lia. rewrite drop_drop, Hview.
           replace (Z.to_nat fill + (Z.to_nat fill + Z.to_nat (count - fill)
                                    - Z.to_nat fill))%nat
             with (Z.to_nat count) by lia.
           replace (Z.to_nat count - Z.to_nat fill)%nat
             with (Z.to_nat (count - fill)) by lia.
           eexists. split; [reflexivity|]. split; [reflexivity|].
           split; [reflexivity|].
           unfold wave_wf, WAVE_BUFFER_SIZE. cbn. change (1024 / 2) with 512.
           lia.
        -- apply Z.ltb_ge in Hpad.
           replace (Z.min count fill) with count by lia.
           replace (Z.to_nat count - Z.to_nat count)%nat with 0%nat by lia.
           cbn [repeat app].
           eexists. split; [reflexivity|]. split; [reflexivity|].
           split; [reflexivity|].
           unfold wave_wf, WAVE_BUFFER_SIZE. cbn. change (1024 / 2) with 512.
           lia.
Qed.


(** ** Starvation (C5) *)

Lemma decode_payload_total (char_signed : bool)
  (rawstr_to_utf8 : list byte -> list byte) (tag : FMOD_TAG) :
  tag_ok tag ->
  exists v, decode_payload char_signed rawstr_to_utf8 tag = Ok v.
Proof.
  intros (Hlen & Hint & Hfloat & _). unfold decode_payload.
  destruct (tag_datatype tag); try (eexists; reflexivity).
  - unfold read_S32.
    replace (Nat.leb 4 (length (tag_data tag))) with true
      by (symmetry; apply Nat.leb_le; auto).
    eexists; reflexivity.
  - unfold read_raw.
    replace (Nat.leb 8 (length (tag_data tag))) with true
      by (symmetry; apply Nat.leb_le; auto).
    eexists; reflexivity.
  - destruct (utf16input_to_utf8_total char_signed (tag_data tag) UTF16 Hlen)
      as [out Hout].
    unfold tag_datalen. rewrite Hout. eexists; reflexivity.
  - destruct (utf16input_to_utf8_total char_signed (tag_data tag) UTF16BE Hlen)
      as [out Hout].
    unfold tag_datalen. rewrite Hout. eexists; reflexivity.
Qed.

Lemma translate_name_total (c : Channel) (tag : FMOD_TAG) (w : World) :
  tag_ok tag -> exists r w', translate_name c tag w = Ok (r, w').
Proof.
  intros (_ & _ & _ & Hfmod). unfold translate_name.
  destruct (tag_type tag) eqn:Ht; try (eexists _, _; reflexivity).
  destruct (compareInsensitive _ _ =? 0) eqn:Hname.
  - unfold read_raw. apply Z.eqb_eq in Hname.
    replace (Nat.leb 4 (length (tag_data tag))) with true
      by (symmetry; apply Nat.leb_le; auto).
    eexists _, _; reflexivity.
  - eexists _, _; reflexivity.
Qed.

Lemma store_tag_total (char_signed : bool)
  (rawstr_to_utf8 : list byte -> list byte) (c : Channel) (tag : FMOD_TAG)
  (md : gmap string LLSD) (w : World) :
  tag_ok tag ->
  exists md' w', store_tag char_signed rawstr_to_utf8 c tag md w = Ok (md', w').
Proof.
  intros Hok. unfold store_tag.
  destruct (translate_name_total c tag w Hok) as (r & w1 & Hr).
  rewrite (bind_step _ _ _ _ _ Hr).
  destruct r as [name|]; [|eexists _, _; reflexivity].
  destruct (decode_payload_total char_signed rawstr_to_utf8 tag Hok) as [v Hv].
  unfold bind, lift_res. rewrite Hv.
  destruct v; eexists _, _; reflexivity.
Qed.

Lemma tag_loop_total (E : Engine) (char_signed : bool)
  (rawstr_to_utf8 : list byte -> list byte) (s : Sound) (c : Channel)
  (n : nat) :
  tags_ok E ->
  forall (i : Z) (md : gmap string LLSD) (w : World),
    exists md' w',
      tag_loop E char_signed rawstr_to_utf8 s c n i md w = Ok (md', w').
Proof.
  intros Hok. induction n as [|n IH]; intros i md w; cbn [tag_loop].
  - eexists _, _; reflexivity.
  - unfold fmod_getTag.
    assert (Ht : tick (GetTag s i) w
                 = Ok (clock w,
                       {| clock := S (clock w); calls := calls w ++ [GetTag s i];
                          paused := paused w; dsp_active := dsp_active w;
                          wave := wave w |})) by reflexivity.
    unfold bind at 1. unfold bind at 1. rewrite Ht. unfold ret at 1.
    destruct (getTag_result E (clock w) s i) as [tag|] eqn:Hg.
    + destruct (store_tag_total char_signed rawstr_to_utf8 c tag md
                  {| clock := S (clock w); calls := calls w ++ [GetTag s i];
                     paused := paused w; dsp_active := dsp_active w;
                     wave := wave w |} (Hok _ _ _ _ Hg)) as (md1 & w1 & Hs).
      rewrite (bind_step _ _ _ _ _ Hs). apply IH.
    + unfold bind at 1. unfold ret at 1. apply IH.
Qed.

Lemma forallb_quiet_no_pause (ch : Channel) (d : list Call) :
  forallb quiet d = true -> count_calls (is_pause_of ch) d = 0%nat.
Proof.
  induction d as [|c d IH]; [reflexivity|].
  intros H. cbn [forallb] in H. apply andb_true_iff in H as [Hc Hd].
  unfold count_calls in *. rewrite filter_cons.
  destruct (decide (is_pause_of ch c = true)) as [Hx|Hx]; [|auto].
  unfold quiet in Hc. destruct c; try discriminate.
Qed.

(** The policy of lines 402-417 on its own. *)
Lemma starvation_policy_spec (c : Channel) (oi : OpenInfo) (w : World) :
  exists w',
    starvation_policy c oi w = Ok (tt, w')
    /\ if starving oi then
         if paused w c
         then calls w' = calls w ++ [GetPaused c] /\ paused w' = paused w
         else calls w' = calls w ++ [GetPaused c; SetPaused c true]
              /\ paused w' c = true
       else if percentbuffered oi >? 80
         then calls w' = calls w ++ [SetPaused c false] /\ paused w' c = false
         else calls w' = calls w /\ paused w' = paused w.
Proof.
  unfold starvation_policy. destruct (starving oi).
  - unfold fmod_getPaused, fmod_setPaused, set_paused, tick, bind, ret. cbn.
    destruct (paused w c) eqn:Hp; cbn.
    + eexists. split; [reflexivity|]. cbn. split; reflexivity.
    + eexists. split; [reflexivity|]. cbn. rewrite <- app_assoc.
      split; [reflexivity|]. rewrite Nat.eqb_refl. reflexivity.
  - destruct (percentbuffered oi >? 80).
    + unfold fmod_setPaused, set_paused, tick, bind, ret. cbn.
      eexists. split; [reflexivity|]. cbn. split; [reflexivity|].
      rewrite Nat.eqb_refl. reflexivity.
    + exists w. split; [reflexivity|]. split; reflexivity.
Qed.

(** One tick with a live channel, no stream error and a current sound. *)
Lemma update_live_tick (E : Engine) (char_signed : bool)
  (rawstr_to_utf8 : list byte -> list byte)
  (this : LLStreamingAudio_FMODSTUDIO) (w : World)
  (s : Sound) (c : Channel) :
  live this s c -> tags_ok E ->
  (forall t, open_state (getOpenState_result E t s) <> FMOD_OPENSTATE_ERROR) ->
  (forall t, getCurrentSound_result E t c <> None) ->
  exists this' w' dq,
    update E char_signed rawstr_to_utf8 this w = Ok (this', w')
    /\ live this' s c
    /\ forallb quiet dq = true
    /\ if starving (getOpenState_result E (clock w) s) then
         if paused w c
         then calls w' = calls w ++ dq ++ [GetPaused c] /\ paused w' = paused w
         else calls w' = calls w ++ dq ++ [GetPaused c; SetPaused c true]
              /\ paused w' c = true
       else if percentbuffered (getOpenState_result E (clock w) s) >? 80
         then calls w' = calls w ++ dq ++ [SetPaused c false]
              /\ paused w' c = false
         else calls w' = calls w ++ dq /\ paused w' = paused w.
Proof.
  intros ((h & Hcur & Hs) & Hch & Hdead & Hpend) Hok Hnoerr Hsound.
  destruct this as [cur ch dsp dead url pend gain md]. cbn in *. subst.
  set (this := mkLLStreamingAudio_FMODSTUDIO (Some h) (Some c) dsp [] url EmptyString gain md).
  set (oi := getOpenState_result E (clock w) s).
  set (w1 := {| clock := S (clock w); calls := calls w ++ [GetOpenState s];
                paused := paused w; dsp_active := dsp_active w; wave := wave w |}).
  assert (Hstep : update E char_signed rawstr_to_utf8 this w
                  = update_channel E char_signed rawstr_to_utf8 this oi w1).
  { unfold update.
    rewrite (bind_step _ _ w w (true, this) eq_refl). cbn [negb].
    rewrite (bind_step _ _ w w this eq_refl).
    unfold update_poll. change (mCurrentInternetStreamp this) with (Some h).
    cbv beta iota.
    assert (Hopen : getOpenState E h w = Ok (oi, w1))
      by (unfold getOpenState; rewrite Hs; reflexivity).
    rewrite (bind_step _ _ _ _ _ Hopen).
    specialize (Hnoerr (clock w)). fold oi in Hnoerr.
    destruct (open_state oi); try reflexivity. congruence. }
  rewrite Hstep. unfold update_channel.
  change (mFMODInternetStreamChannelp this) with (Some c). cbv beta iota.
  set (md0 := match mMetaData this with Some m => m | None => ∅ end).
  set (w2 := {| clock := S (S (clock w));
                calls := (calls w ++ [GetOpenState s]) ++ [GetCurrentSound c];
                paused := paused w; dsp_active := dsp_active w; wave := wave w |}).
  rewrite (bind_step _ _ w1 w2 (getCurrentSound_result E (S (clock w)) c) eq_refl).
  destruct (getCurrentSound_result E (S (clock w)) c) as [s'|] eqn:Hcs;
    [|exfalso; eapply Hsound; exact Hcs].
  set (w3 := {| clock := S (S (S (clock w)));
                calls := ((calls w ++ [GetOpenState s]) ++ [GetCurrentSound c])
                           ++ [GetNumTags s'];
                paused := paused w; dsp_active := dsp_active w; wave := wave w |}).
  rewrite (bind_step _ _ w2 w3 (getNumTags_result E (S (S (clock w))) s') eq_refl).
  set (tags := match getNumTags_result E (S (S (clock w))) s' with
               | Some (tagcount, dirtytagcount) => _
               | None => _
               end).
  assert (Htags : exists md' w4, tags w3 = Ok (md', w4) /\ appends_quiet w3 w4).
  { subst tags. destruct (getNumTags_result E (S (S (clock w))) s') as [[tc dc]|].
    - destruct (negb (dc =? 0)).
      + destruct (tag_loop_total E char_signed rawstr_to_utf8 s' c
                    (Z.to_nat tc) Hok 0 ∅ w3) as (md' & w4 & Ht).
        exists md', w4. split; [exact Ht|]. eapply tag_loop_quiet; exact Ht.
      + exists md0, w3. split; [reflexivity|apply appends_quiet_refl].
    - exists md0, w3. split; [reflexivity|apply appends_quiet_refl]. }
  destruct Htags as (md' & w4 & Ht & Hp4 & d4 & Hd4 & Hq4).
  rewrite (bind_step _ _ _ _ _ Ht).
  destruct (starvation_policy_spec c oi w4) as (w' & Hpol & Hcase).
  rewrite (bind_step _ _ _ _ _ Hpol). unfold ret.
  eexists _, w', ([GetOpenState s; GetCurrentSound c; GetNumTags s'] ++ d4).
  split; [reflexivity|]. split.
  { split; [exists h; split; [reflexivity|exact Hs]|]. repeat split. }
  split; [cbn [forallb app]; exact Hq4|].
  assert (Hc4 : calls w4
                = calls w ++ [GetOpenState s; GetCurrentSound c; GetNumTags s'] ++ d4).
  { rewrite Hd4. subst w3. cbn [calls]. rewrite <- !app_assoc. reflexivity. }
  assert (Hpw : paused w4 = paused w) by (rewrite Hp4; reflexivity).
  destruct (starving oi).
  - rewrite Hpw in Hcase. destruct (paused w c).
    + destruct Hcase as [Hc Hp]. rewrite Hc, Hc4, <- !app_assoc.
      split; [reflexivity|congruence].
    + destruct Hcase as [Hc Hp]. rewrite Hc, Hc4, <- !app_assoc.
      split; [reflexivity|exact Hp].
  - destruct (percentbuffered oi >? 80).
    + destruct Hcase as [Hc Hp]. rewrite Hc, Hc4, <- !app_assoc.
      split; [reflexivity|exact Hp].
    + destruct Hcase as [Hc Hp]. rewrite Hc, Hc4.
      split; [reflexivity|congruence].
Qed.

Lemma count_set_paused_quiet_app (dq rest : list Call) :
  forallb quiet dq = true ->
  count_calls is_set_paused (dq ++ rest) = count_calls is_set_paused rest.
Proof.
  intros H. rewrite count_calls_app, (forallb_quiet_no_set_paused dq H).
  reflexivity.
Qed.

Lemma count_pause_quiet_app (ch : Channel) (dq rest : list Call) :
  forallb quiet dq = true ->
  count_calls (is_pause_of ch) (dq ++ rest) = count_calls (is_pause_of ch) rest.
Proof.
  intros H. rewrite count_calls_app, (forallb_quiet_no_pause ch dq H).
  reflexivity.
Qed.

Lemma count_pause_of_self (c : Channel) :
  count_calls (is_pause_of c) [GetPaused c; SetPaused c true] = 1%nat.
Proof.
  unfold count_calls. rewrite !filter_cons. cbn [is_pause_of].
  rewrite Nat.eqb_refl. reflexivity.
Qed.

Lemma count_pause_of_unpause (c : Channel) :
  count_calls (is_pause_of c) [SetPaused c false] = 0%nat.
Proof. reflexivity. Qed.

(** Ticks of a starving stream whose channel is already paused make no
    [setPaused] call. *)
Lemma starving_ticks_while_paused (E : Engine) (char_signed : bool)
  (rawstr_to_utf8 : list byte -> list byte) (s : Sound) (c : Channel) :
  tags_ok E ->
  (forall t, open_state (getOpenState_result E t s) <> FMOD_OPENSTATE_ERROR) ->
  (forall t, getCurrentSound_result E t c <> None) ->
  (forall t, starving (getOpenState_result E t s) = true) ->
  forall (n : nat) (this : LLStreamingAudio_FMODSTUDIO) (w : World),
    live this s c -> paused w c = true ->
    exists this' w' d,
      updates E char_signed rawstr_to_utf8 n this w = Ok (this', w')
      /\ live this' s c
      /\ calls w' = calls w ++ d
      /\ count_calls is_set_paused d = 0%nat
      /\ paused w' c = true.
Proof.
  intros Hok Hnoerr Hsound Hstarv. induction n as [|n IH]; intros this w Hlive Hp.
  - exists this, w, []. split; [reflexivity|]. split; [exact Hlive|].
    rewrite app_nil_r. repeat split. exact Hp.
  - destruct (update_live_tick E char_signed rawstr_to_utf8 this w s c
                Hlive Hok Hnoerr Hsound)
      as (this1 & w1 & dq & Hup & Hlive1 & Hq & Hcase).
    rewrite Hstarv, Hp in Hcase. destruct Hcase as [Hc1 Hp1].
    destruct (IH this1 w1 Hlive1) as (this' & w' & d & Hrun & Hlive' & Hc & Hn & Hp');
      [rewrite Hp1; exact Hp|].
    exists this', w', ((dq ++ [GetPaused c]) ++ d).
    cbn [updates]. rewrite (bind_step _ _ _ _ _ Hup).
    split; [exact Hrun|]. split; [exact Hlive'|].
    split; [rewrite Hc, Hc1, <- !app_assoc; reflexivity|].
    split; [|exact Hp'].
    rewrite count_calls_app, Hn, count_set_paused_quiet_app by exact Hq.
    reflexivity.
Qed.

(** C5.  With a live channel on the current stream, no stream error, a
    current sound and well-formed tags, an [update] returns and:
    - when the engine reports starving and the channel is not paused, the
      tick makes exactly one [setPaused] call, a pause of the channel,
      which is paused afterwards;
    - when it reports starving and the channel is already paused, the tick
      makes no [setPaused] call and the channel stays paused;
    - when it does not report starving and more than 80 percent is
      buffered, the tick calls [setPaused(false)], makes no pause call, and
      the channel is not paused afterwards.
    Over any number of ticks during which the engine reports starving,
    starting with the channel not paused, exactly one [setPaused] call is
    made in all, and it is a pause of the channel. *)
Theorem starvation_pauses_once_and_resumes (E : Engine) (char_signed : bool)
  (rawstr_to_utf8 : list byte -> list byte)
  (this : LLStreamingAudio_FMODSTUDIO) (w : World)
  (s : Sound) (c : Channel) :
  live this s c -> tags_ok E ->
  (forall t, open_state (getOpenState_result E t s) <> FMOD_OPENSTATE_ERROR) ->
  (forall t, getCurrentSound_result E t c <> None) ->
  (exists this' w',
     update E char_signed rawstr_to_utf8 this w = Ok (this', w')
     /\ live this' s c
     /\ (starving (getOpenState_result E (clock w) s) = true ->
         paused w c = false ->
         count_calls is_set_paused (calls_since w w') = 1%nat
         /\ count_calls (is_pause_of c) (calls_since w w') = 1%nat
         /\ paused w' c = true)
     /\ (starving (getOpenState_result E (clock w) s) = true ->
         paused w c = true ->
         count_calls is_set_paused (calls_since w w') = 0%nat
         /\ paused w' c = true)
     /\ (starving (getOpenState_result E (clock w) s) = false ->
         80 < percentbuffered (getOpenState_result E (clock w) s) ->
         In (SetPaused c false) (calls_since w w')
         /\ count_calls (is_pause_of c) (calls_since w w') = 0%nat
         /\ paused w' c = false))
  /\ (forall n,
        (forall t, starving (getOpenState_result E t s) = true) ->
        paused w c = false ->
        exists this' w',
          updates E char_signed rawstr_to_utf8 (S n) this w = Ok (this', w')
          /\ count_calls is_set_paused (calls_since w w') = 1%nat
          /\ count_calls (is_pause_of c) (calls_since w w') = 1%nat
          /\ paused w' c = true).
Proof.
  intros Hlive Hok Hnoerr Hsound.
  destruct (update_live_tick E char_signed rawstr_to_utf8 this w s c
              Hlive Hok Hnoerr Hsound)
    as (this1 & w1 & dq & Hup & Hlive1 & Hq & Hcase).
  split.
  - exists this1, w1. split; [exact Hup|]. split; [exact Hlive1|].
    split; [|split].
    + intros Hst Hp. rewrite Hst, Hp in Hcase. destruct Hcase as [Hc Hp1].
      rewrite (calls_since_app _ _ _ Hc).
      rewrite count_set_paused_quiet_app, count_pause_quiet_app by exact Hq.
      split; [reflexivity|]. split; [apply count_pause_of_self|exact Hp1].
    + intros Hst Hp. rewrite Hst, Hp in Hcase. destruct Hcase as [Hc Hp1].
      rewrite (calls_since_app _ _ _ Hc).
      rewrite count_set_paused_quiet_app by exact Hq.
      split; [reflexivity|]. rewrite Hp1. exact Hp.
    + intros Hst Hpct. rewrite Hst in Hcase.
      replace (percentbuffered (getOpenState_result E (clock w) s) >? 80)
        with true in Hcase by (symmetry; apply Z.gtb_lt; exact Hpct).
      destruct Hcase as [Hc Hp1].
      rewrite (calls_since_app _ _ _ Hc).
      rewrite count_pause_quiet_app by exact Hq.
      split; [apply in_or_app; right; left; reflexivity|].
      split; [reflexivity|exact Hp1].
  - intros n Hstarv Hp. rewrite Hstarv, Hp in Hcase. destruct Hcase as [Hc Hp1].
    destruct (starving_ticks_while_paused E char_signed rawstr_to_utf8 s c
                Hok Hnoerr Hsound Hstarv n this1 w1 Hlive1 Hp1)
      as (this' & w' & d & Hrun & _ & Hc' & Hn & Hp').
    exists this', w'. cbn [updates]. rewrite (bind_step _ _ _ _ _ Hup).
    split; [exact Hrun|].
    assert (Hall : calls w' = calls w ++ dq ++ [GetPaused c; SetPaused c true] ++ d)
      by (rewrite Hc', Hc, <- !app_assoc; reflexivity).
    rewrite (calls_since_app _ _ _ Hall).
    rewrite count_set_paused_quiet_app, count_pause_quiet_app by exact Hq.
    rewrite !count_calls_app, Hn, count_pause_of_self.
    split; [reflexivity|]. split; [|exact Hp'].
    assert (Hd : count_calls (is_pause_of c) d = 0%nat).
    { clear -Hn. unfold count_calls in *.
      induction d as [|x d IH]; [reflexivity|].
      rewrite filter_cons in *.
      destruct (decide (is_set_paused x = true)) as [Hx|Hx]; [discriminate|].
      destruct (decide (is_pause_of c x = true)) as [Hy|Hy]; [|auto].
      destruct x; try discriminate. exfalso. apply Hx. reflexivity. }
    rewrite Hd. reflexivity.
Qed.

Lemma starvation_pauses_once_and_resumes_witness :
  exists this' w',
    updates engine_starving true (fun s => s) 3 controller_playing world_init
    = Ok (this', w')
    /\ count_calls is_set_paused (calls_since world_init w') = 1%nat
    /\ count_calls (is_pause_of 3%nat) (calls_since world_init w') = 1%nat
    /\ paused w' 3%nat = true.
Proof.
  destruct (starvation_pauses_once_and_resumes engine_starving true
              (fun s => s) controller_playing world_init 7%nat 3%nat)
    as (_ & Hticks).
  - split; [eexists; split; reflexivity|]. repeat split.
  - intros t s i tag H. discriminate H.
  - intros t. discriminate.
  - intros t. discriminate.
  - apply (Hticks 2%nat).
    + intros t. reflexivity.
    + reflexivity.
Defined.

(** * More properties *)

(** ** What [start] leaves behind *)

Lemma start_outcome (E : Engine) (this : LLStreamingAudio_FMODSTUDIO)
  (url : string) (w : World) :
  exists this' w',
    start E this url w = Ok (this', w')
    /\ if is_empty_string url
       then mCurrentInternetStreamp this' = None
            /\ mPendingURL this' = EmptyString
            /\ mURL this' = EmptyString
       else (mURL this' = url
             /\ mDeadStreams this' = []
             /\ mPendingURL this' = EmptyString
             /\ exists h, mCurrentInternetStreamp this' = Some h
                          /\ mInternetStreamURL h = url)
            \/ (mCurrentInternetStreamp this' = None
                /\ mPendingURL this' = url
                /\ mURL this' = mURL this
                /\ mDeadStreams this' <> []).
Proof.
  destruct (stop_spec E this w)
    as (this1 & w1 & d1 & Hstop & _ & _ & Hcur & _ & Hp & _ & Hurl & _).
  unfold start. rewrite (bind_step _ _ _ _ _ Hstop).
  destruct (is_empty_string url) eqn:Hu; cbn [negb].
  - eexists _, _. split; [reflexivity|]. cbn. auto.
  - destruct (mDeadStreams this1) as [|h0 rest] eqn:Hdead.
    + unfold new_LLAudioStreamManagerFMODSTUDIO, fmod_createStream, tick,
        bind, ret. cbn.
      destruct (createStream_result E (clock w1) url);
        (eexists _, _; split; [reflexivity|]; left; cbn;
         split; [reflexivity|]; split; [exact Hdead|]; split; [exact Hp|];
         eexists; split; reflexivity).
    + eexists _, _. split; [reflexivity|]. right. cbn.
      rewrite Hdead. split; [exact Hcur|]. split; [reflexivity|].
      split; [exact Hurl|]. discriminate.
Qed.

(** ** What [isPlaying] reports *)

(** X1.  After [stop], [isPlaying] is 2 ("paused") when a URL is
    remembered and 0 when none is.  After [start] with the empty url it is
    0.  After [start] with a non-empty url it is never 0: it is 1 with a
    current manager for that url, now the remembered one, whether or not
    the engine could open it, or it is 2 with the url pending behind a
    dead stream. *)
Theorem isPlaying_after_stop_and_start (E : Engine)
  (this : LLStreamingAudio_FMODSTUDIO) (url : string) (w : World) :
  (exists this' w',
     stop E this w = Ok (this', w')
     /\ isPlaying this' = if is_empty_string (mURL this) then 0 else 2)
  /\ (exists this' w',
        start E this url w = Ok (this', w')
        /\ if is_empty_string url then isPlaying this' = 0
           else (isPlaying this' = 1
                 /\ getURL this' = url
                 /\ exists h, mCurrentInternetStreamp this' = Some h
                              /\ mInternetStreamURL h = url)
                \/ (isPlaying this' = 2
                    /\ mCurrentInternetStreamp this' = None
                    /\ mPendingURL this' = url
                    /\ mDeadStreams this' <> [])).
Proof.
  split.
  - destruct (stop_spec E this w)
      as (this1 & w1 & d1 & Hstop & _ & _ & Hcur & _ & Hp & _ & Hurl & _).
    exists this1, w1. split; [exact Hstop|].
    unfold isPlaying. rewrite Hcur, Hp, Hurl.
    destruct (is_empty_string (mURL this)); reflexivity.
  - destruct (start_outcome E this url w) as (this' & w' & Hstart & Hcase).
    exists this', w'. split; [exact Hstart|]. unfold isPlaying, getURL.
    destruct (is_empty_string url) eqn:Hu.
    + destruct Hcase as (-> & -> & ->). reflexivity.
    + destruct Hcase as [(Hurl & _ & _ & h & Hc & Hh)|(Hc & Hp & _ & Hd)].
      * left. rewrite Hc. split; [reflexivity|]. split; [exact Hurl|]. eauto.
      * right. rewrite Hc, Hp, Hu. rewrite orb_true_r.
        repeat split; auto.
Qed.

(** ** Pausing and resuming *)

(** X2.  With a current manager and a remembered URL [u], [pause] with a
    negative option stops: there is no current manager any more,
    [isPlaying] is 2 and [u] is still remembered.  A second [pause] with a
    negative option then asks for [u] again: [u] stays remembered,
    [isPlaying] is not 0, and [u] is either the url of the new current
    manager or the pending url. *)
Theorem pause_toggle_resumes_remembered_url (E : Engine)
  (this : LLStreamingAudio_FMODSTUDIO) (w : World)
  (h : LLAudioStreamManagerFMODSTUDIO) (p1 p2 : Z) :
  mCurrentInternetStreamp this = Some h ->
  mURL this <> EmptyString -> p1 < 0 -> p2 < 0 ->
  exists this1 w1 this2 w2,
    pause E this p1 w = Ok (this1, w1)
    /\ mCurrentInternetStreamp this1 = None
    /\ isPlaying this1 = 2
    /\ getURL this1 = mURL this
    /\ pause E this1 p2 w1 = Ok (this2, w2)
    /\ getURL this2 = mURL this
    /\ isPlaying this2 <> 0
    /\ (mPendingURL this2 = mURL this
        \/ exists h', mCurrentInternetStreamp this2 = Some h'
                      /\ mInternetStreamURL h' = mURL this).
Proof.
  intros Hcur Hurl Hp1 Hp2.
  destruct (stop_spec E this w)
    as (this1 & w1 & d1 & Hstop & _ & _ & Hcur1 & _ & Hpend1 & _ & Hurl1 & _).
  assert (Hpause1 : pause E this p1 w = Ok (this1, w1)).
  { unfold pause. replace (p1 <? 0) with true by (symmetry; apply Z.ltb_lt; lia).
    rewrite Hcur. cbn. exact Hstop. }
  destruct (start_outcome E this1 (mURL this) w1) as (this2 & w2 & Hstart & Hcase).
  rewrite (is_empty_string_false _ Hurl) in Hcase.
  assert (Hpause2 : pause E this1 p2 w1 = Ok (this2, w2)).
  { unfold pause. replace (p2 <? 0) with true by (symmetry; apply Z.ltb_lt; lia).
    rewrite Hcur1. cbn. unfold getURL. rewrite Hurl1. exact Hstart. }
  exists this1, w1, this2, w2.
  split; [exact Hpause1|]. split; [exact Hcur1|].
  split.
  { unfold isPlaying. rewrite Hcur1, Hurl1, (is_empty_string_false _ Hurl).
    reflexivity. }
  split; [exact Hurl1|]. split; [exact Hpause2|]. unfold getURL, isPlaying.
  destruct Hcase as [(Hu & _ & _ & h' & Hc & Hhu)|(Hc & Hpe & Hu & _)].
  - split; [exact Hu|]. split; [rewrite Hc; discriminate|]. right. eauto.
  - split; [congruence|]. split; [|left; exact Hpe].
    rewrite Hc, Hpe, (is_empty_string_false _ Hurl), orb_true_r. discriminate.
Qed.

Lemma pause_toggle_resumes_remembered_url_witness :
  exists this1 w1 this2 w2,
    pause engine_connecting controller_playing (-1) world_init = Ok (this1, w1)
    /\ isPlaying this1 = 2
    /\ pause engine_connecting this1 (-1) w1 = Ok (this2, w2)
    /\ getURL this2 = "http://radio/"%string
    /\ isPlaying this2 <> 0.
Proof.
  destruct (pause_toggle_resumes_remembered_url engine_connecting
              controller_playing world_init
              (mkLLAudioStreamManagerFMODSTUDIO (Some 3%nat) (Some 7%nat) true
                 "http://radio/") (-1) (-1))
    as (this1 & w1 & this2 & w2 & H1 & _ & Hp1 & _ & H2 & Hu & Hp2 & _).
  - reflexivity.
  - discriminate.
  - lia.
  - lia.
  - exists this1, w1, this2, w2. repeat split; assumption.
Defined.

(** ** Managers *)

Lemma startStream_cached (E : Engine) (m : LLAudioStreamManagerFMODSTUDIO)
  (s : Sound) (c : Channel) (w0 : World) :
  mInternetStream m = Some s -> mStreamChannel m = Some c ->
  open_state (getOpenState_result E (clock w0) s) = FMOD_OPENSTATE_READY ->
  exists w1, startStream E m w0 = Ok ((Some c, m), w1)
             /\ calls w1 = calls w0 ++ [GetOpenState s].
Proof.
  intros Hm Hc Hr. unfold startStream, getOpenState. rewrite Hm.
  unfold fmod_getOpenState, tick, bind, ret. cbn. rewrite Hr, Hc. cbn.
  eexists. split; reflexivity.
Qed.

Lemma startStream_cases (E : Engine) (this : LLAudioStreamManagerFMODSTUDIO)
  (s : Sound) (w : World) :
  mInternetStream this = Some s ->
  exists ch this' w',
    startStream E this w = Ok ((ch, this'), w')
    /\ mInternetStream this' = Some s
    /\ (forall c, ch = Some c -> mStreamChannel this' = Some c)
    /\ (open_state (getOpenState_result E (clock w) s) <> FMOD_OPENSTATE_READY ->
        ch = None /\ this' = this /\ calls_since w w' = [GetOpenState s])
    /\ (open_state (getOpenState_result E (clock w) s) = FMOD_OPENSTATE_READY ->
        mStreamChannel this' = ch
        /\ match mStreamChannel this with
           | Some c =>
               ch = Some c /\ this' = this
               /\ calls_since w w' = [GetOpenState s]
           | None =>
               ch = playSound_result E (S (clock w)) s
               /\ calls_since w w' = [GetOpenState s; PlaySound s]
               /\ (forall c, ch = Some c -> paused w' c = true)
           end).
Proof.
  intros Hs. unfold startStream, getOpenState. rewrite Hs.
  unfold fmod_getOpenState, fmod_playSound, set_paused, tick, bind, ret. cbn.
  destruct (open_state (getOpenState_result E (clock w) s)) eqn:Hst; cbn;
    try (eexists _, _, _; split; [reflexivity|]; split; [exact Hs|];
         split; [discriminate|];
         split; [intros _; split; [reflexivity|]; split; [reflexivity|];
                 apply calls_since_app; reflexivity|];
         discriminate).
  destruct (mStreamChannel this) as [c|] eqn:Hc; cbn.
  - eexists _, _, _. split; [reflexivity|]. split; [exact Hs|].
    split; [congruence|]. split; [congruence|].
    intros _. split; [exact Hc|]. split; [reflexivity|].
    split; [reflexivity|]. apply calls_since_app. reflexivity.
  - destruct (playSound_result E (S (clock w)) s) as [c|] eqn:Hplay; cbn.
    + eexists _, _, _. split; [reflexivity|]. split; [reflexivity|].
      split; [intros c' Hc'; exact Hc'|]. split; [congruence|].
      intros _. split; [reflexivity|]. split; [reflexivity|]. split.
      * apply calls_since_app. cbn. rewrite <- app_assoc. reflexivity.
      * intros c' Hc'. injection Hc' as <-. cbn. rewrite Nat.eqb_refl.
        reflexivity.
    + eexists _, _, _. split; [reflexivity|]. split; [reflexivity|].
      split; [discriminate|]. split; [congruence|].
      intros _. split; [reflexivity|]. split; [reflexivity|]. split.
      * apply calls_since_app. cbn. rewrite <- app_assoc. reflexivity.
      * discriminate.
Qed.

(** X3.  For a manager that holds a stream [s], [startStream] polls the
    stream once.  Unless the state is READY it returns no channel, even if
    one is cached, makes no other call and leaves the manager as it was.
    When READY, a cached channel is returned without another call;
    otherwise [playSound] is called once, its channel (which starts paused)
    is cached and returned.  A channel once returned is returned again by
    the next READY call, which does not call [playSound]. *)
Theorem startStream_plays_sound_once (E : Engine)
  (this : LLAudioStreamManagerFMODSTUDIO) (s : Sound) (w : World) :
  mInternetStream this = Some s ->
  exists ch this' w',
    startStream E this w = Ok ((ch, this'), w')
    /\ mInternetStream this' = Some s
    /\ (open_state (getOpenState_result E (clock w) s) <> FMOD_OPENSTATE_READY ->
        ch = None /\ this' = this /\ calls_since w w' = [GetOpenState s])
    /\ (open_state (getOpenState_result E (clock w) s) = FMOD_OPENSTATE_READY ->
        mStreamChannel this' = ch
        /\ match mStreamChannel this with
           | Some c =>
               ch = Some c /\ this' = this
               /\ calls_since w w' = [GetOpenState s]
           | None =>
               ch = playSound_result E (S (clock w)) s
               /\ calls_since w w' = [GetOpenState s; PlaySound s]
               /\ (forall c, ch = Some c -> paused w' c = true)
           end)
    /\ (forall c,
          ch = Some c ->
          open_state (getOpenState_result E (clock w') s) = FMOD_OPENSTATE_READY ->
          exists w'',
            startStream E this' w' = Ok ((Some c, this'), w'')
            /\ count_calls is_play_sound (calls_since w' w'') = 0%nat).
Proof.
  intros Hs.
  destruct (startStream_cases E this s w Hs)
    as (ch & this' & w' & Hrun & Hs' & Hcache & Hnot & Hready).
  exists ch, this', w'. split; [exact Hrun|]. split; [exact Hs'|].
  split; [exact Hnot|]. split; [exact Hready|].
  intros c Hch Hr.
  destruct (startStream_cached E this' s c w' Hs' (Hcache c Hch) Hr)
    as (w'' & Hrun2 & Hcalls).
  exists w''. split; [exact Hrun2|].
  rewrite (calls_since_app _ _ _ Hcalls). reflexivity.
Qed.

Lemma startStream_plays_sound_once_witness :
  exists this' w' w'',
    startStream engine_starving
      (mkLLAudioStreamManagerFMODSTUDIO None (Some 7%nat) true "http://radio/")
      world_init = Ok ((Some 3%nat, this'), w')
    /\ startStream engine_starving this' w' = Ok ((Some 3%nat, this'), w'')
    /\ count_calls is_play_sound (calls_since w' w'') = 0%nat.
Proof.
  destruct (startStream_plays_sound_once engine_starving
              (mkLLAudioStreamManagerFMODSTUDIO None (Some 7%nat) true
                 "http://radio/") 7%nat world_init eq_refl)
    as (ch & this' & w' & Hrun & _ & _ & Hready & Hagain).
  destruct (Hready eq_refl) as (_ & Hch & _). cbn in Hch. subst ch.
  destruct (Hagain 3%nat eq_refl eq_refl) as (w'' & Hrun2 & Hcount).
  exists this', w', w''. repeat split; assumption.
Defined.

Lemma manager_exec_inv (E : Engine) (url : string) (op : ManagerOp)
  (h : LLAudioStreamManagerFMODSTUDIO) (w : World) :
  manager_inv url h ->
  exists h' w', manager_exec E op h w = Ok (h', w') /\ manager_inv url h'.
Proof.
  intros (Hu & Hc & Hr). unfold manager_exec. destruct op.
  - unfold startStream, getOpenState.
    destruct (mInternetStream h) as [s|] eqn:Hs.
    + unfold fmod_getOpenState, fmod_playSound, set_paused, tick, bind, ret.
      cbn. destruct (openstate_eqb _ _); cbn.
      * destruct (mStreamChannel h) eqn:Hch; cbn.
        -- eexists _, _. split; [reflexivity|].
           unfold manager_inv. rewrite Hs, Hch. auto.
        -- destruct (playSound_result E (S (clock w)) s); cbn;
             (eexists _, _; split; [reflexivity|]; unfold manager_inv; cbn;
              split; [exact Hu|]; split; intros Hx; auto; congruence).
      * eexists _, _. split; [reflexivity|].
        unfold manager_inv. rewrite Hs. auto.
    + eexists _, _. split; [reflexivity|].
      unfold manager_inv. rewrite Hs. auto.
  - destruct (stopStream_total E h w) as (r & h' & w' & d & Hrun & _ & _ & Hkeep).
    rewrite (bind_step _ _ _ _ _ Hrun). exists h', w'. split; [reflexivity|].
    destruct r.
    + unfold stopStream, getOpenState in Hrun.
      destruct (mInternetStream h) as [s|] eqn:Hs.
      * unfold fmod_getOpenState, fmod_release, tick, bind, ret in Hrun.
        cbn in Hrun.
        destruct (open_state (getOpenState_result E (clock w) s));
          cbn in Hrun; try discriminate;
          destruct (release_result E (S (clock w)) s); cbn in Hrun;
          try discriminate; injection Hrun as <- <-;
          unfold manager_inv; cbn; (split; [exact Hu|]);
          split; intros Hx; congruence.
      * unfold ret in Hrun. injection Hrun as <- <-.
        unfold manager_inv. rewrite Hs. auto.
    + destruct (Hkeep eq_refl) as [-> _]. unfold manager_inv. auto.
Qed.

(** X4.  From its constructor on, a manager takes any sequence of
    [startStream] and [stopStream] calls without undefined behaviour,
    whether or not the engine opened its stream; it keeps its url; it has a
    channel only while it has a stream; and it has a stream only if it is
    ready. *)
Theorem manager_start_stop_always_defined (E : Engine) (url : string)
  (ops : list ManagerOp) (w : World) :
  exists h w',
    bind (new_LLAudioStreamManagerFMODSTUDIO E url) (manager_exec_all E ops) w
    = Ok (h, w')
    /\ mInternetStreamURL h = url
    /\ (mStreamChannel h <> None -> mInternetStream h <> None)
    /\ (mInternetStream h <> None -> mReady h = true).
Proof.
  assert (Hall : forall ops h0 w0,
             manager_inv url h0 ->
             exists h w', manager_exec_all E ops h0 w0 = Ok (h, w')
                          /\ manager_inv url h).
  { clear ops w. induction ops as [|op rest IH]; intros h0 w0 Hinv.
    - exists h0, w0. split; [reflexivity|exact Hinv].
    - destruct (manager_exec_inv E url op h0 w0 Hinv) as (h1 & w1 & Hrun & Hinv1).
      destruct (IH h1 w1 Hinv1) as (h & w' & Hrest & Hinv').
      exists h, w'. cbn [manager_exec_all]. rewrite (bind_step _ _ _ _ _ Hrun).
      split; assumption. }
  unfold new_LLAudioStreamManagerFMODSTUDIO, fmod_createStream.
  unfold bind at 1. unfold bind at 1. unfold bind at 1. unfold tick, ret. cbn.
  destruct (createStream_result E (clock w) url) as [s|].
  - match goal with
    | |- exists h w', manager_exec_all E ops ?h0 ?w0 = _ /\ _ =>
        destruct (Hall ops h0 w0) as (h & w' & Hrun & Hinv)
    end.
    + unfold manager_inv; cbn; split; [reflexivity|]; split; intros Hx; congruence.
    + exists h, w'. split; [exact Hrun|exact Hinv].
  - match goal with
    | |- exists h w', manager_exec_all E ops ?h0 ?w0 = _ /\ _ =>
        destruct (Hall ops h0 w0) as (h & w' & Hrun & Hinv)
    end.
    + unfold manager_inv; cbn; split; [reflexivity|]; split; intros Hx; congruence.
    + exists h, w'. split; [exact Hrun|exact Hinv].
Qed.

(** ** The dead list *)

Lemma stopStream_outcome (E : Engine) (this : LLAudioStreamManagerFMODSTUDIO)
  (w : World) :
  exists r this' w' d,
    stopStream E this w = Ok ((r, this'), w')
    /\ calls w' = calls w ++ d
    /\ clock w' = (clock w + length d)%nat
    /\ (count_calls is_release d <= 1)%nat
    /\ (length d <= 2)%nat
    /\ (r = false -> this' = this /\ mInternetStream this <> None)
    /\ (mInternetStream this = None -> r = true /\ d = [])
    /\ (forall s, mInternetStream this = Some s ->
        open_state (getOpenState_result E (clock w) s) = FMOD_OPENSTATE_CONNECTING ->
        r = false)
    /\ (forall s, mInternetStream this = Some s ->
        open_state (getOpenState_result E (clock w) s) <> FMOD_OPENSTATE_CONNECTING ->
        r = release_result E (S (clock w)) s).
Proof.
  unfold stopStream, getOpenState.
  destruct (mInternetStream this) as [s|] eqn:Hs.
  - unfold fmod_getOpenState, fmod_release, tick, bind, ret. cbn.
    destruct (open_state (getOpenState_result E (clock w) s)) eqn:Hst; cbn;
      try (destruct (release_result E (S (clock w)) s) eqn:Hrel; cbn);
      eexists _, _, _, _; (split; [reflexivity|]); cbn;
      (split; [try rewrite <- app_assoc; reflexivity|]);
      (split; [cbn; lia|]); (split; [apply Nat.leb_le; reflexivity|]);
      (split; [cbn; lia|]);
      (split; [intros Hx; try discriminate; split; congruence|]);
      (split; [discriminate|]);
      split; intros s' Hs' Hx; injection Hs' as <-; congruence.
  - exists true, this, w, []. split; [reflexivity|].
    rewrite app_nil_r. cbn. repeat split; try lia; try discriminate.
Qed.

Lemma release_dead_outcome (E : Engine) (l : list LLAudioStreamManagerFMODSTUDIO) :
  forall w : World,
    exists l' w' d,
      release_dead E l w = Ok (l', w')
      /\ l' `sublist_of` l
      /\ Forall (fun h => mInternetStream h <> None) l'
      /\ calls w' = calls w ++ d
      /\ (count_calls is_release d <= length l)%nat
      /\ (Forall (fun h => mInternetStream h = None) l -> l' = [] /\ w' = w).
Proof.
  induction l as [|h rest IH]; intros w.
  - exists [], w, []. split; [reflexivity|]. rewrite app_nil_r.
    split; [constructor|]. split; [constructor|]. split; [reflexivity|].
    split; [cbn; lia|]. auto.
  - destruct (stopStream_outcome E h w)
      as (r & h' & w1 & d1 & Hrun & Hd1 & _ & Hn1 & _ & Hkeep & Hnull & _).
    destruct (IH w1) as (l' & w' & d2 & Hrest & Hsub & Hall & Hd2 & Hn2 & Hnone).
    cbn [release_dead]. rewrite (bind_step _ _ _ _ _ Hrun).
    rewrite (bind_step _ _ _ _ _ Hrest). unfold ret.
    destruct r.
    + exists l', w', (d1 ++ d2). split; [reflexivity|].
      split; [apply sublist_cons; exact Hsub|]. split; [exact Hall|].
      split; [rewrite Hd2, Hd1, <- app_assoc; reflexivity|].
      split; [rewrite count_calls_app; cbn [length]; lia|].
      intros Hf. inversion Hf as [|? ? Hh Hr]; subst.
      destruct (Hnull Hh) as [_ ->]. rewrite app_nil_r in Hd1.
      destruct (Hnone Hr) as [-> ->]. split; [reflexivity|].
      unfold stopStream in Hrun. rewrite Hh in Hrun. unfold ret in Hrun.
      congruence.
    + destruct (Hkeep eq_refl) as [-> Hne].
      exists (h :: l'), w', (d1 ++ d2). split; [reflexivity|].
      split; [apply sublist_skip; exact Hsub|].
      split; [constructor; assumption|].
      split; [rewrite Hd2, Hd1, <- app_assoc; reflexivity|].
      split; [rewrite count_calls_app; cbn [length]; lia|].
      intros Hf. inversion Hf as [|? ? Hh Hr]; subst. congruence.
Qed.

Lemma release_dead_all_released (E : Engine)
  (l : list LLAudioStreamManagerFMODSTUDIO) :
  (forall t s,
      open_state (getOpenState_result E t s) <> FMOD_OPENSTATE_CONNECTING
      /\ release_result E t s = true) ->
  forall w, exists w', release_dead E l w = Ok ([], w').
Proof.
  intros Hrel. induction l as [|h rest IH]; intros w.
  - exists w. reflexivity.
  - destruct (stopStream_outcome E h w)
      as (r & h' & w1 & d1 & Hrun & _ & _ & _ & _ & _ & Hnull & _ & Hok).
    assert (Hr : r = true).
    { destruct (mInternetStream h) as [s|] eqn:Hs.
      - rewrite (Hok s eq_refl); apply Hrel.
      - apply Hnull. reflexivity. }
    subst r. destruct (IH w1) as (w' & Hrest).
    exists w'. cbn [release_dead]. rewrite (bind_step _ _ _ _ _ Hrun).
    rewrite (bind_step _ _ _ _ _ Hrest). reflexivity.
Qed.

(** X5.  [releaseDeadStreams] always returns.  The dead list it leaves is
    a sublist of the one it found, in the same order, made of managers that
    still hold their stream; nothing else of the controller changes.  It
    returns true exactly when the list it leaves is empty.  It calls
    [release] at most once per dead manager.  When the engine reports no
    stream as connecting and lets every release succeed, the list is left
    empty. *)
Theorem releaseDeadStreams_only_shrinks (E : Engine)
  (this : LLStreamingAudio_FMODSTUDIO) (w : World) :
  exists b l' w',
    releaseDeadStreams E this w = Ok ((b, set_dead l' this), w')
    /\ l' `sublist_of` mDeadStreams this
    /\ Forall (fun h => mInternetStream h <> None) l'
    /\ (b = true <-> l' = [])
    /\ (count_calls is_release (calls_since w w')
        <= length (mDeadStreams this))%nat
    /\ ((forall t s,
           open_state (getOpenState_result E t s) <> FMOD_OPENSTATE_CONNECTING
           /\ release_result E t s = true) ->
        l' = []).
Proof.
  destruct (release_dead_outcome E (mDeadStreams this) w)
    as (l' & w' & d & Hrun & Hsub & Hall & Hd & Hn & _).
  unfold releaseDeadStreams. rewrite (bind_step _ _ _ _ _ Hrun). unfold ret.
  eexists _, l', w'. split; [reflexivity|]. split; [exact Hsub|].
  split; [exact Hall|]. split.
  - destruct l'; split; intros Hx; congruence.
  - split; [rewrite (calls_since_app _ _ _ Hd); exact Hn|].
    intros Hrel.
    destruct (release_dead_all_released E (mDeadStreams this) Hrel w)
      as (w2 & Hrun2).
    congruence.
Qed.

(** ** Stopping, in detail *)

Lemma stopStream_stuck (E : Engine) (this : LLAudioStreamManagerFMODSTUDIO)
  (s : Sound) (w : World) :
  mInternetStream this = Some s ->
  open_state (getOpenState_result E (clock w) s) = FMOD_OPENSTATE_CONNECTING ->
  stopStream E this w
  = Ok ((false, this),
        {| clock := S (clock w); calls := calls w ++ [GetOpenState s];
           paused := paused w; dsp_active := dsp_active w; wave := wave w |}).
Proof.
  intros Hs Hc. unfold stopStream, getOpenState. rewrite Hs.
  unfold_engine. cbn. rewrite Hc. reflexivity.
Qed.

Lemma stop_detail (E : Engine) (this : LLStreamingAudio_FMODSTUDIO) (w : World) :
  exists dead' w' w1,
    stop E this w
    = Ok (mkLLStreamingAudio_FMODSTUDIO None None (mStreamDSP this) dead'
            (mURL this) EmptyString (mGain this) None, w')
    /\ gWaveBufferMinSize (wave w') = gWaveBufferMinSize (wave w)
    /\ gWaveDataBuffer (wave w') = gWaveDataBuffer (wave w)
    /\ match mStreamDSP this with
       | Some _ => gWaveDataBufferSize (wave w') = 0 /\ dsp_active w' = false
       | None => wave w' = wave w /\ dsp_active w' = dsp_active w
       end
    /\ (exists d0,
          calls w1 = calls w ++ d0
          /\ count_calls is_release d0 = O
          /\ forallb is_dsp_call d0
             = match mFMODInternetStreamChannelp this with
               | Some _ => false
               | None => true
               end
          /\ clock w1 = (clock w + length d0)%nat)
    /\ match mCurrentInternetStreamp this with
       | None => dead' = mDeadStreams this /\ w' = w1
       | Some h =>
           exists r h1,
             stopStream E h w1 = Ok ((r, h1), w')
             /\ dead' = if r : bool then mDeadStreams this
                        else mDeadStreams this ++ [h]
       end.
Proof.
  unfold stop.
  destruct this as [cur ch dsp dead url pend gain md]. cbn.
  set (m1 := match dsp with Some _ => _ | None => _ end).
  assert (H1 : exists w1 d1,
             m1 w = Ok (tt, w1) /\ calls w1 = calls w ++ d1
             /\ forallb is_dsp_call d1 = true
             /\ count_calls is_release d1 = O
             /\ gWaveBufferMinSize (wave w1) = gWaveBufferMinSize (wave w)
             /\ gWaveDataBuffer (wave w1) = gWaveDataBuffer (wave w)
             /\ match dsp with
                | Some _ => gWaveDataBufferSize (wave w1) = 0
                            /\ dsp_active w1 = false
                | None => wave w1 = wave w /\ dsp_active w1 = dsp_active w
                end
             /\ clock w1 = (clock w + length d1)%nat).
  { subst m1. destruct dsp; unfold_engine; cbn.
    - eexists _, _. split; [reflexivity|]. cbn. rewrite <- !app_assoc.
      repeat split; try reflexivity. cbn. lia.
    - exists w, []. rewrite app_nil_r. repeat split; try reflexivity.
      cbn. lia. }
  destruct H1
    as (w1 & d1 & Hm1 & Hc1 & Hq1 & Hr1 & Hmin1 & Hbuf1 & Hdsp1 & Hk1).
  rewrite (bind_step _ _ _ _ _ Hm1). clear Hm1.
  set (m2 := match ch with Some _ => _ | None => _ end).
  assert (H2 : exists w2 d2,
             m2 w1 = Ok (mkLLStreamingAudio_FMODSTUDIO cur None dsp dead url
                           EmptyString gain None, w2)
             /\ calls w2 = calls w1 ++ d2
             /\ wave w2 = wave w1 /\ dsp_active w2 = dsp_active w1
             /\ forallb is_dsp_call d2
                = match ch with Some _ => false | None => true end
             /\ count_calls is_release d2 = O
             /\ clock w2 = (clock w1 + length d2)%nat).
  { subst m2. destruct ch; unfold_engine; cbn.
    - eexists _, _. split; [reflexivity|]. cbn. rewrite <- !app_assoc.
      repeat split; try reflexivity. cbn. lia.
    - exists w1, []. rewrite app_nil_r. repeat split; try reflexivity.
      cbn. lia. }
  destruct H2 as (w2 & d2 & Hm2 & Hc2 & Hw2 & Ha2 & Hq2 & Hr2 & Hk2).
  rewrite (bind_step _ _ _ _ _ Hm2). clear Hm2. cbn.
  assert (Hcalls : exists d0,
             calls w2 = calls w ++ d0
             /\ count_calls is_release d0 = O
             /\ forallb is_dsp_call d0
                = match ch with Some _ => false | None => true end
             /\ clock w2 = (clock w + length d0)%nat).
  { exists (d1 ++ d2). split; [rewrite Hc2, Hc1, <- app_assoc; reflexivity|].
    split; [rewrite count_calls_app, Hr1, Hr2; reflexivity|].
    split; [rewrite forallb_app, Hq1, Hq2; reflexivity|].
    rewrite length_app. lia. }
  assert (Hwave : forall w',
             wave w' = wave w2 -> dsp_active w' = dsp_active w2 ->
             gWaveBufferMinSize (wave w') = gWaveBufferMinSize (wave w)
             /\ gWaveDataBuffer (wave w') = gWaveDataBuffer (wave w)
             /\ match dsp with
                | Some _ => gWaveDataBufferSize (wave w') = 0
                            /\ dsp_active w' = false
                | None => wave w' = wave w /\ dsp_active w' = dsp_active w
                end).
  { intros w' Hw Ha. rewrite Hw, Ha, Hw2, Ha2. auto. }
  destruct cur as [h|].
  - destruct (stopStream_outcome E h w2)
      as (r & h1 & w3 & d3 & Hrun & Hd3 & _ & _ & _ & Hkeep & _).
    assert (Hsame : wave w3 = wave w2 /\ dsp_active w3 = dsp_active w2).
    { clear -Hrun. unfold stopStream, getOpenState in Hrun.
      destruct (mInternetStream h) as [s|].
      - unfold fmod_getOpenState, fmod_release, tick, bind, ret in Hrun.
        cbn in Hrun.
        destruct (open_state (getOpenState_result E (clock w2) s));
          cbn in Hrun; try (destruct (release_result E (S (clock w2)) s));
          cbn in Hrun; injection Hrun as _ _ <-; split; reflexivity.
      - unfold ret in Hrun. injection Hrun as _ _ <-. split; reflexivity. }
    destruct Hsame as [Hw3 Ha3].
    rewrite (bind_step _ _ _ _ _ Hrun).
    destruct r; unfold ret; cbn.
    + exists dead, w3, w2. split; [reflexivity|].
      destruct (Hwave w3 Hw3 Ha3) as (A & B & C).
      split; [exact A|]. split; [exact B|]. split; [exact C|].
      split; [exact Hcalls|]. exists true, h1. split; [exact Hrun|reflexivity].
    + destruct (Hkeep eq_refl) as [-> _].
      exists (dead ++ [h]), w3, w2. split; [reflexivity|].
      destruct (Hwave w3 Hw3 Ha3) as (A & B & C).
      split; [exact A|]. split; [exact B|]. split; [exact C|].
      split; [exact Hcalls|]. exists false, h. split; [exact Hrun|reflexivity].
  - unfold ret. exists dead, w2, w2. split; [reflexivity|].
    destruct (Hwave w2 eq_refl eq_refl) as (A & B & C).
    split; [exact A|]. split; [exact B|]. split; [exact C|].
    split; [exact Hcalls|]. split; reflexivity.
Qed.

(** X6.  [stop] hands the current manager to [stopStream], after its own
    calls on the DSP and the channel, none of which is a release.  The
    manager is moved to the end of the dead list, unchanged, exactly when
    that [stopStream] returns false; when it returns true the dead list is
    left as it was.  So a manager without a stream is never parked; one
    whose stream is reported as connecting is parked without a release;
    and one whose stream is in any other state is parked exactly when the
    release fails.  A second [stop] right after leaves the controller as the
    first left it and calls nothing but the DSP. *)
Theorem stop_parks_manager_it_cannot_close (E : Engine)
  (this : LLStreamingAudio_FMODSTUDIO) (w : World) :
  exists this' w',
    stop E this w = Ok (this', w')
    /\ match mCurrentInternetStreamp this with
       | None => mDeadStreams this' = mDeadStreams this
       | Some h =>
           exists w1 d0 r h1,
             calls w1 = calls w ++ d0
             /\ clock w1 = (clock w + length d0)%nat
             /\ count_calls is_release d0 = O
             /\ stopStream E h w1 = Ok ((r, h1), w')
             /\ mDeadStreams this'
                = (if r : bool then mDeadStreams this
                   else mDeadStreams this ++ [h])
             /\ (mInternetStream h = None -> r = true)
             /\ (forall s, mInternetStream h = Some s ->
                 open_state (getOpenState_result E (clock w1) s)
                 = FMOD_OPENSTATE_CONNECTING ->
                 r = false
                 /\ count_calls is_release (calls_since w w') = O)
             /\ (forall s, mInternetStream h = Some s ->
                 open_state (getOpenState_result E (clock w1) s)
                 <> FMOD_OPENSTATE_CONNECTING ->
                 r = release_result E (S (clock w1)) s)
       end
    /\ exists w'',
        stop E this' w' = Ok (this', w'')
        /\ forallb is_dsp_call (calls_since w' w'') = true.
Proof.
  destruct (stop_detail E this w)
    as (dead' & w' & w1 & Hstop & _ & _ & _ & Hcalls & Hcur).
  eexists _, w'. split; [exact Hstop|]. split.
  - cbn [mDeadStreams].
    destruct (mCurrentInternetStreamp this) as [h|].
    + destruct Hcur as (r & h1 & Hrun & ->).
      destruct Hcalls as (d0 & Hd0 & Hn0 & _ & Hk0).
      destruct (stopStream_outcome E h w1)
        as (r' & h1' & w3 & d3 & Hrun' & Hd3 & _ & _ & _ & _ & Hnull & Hconn
            & Hrel).
      rewrite Hrun in Hrun'. injection Hrun' as <- <- <-.
      exists w1, d0, r, h1.
      split; [exact Hd0|]. split; [exact Hk0|]. split; [exact Hn0|].
      split; [exact Hrun|]. split; [reflexivity|].
      split; [intros Hn; apply (Hnull Hn)|]. split.
      * intros s Hs Hc. split; [exact (Hconn s Hs Hc)|].
        rewrite (stopStream_stuck E h s w1 Hs Hc) in Hrun.
        injection Hrun as _ _ <-.
        rewrite (calls_since_app w _ (d0 ++ [GetOpenState s]))
          by (cbn [calls]; rewrite Hd0, <- app_assoc; reflexivity).
        rewrite count_calls_app, Hn0. reflexivity.
      * intros s Hs Hc. exact (Hrel s Hs Hc).
    + destruct Hcur as [-> _]. reflexivity.
  - match goal with
    | |- exists w'', stop E ?t w' = _ /\ _ =>
        destruct (stop_detail E t w')
          as (dead2 & w2 & w3 & Hstop2 & _ & _ & _ & Hcalls2 & Hcur2)
    end.
    cbn in Hstop2, Hcalls2, Hcur2. destruct Hcur2 as [Hd Hw].
    subst dead2 w3.
    destruct Hcalls2 as (d0 & Hd0 & _ & Hq0 & _).
    exists w2. split; [exact Hstop2|].
    rewrite (calls_since_app _ _ _ Hd0). exact Hq0.
Qed.

Lemma getWaveData_empty (E : Engine) (that : LLStreamingAudio_FMODSTUDIO)
  (arr : list F32) (count stride : Z) (w : World) :
  U32 count <= WAVE_BUFFER_SIZE / 2 ->
  gWaveDataBufferSize (wave w) = 0 ->
  exists w', getWaveData E that arr count stride w = Ok ((false, arr), w').
Proof.
  intros Hc Hz. unfold getWaveData.
  replace (U32 count >? WAVE_BUFFER_SIZE / 2) with false
    by (symmetry; rewrite Z.gtb_ltb; apply Z.ltb_ge; exact Hc).
  destruct (mFMODInternetStreamChannelp that) as [c|];
    [|eexists; reflexivity].
  destruct (mCurrentInternetStreamp that) as [h|]; [|eexists; reflexivity].
  unfold_engine. cbn.
  destruct (getMute_result E (clock w) c); cbn; [eexists; reflexivity|].
  rewrite Hz. cbn. eexists; reflexivity.
Qed.

(** X7.  [stop] on a controller that has its DSP leaves the ring buffer
    empty (fill count 0) and the tap inactive, with the cells and the
    watermark as they were.  So the samples of the stopped stream are never
    served afterwards: in the world [stop] leaves, [getWaveData] of any
    controller, for any admissible count, returns false and leaves the
    caller's array as it was.  Without a DSP, [stop] touches neither the
    buffer nor the tap. *)
Theorem stop_empties_ring_buffer (E : Engine)
  (this : LLStreamingAudio_FMODSTUDIO) (w : World) :
  exists this' w',
    stop E this w = Ok (this', w')
    /\ gWaveBufferMinSize (wave w') = gWaveBufferMinSize (wave w)
    /\ gWaveDataBuffer (wave w') = gWaveDataBuffer (wave w)
    /\ match mStreamDSP this with
       | Some _ =>
           gWaveDataBufferSize (wave w') = 0
           /\ dsp_active w' = false
           /\ forall that arr count stride,
               U32 count <= WAVE_BUFFER_SIZE / 2 ->
               exists w'',
                 getWaveData E that arr count stride w'
                 = Ok ((false, arr), w'')
       | None => wave w' = wave w /\ dsp_active w' = dsp_active w
       end.
Proof.
  destruct (stop_detail E this w)
    as (dead' & w' & w1 & Hstop & Hmin & Hbuf & Hdsp & _).
  eexists _, w'. split; [exact Hstop|]. split; [exact Hmin|].
  split; [exact Hbuf|].
  destruct (mStreamDSP this); [|exact Hdsp].
  destruct Hdsp as [Hsz Hact]. split; [exact Hsz|]. split; [exact Hact|].
  intros that arr count stride Hc.
  apply getWaveData_empty; assumption.
Qed.

(** ** The destructor's drain loop *)

Lemma set_dead_same (this : LLStreamingAudio_FMODSTUDIO) :
  set_dead (mDeadStreams this) this = this.
Proof. destruct this; reflexivity. Qed.

Lemma set_dead_twice (l1 l2 : list LLAudioStreamManagerFMODSTUDIO)
  (this : LLStreamingAudio_FMODSTUDIO) :
  set_dead l2 (set_dead l1 this) = set_dead l2 this.
Proof. destruct this; reflexivity. Qed.

Lemma drain_dead_outcome (E : Engine) (n : nat) :
  forall (this : LLStreamingAudio_FMODSTUDIO) (w : World),
    exists k l' w',
      drain_dead E n this w = Ok ((k, set_dead l' this), w')
      /\ (k <= n)%nat
      /\ l' `sublist_of` mDeadStreams this
      /\ ((k < n)%nat -> l' = [])
      /\ ((forall t s,
              open_state (getOpenState_result E t s) <> FMOD_OPENSTATE_CONNECTING
              /\ release_result E t s = true) ->
          (0 < n)%nat -> k = O /\ l' = []).
Proof.
  induction n as [|n IH]; intros this w.
  - exists O, (mDeadStreams this), w. cbn [drain_dead]. unfold ret.
    rewrite set_dead_same. split; [reflexivity|]. split; [lia|].
    split; [reflexivity|]. split; intros; lia.
  - destruct (release_dead_outcome E (mDeadStreams this) w)
      as (l1 & w1 & d1 & Hrun & Hsub1 & _ & _ & _ & _).
    assert (Hrds : releaseDeadStreams E this w
                   = Ok ((match l1 with [] => true | _ => false end,
                          set_dead l1 this), w1)).
    { unfold releaseDeadStreams. rewrite (bind_step _ _ _ _ _ Hrun).
      reflexivity. }
    cbn [drain_dead]. rewrite (bind_step _ _ _ _ _ Hrds).
    destruct l1 as [|h1 l1].
    + exists O, [], w1. split; [reflexivity|]. split; [lia|].
      split; [exact Hsub1|]. split; auto.
    + destruct (IH (set_dead (h1 :: l1) this) w1)
        as (k & l2 & w2 & Hrec & Hk & Hsub2 & Hlt & _).
      rewrite set_dead_twice in Hrec.
      exists (S k), l2, w2. split.
      * rewrite (bind_step _ _ _ _ _ Hrec). reflexivity.
      * split; [lia|]. split.
        { etransitivity; [exact Hsub2|]. destruct this; exact Hsub1. }
        split; [intros Hx; apply Hlt; lia|].
        intros Hrel _.
        destruct (release_dead_all_released E (mDeadStreams this) Hrel w)
          as (w1' & Hrun').
        rewrite Hrun in Hrun'. discriminate.
Qed.

Lemma release_dead_stuck (E : Engine)
  (l : list LLAudioStreamManagerFMODSTUDIO) :
  (forall t s,
      open_state (getOpenState_result E t s) = FMOD_OPENSTATE_CONNECTING) ->
  Forall (fun h => mInternetStream h <> None) l ->
  forall w, exists w' d,
    release_dead E l w = Ok (l, w')
    /\ calls w' = calls w ++ d
    /\ count_calls is_release d = O.
Proof.
  intros Hconn Hall. induction Hall as [|h rest Hh Hrest IH]; intros w.
  - exists w, []. rewrite app_nil_r. repeat split; reflexivity.
  - destruct (mInternetStream h) as [s|] eqn:Hs; [|congruence].
    pose proof (stopStream_stuck E h s w Hs (Hconn _ _)) as Hrun.
    match type of Hrun with _ = Ok (_, ?w1) =>
      destruct (IH w1) as (w' & d & Hrec & Hd & Hn) end.
    exists w', (GetOpenState s :: d).
    cbn [release_dead]. rewrite (bind_step _ _ _ _ _ Hrun).
    rewrite (bind_step _ _ _ _ _ Hrec). split; [reflexivity|].
    split; [rewrite Hd; cbn; rewrite <- app_assoc; reflexivity|].
    exact Hn.
Qed.

Lemma drain_dead_stuck (E : Engine) (n : nat) :
  (forall t s,
      open_state (getOpenState_result E t s) = FMOD_OPENSTATE_CONNECTING) ->
  forall (this : LLStreamingAudio_FMODSTUDIO) (w : World),
    mDeadStreams this <> [] ->
    Forall (fun h => mInternetStream h <> None) (mDeadStreams this) ->
    exists w' d,
      drain_dead E n this w = Ok ((n, this), w')
      /\ calls w' = calls w ++ d
      /\ count_calls is_release d = O.
Proof.
  intros Hconn. induction n as [|n IH]; intros this w Hne Hall.
  - exists w, []. rewrite app_nil_r. repeat split; reflexivity.
  - destruct (release_dead_stuck E (mDeadStreams this) Hconn Hall w)
      as (w1 & d1 & Hrun & Hd1 & Hn1).
    assert (Hrds : releaseDeadStreams E this w = Ok ((false, this), w1)).
    { unfold releaseDeadStreams. rewrite (bind_step _ _ _ _ _ Hrun).
      unfold ret. rewrite set_dead_same.
      destruct (mDeadStreams this); [congruence|reflexivity]. }
    destruct (IH this w1 Hne Hall) as (w2 & d2 & Hrec & Hd2 & Hn2).
    exists w2, (d1 ++ d2).
    cbn [drain_dead]. rewrite (bind_step _ _ _ _ _ Hrds).
    rewrite (bind_step _ _ _ _ _ Hrec). split; [reflexivity|].
    split; [rewrite Hd2, Hd1, <- app_assoc; reflexivity|].
    rewrite count_calls_app, Hn1, Hn2. reflexivity.
Qed.

(** X8.  The teardown of the controller ([stop], then at most 100 rounds
    of [releaseDeadStreams] with a sleep after each round that left a
    manager) always returns.  It sleeps at most 100 times; it leaves no
    current manager and no channel; if it slept fewer than 100 times the
    dead list is empty; and on an engine that never reports a stream as
    connecting and whose [release] always succeeds it does not sleep at
    all. *)
Theorem teardown_drains_within_100_rounds (E : Engine)
  (this : LLStreamingAudio_FMODSTUDIO) (w : World) :
  exists sleeps this' w',
    destructor_drain E this w = Ok ((sleeps, this'), w')
    /\ (sleeps <= 100)%nat
    /\ mCurrentInternetStreamp this' = None
    /\ mFMODInternetStreamChannelp this' = None
    /\ ((sleeps < 100)%nat -> mDeadStreams this' = [])
    /\ ((forall t s,
            open_state (getOpenState_result E t s) <> FMOD_OPENSTATE_CONNECTING
            /\ release_result E t s = true) ->
        sleeps = O /\ mDeadStreams this' = []).
Proof.
  destruct (stop_detail E this w) as (dead1 & w1 & w0 & Hstop & _).
  match type of Hstop with _ = Ok (?t, _) =>
    destruct (drain_dead_outcome E 100 t w1)
      as (k & l' & w2 & Hrun & Hk & _ & Hlt & Hrel) end.
  eexists k, _, w2. split.
  - unfold destructor_drain. rewrite (bind_step _ _ _ _ _ Hstop).
    exact Hrun.
  - split; [exact Hk|]. split; [reflexivity|]. split; [reflexivity|].
    split; [exact Hlt|]. intros H. apply Hrel; [exact H|lia].
Qed.

(** X9.  A stream the engine keeps reporting as connecting defeats the
    teardown: with such an engine, a current manager that holds a stream,
    and a dead list of managers that hold theirs, the teardown sleeps all
    100 times, never calls [release], and ends with every one of those
    managers, the current one last, still on the dead list. *)
Theorem teardown_gives_up_on_connecting_stream (E : Engine)
  (this : LLStreamingAudio_FMODSTUDIO)
  (h : LLAudioStreamManagerFMODSTUDIO) (w : World) :
  (forall t s,
      open_state (getOpenState_result E t s) = FMOD_OPENSTATE_CONNECTING) ->
  mCurrentInternetStreamp this = Some h ->
  mInternetStream h <> None ->
  Forall (fun d => mInternetStream d <> None) (mDeadStreams this) ->
  exists this' w',
    destructor_drain E this w = Ok ((100%nat, this'), w')
    /\ mDeadStreams this' = mDeadStreams this ++ [h]
    /\ count_calls is_release (calls_since w w') = O.
Proof.
  intros Hconn Hcur Hh Hall.
  destruct (mInternetStream h) as [s|] eqn:Hs; [clear Hh|congruence].
  destruct (stop_detail E this w)
    as (dead1 & w1 & w0 & Hstop & _ & _ & _ & (d0 & Hd0 & Hn0 & _) & Hpark).
  rewrite Hcur in Hpark. destruct Hpark as (r & h1 & Hss & Hdead).
  rewrite (stopStream_stuck E h s w0 Hs (Hconn _ _)) in Hss.
  injection Hss as <- <- Hw1. subst dead1.
  match type of Hstop with _ = Ok (?t, _) =>
    destruct (drain_dead_stuck E 100 Hconn t w1)
      as (w2 & d2 & Hrun & Hd2 & Hn2) end.
  { cbn. destruct (mDeadStreams this); discriminate. }
  { cbn. apply Forall_app. split; [exact Hall|].
    constructor; [congruence|constructor]. }
  eexists _, w2. split.
  - unfold destructor_drain. rewrite (bind_step _ _ _ _ _ Hstop).
    exact Hrun.
  - split; [reflexivity|].
    rewrite (calls_since_app w w2 (d0 ++ [GetOpenState s] ++ d2)).
    + rewrite !count_calls_app, Hn0, Hn2. reflexivity.
    + rewrite Hd2, <- Hw1. cbn [calls]. rewrite Hd0, <- !app_assoc.
      reflexivity.
Qed.

Lemma teardown_gives_up_on_connecting_stream_witness :
  exists this' w',
    destructor_drain engine_connecting controller_playing world_init
    = Ok ((100%nat, this'), w')
    /\ length (mDeadStreams this') = 1%nat
    /\ count_calls is_release (calls_since world_init w') = O.
Proof.
  destruct (teardown_gives_up_on_connecting_stream engine_connecting
              controller_playing
              (mkLLAudioStreamManagerFMODSTUDIO (Some 3%nat) (Some 7%nat) true
                 "http://radio/") world_init)
    as (this' & w' & Hrun & Hdead & Hn).
  - intros t s. reflexivity.
  - reflexivity.
  - cbn. discriminate.
  - constructor.
  - exists this', w'. split; [exact Hrun|]. rewrite Hdead.
    split; [reflexivity|exact Hn].
Defined.

(** ** The moment a stream starts to play *)

Lemma startStream_total (E : Engine) (h : LLAudioStreamManagerFMODSTUDIO)
  (w : World) :
  exists ch h' w1, startStream E h w = Ok ((ch, h'), w1).
Proof.
  destruct (mInternetStream h) as [s|] eqn:Hs.
  - destruct (startStream_cases E h s w Hs) as (ch & h' & w1 & Hrun & _).
    eauto.
  - unfold startStream. rewrite Hs. eexists _, _, _. reflexivity.
Qed.

(** X10.  When [update] finds the stream ready and the controller has no
    channel yet, the manager is asked to start the stream.  If that gives a
    channel [c], then, after the manager's own calls, exactly these are
    made, in this order: [setVolume c] with the clamped square of the gain
    the controller remembers, [setActive(true)] on the DSP if there is
    one, and [setPaused c false]; the channel ends unpaused and the
    remembered gain is unchanged.  If it gives no channel, nothing more is
    called. *)
Theorem update_ready_applies_remembered_gain (E : Engine)
  (this : LLStreamingAudio_FMODSTUDIO) (h : LLAudioStreamManagerFMODSTUDIO)
  (w : World) :
  mFMODInternetStreamChannelp this = None ->
  exists ch h' w1 w',
    startStream E h w = Ok ((ch, h'), w1)
    /\ update_ready E this h w
       = Ok (set_channel ch (set_current (Some h') this), w')
    /\ match ch with
       | Some c =>
           calls_since w1 w'
           = SetVolume c (llclamp (F32.mul (mGain this) (mGain this))
                            F32.zero F32.one)
             :: match mStreamDSP this with
                | Some _ => [DSPSetActive true]
                | None => []
                end
             ++ [SetPaused c false]
           /\ paused w' c = false
           /\ dsp_active w'
              = match mStreamDSP this with
                | Some _ => true
                | None => dsp_active w1
                end
       | None => w' = w1
       end.
Proof.
  intros Hch.
  destruct (startStream_total E h w) as (ch & h' & w1 & Hrun).
  exists ch, h', w1.
  unfold update_ready. rewrite Hch. rewrite (bind_step _ _ _ _ _ Hrun).
  destruct this as [cur ch0 dsp dead url pend gain md]. cbn in Hch. subst ch0.
  destruct ch as [c|];
    [|exists w1; split; [exact Hrun|]; split; reflexivity].
  unfold setGain, getGain. cbn. unfold_engine. cbn.
  destruct dsp as [d|]; cbn.
  - eexists. split; [exact Hrun|]. split; [reflexivity|].
    split; [apply calls_since_app; cbn; rewrite <- !app_assoc; reflexivity|].
    cbn. rewrite Nat.eqb_refl. split; reflexivity.
  - eexists. split; [exact Hrun|]. split; [reflexivity|].
    split; [apply calls_since_app; cbn; rewrite <- !app_assoc; reflexivity|].
    cbn. rewrite Nat.eqb_refl. split; reflexivity.
Qed.

Lemma update_ready_applies_remembered_gain_witness :
  exists h' w',
    update_ready engine_refusing controller_idle
      (mkLLAudioStreamManagerFMODSTUDIO None (Some 7%nat) true "http://radio/")
      world_init
    = Ok (set_channel (Some 3%nat) (set_current (Some h') controller_idle), w')
    /\ paused w' 3%nat = false
    /\ dsp_active w' = true.
Proof.
  destruct (update_ready_applies_remembered_gain engine_refusing
              controller_idle
              (mkLLAudioStreamManagerFMODSTUDIO None (Some 7%nat) true
                 "http://radio/") world_init eq_refl)
    as (ch & h' & w1 & w' & Hss & Hrun & Hm).
  cbv in Hss. injection Hss as <- <- <-.
  destruct Hm as (_ & Hp & Ha).
  eexists _, w'. split; [exact Hrun|]. split; [exact Hp|exact Ha].
Defined.

(** ** A controller with nothing to do *)

Lemma update_idle (E : Engine) (char_signed : bool)
  (rawstr_to_utf8 : list byte -> list byte)
  (this : LLStreamingAudio_FMODSTUDIO) (w : World) :
  idle this -> update E char_signed rawstr_to_utf8 this w = Ok (this, w).
Proof.
  intros (Hcur & Hch & Hdead & Hpend).
  destruct this as [cur ch dsp dead url pend gain md]. cbn in *. subst.
  reflexivity.
Qed.

Lemma updates_idle (E : Engine) (char_signed : bool)
  (rawstr_to_utf8 : list byte -> list byte)
  (this : LLStreamingAudio_FMODSTUDIO) (n : nat) :
  idle this ->
  forall w, updates E char_signed rawstr_to_utf8 n this w = Ok (this, w).
Proof.
  intros Hidle. induction n as [|n IH]; intros w; cbn [updates].
  - reflexivity.
  - rewrite (bind_step _ _ _ _ _
               (update_idle E char_signed rawstr_to_utf8 this w Hidle)).
    apply IH.
Qed.

(** X11.  With no current manager, no channel, an empty dead list and no
    pending address, the controller does nothing on its own: any number of
    [update] ticks returns the controller as it was and the world as it
    was, so the engine is not called; [pause] with a positive option
    and [setGain] with the gain it already has do the same; and
    [getWaveData] with a count of at most 512 returns false without
    touching the array or the world. *)
Theorem idle_controller_never_calls_engine (E : Engine) (char_signed : bool)
  (rawstr_to_utf8 : list byte -> list byte)
  (this : LLStreamingAudio_FMODSTUDIO) (w : World) :
  idle this ->
  (forall n, updates E char_signed rawstr_to_utf8 n this w = Ok (this, w))
  /\ (forall p, 0 < p -> pause E this p w = Ok (this, w))
  /\ setGain this (getGain this) w = Ok (this, w)
  /\ (forall arr count stride,
         0 <= count <= WAVE_BUFFER_SIZE / 2 ->
         getWaveData E this arr count stride w = Ok ((false, arr), w)).
Proof.
  intros Hidle. split; [|split; [|split]].
  - intros n. apply updates_idle. exact Hidle.
  - intros p Hp. destruct Hidle as (Hcur & _). unfold pause. rewrite Hcur.
    replace (p <? 0) with false by (symmetry; apply Z.ltb_ge; lia).
    replace (p =? 0) with false by (symmetry; apply Z.eqb_neq; lia).
    reflexivity.
  - destruct Hidle as (_ & Hch & _).
    destruct this as [cur ch dsp dead url pend gain md]. cbn in *. subst.
    reflexivity.
  - intros arr count stride Hc. destruct Hidle as (_ & Hch & _).
    unfold getWaveData. rewrite Hch.
    assert (Hu : U32 count = count).
    { apply U32_small. unfold WAVE_BUFFER_SIZE in Hc.
      change (1024 / 2) with 512 in Hc. lia. }
    rewrite Hu.
    replace (count >? WAVE_BUFFER_SIZE / 2) with false
      by (symmetry; rewrite Z.gtb_ltb; apply Z.ltb_ge; lia).
    reflexivity.
Qed.

Lemma idle_controller_never_calls_engine_witness :
  updates engine_connecting false (fun b => b) 5 controller_idle world_init
  = Ok (controller_idle, world_init).
Proof.
  assert (Hidle : idle controller_idle) by (repeat split; reflexivity).
  exact (proj1 (idle_controller_never_calls_engine engine_connecting false
                  (fun b => b) controller_idle world_init Hidle) 5%nat).
Defined.

(** X12.  The controller the constructor returns is in that state: it has
    no current manager, no channel, no dead stream and no pending or
    remembered address, so it reports [isPlaying] 0, its gain is 1, and
    ticks after the constructor call the engine no more.  The constructor
    itself makes five calls, of which the last deactivates the tap, and
    does not touch the ring buffer. *)
Theorem constructed_controller_is_idle (E : Engine) (w : World)
  (this : LLStreamingAudio_FMODSTUDIO) (w' : World) :
  new_LLStreamingAudio_FMODSTUDIO E w = Ok (this, w') ->
  idle this
  /\ isPlaying this = 0
  /\ getGain this = F32.one
  /\ getURL this = EmptyString
  /\ dsp_active w' = false
  /\ wave w' = wave w
  /\ calls_since w w'
     = [SetStreamBufferSize 163840; CreateChannelGroup; CreateDSP; AddDSP;
        DSPSetActive false]
  /\ forall char_signed rawstr_to_utf8 n,
       updates E char_signed rawstr_to_utf8 n this w' = Ok (this, w').
Proof.
  unfold new_LLStreamingAudio_FMODSTUDIO. unfold_engine. cbn.
  destruct (createChannelGroup_result E _); [|discriminate].
  destruct (createDSP_result E _); [|discriminate].
  intros H. injection H as <- <-. cbn [dsp_active wave].
  split; [repeat split; reflexivity|].
  do 5 (split; [reflexivity|]).
  split; [apply calls_since_app; cbn; rewrite <- !app_assoc; reflexivity|].
  intros cs raw n. apply updates_idle. repeat split; reflexivity.
Qed.

Lemma constructed_controller_is_idle_witness :
  exists this w',
    new_LLStreamingAudio_FMODSTUDIO engine_connecting world_init
    = Ok (this, w')
    /\ isPlaying this = 0
    /\ length (calls w') = 5%nat.
Proof.
  eexists _, _. split; [reflexivity|].
  destruct (constructed_controller_is_idle engine_connecting world_init _ _
              eq_refl) as (_ & Hp & _ & _ & _ & _ & Hc & _).
  split; [exact Hp|reflexivity].
Defined.

(** ** Buffer sizes *)

Lemma stream_buffer_bytes (ms : Z) :
  U32 (U32 (ms / 1000 * 128) * 128) = (ms / 1000 * 16384) mod 2 ^ 32.
Proof.
  unfold U32. rewrite Z.mul_mod_idemp_l by lia. f_equal. lia.
Qed.

(** X13.  [setBufferSizes] makes two engine calls: [setStreamBufferSize],
    then [setAdvancedSettings] with the decode-buffer time as it was
    given.  The byte count of the first is the stream-buffer time in whole
    seconds times 16384, in 32-bit unsigned arithmetic: the milliseconds
    beyond the last whole second are dropped, so anything under one second
    asks for 0 bytes, and up to 262143 seconds the product is exact. *)
Theorem setBufferSizes_counts_whole_seconds
  (streambuffertime decodebuffertime : Z) (w : World) :
  0 <= streambuffertime < 2 ^ 32 ->
  exists bytes w',
    setBufferSizes streambuffertime decodebuffertime w = Ok (tt, w')
    /\ calls_since w w'
       = [SetStreamBufferSize bytes; SetAdvancedSettings decodebuffertime]
    /\ bytes = (streambuffertime / 1000 * 16384) mod 2 ^ 32
    /\ (streambuffertime < 1000 -> bytes = 0)
    /\ (streambuffertime < 262144000 ->
        bytes = streambuffertime / 1000 * 16384)
    /\ (forall t, 0 <= t < 1000 ->
        setBufferSizes (streambuffertime - streambuffertime mod 1000 + t)
          decodebuffertime w
        = setBufferSizes streambuffertime decodebuffertime w).
Proof.
  intros Hs. unfold setBufferSizes. unfold_engine. cbn.
  rewrite stream_buffer_bytes.
  eexists _, _. split; [reflexivity|].
  split; [apply calls_since_app; cbn; rewrite <- app_assoc; reflexivity|].
  split; [reflexivity|].
  split; [|split].
  - intros Hlt. rewrite Z.div_small by lia. reflexivity.
  - intros Hlt. apply Z.mod_small.
    assert (streambuffertime / 1000 < 262144)
      by (apply Z.div_lt_upper_bound; lia).
    assert (0 <= streambuffertime / 1000) by (apply Z.div_pos; lia).
    lia.
  - intros t Ht. rewrite stream_buffer_bytes.
    replace ((streambuffertime - streambuffertime mod 1000 + t) / 1000)
      with (streambuffertime / 1000); [reflexivity|].
    pose proof (Z.div_mod streambuffertime 1000 ltac:(lia)) as Hdm.
    replace (streambuffertime - streambuffertime mod 1000 + t)
      with (t + (streambuffertime / 1000) * 1000) by lia.
    rewrite Z.div_add by lia. rewrite (Z.div_small t) by lia. lia.
Qed.

Lemma setBufferSizes_counts_whole_seconds_witness :
  exists w',
    setBufferSizes 10999 200 world_init = Ok (tt, w')
    /\ calls w' = [SetStreamBufferSize 163840; SetAdvancedSettings 200].
Proof.
  destruct (setBufferSizes_counts_whole_seconds 10999 200 world_init
              ltac:(lia))
    as (bytes & w' & Hrun & _).
  exists w'. split; [exact Hrun|].
  cbv in Hrun. injection Hrun as <-. reflexivity.
Defined.

(** ** Tags *)

(** X14.  A tag of the engine's own type is never stored.  If its name is
    "Sample Rate Change" in any letter case, the first four bytes of its
    payload are handed to [setFrequency] on the channel, and that is the
    only call; a payload shorter than four bytes is read out of bounds.
    Under any other name nothing is called. *)
Theorem engine_tag_sets_frequency_and_is_not_stored (char_signed : bool)
  (rawstr_to_utf8 : list byte -> list byte) (c : Channel) (tag : FMOD_TAG)
  (md : gmap string LLSD) (w : World) :
  tag_type tag = FMOD_TAGTYPE_FMOD ->
  (compareInsensitive (tag_name tag) "Sample Rate Change" <> 0 ->
   store_tag char_signed rawstr_to_utf8 c tag md w = Ok (md, w))
  /\ (compareInsensitive (tag_name tag) "Sample Rate Change" = 0 ->
      (4 <= length (tag_data tag))%nat ->
      exists w',
        store_tag char_signed rawstr_to_utf8 c tag md w = Ok (md, w')
        /\ calls_since w w' = [SetFrequency c (firstn 4 (tag_data tag))]
        /\ paused w' = paused w)
  /\ (compareInsensitive (tag_name tag) "Sample Rate Change" = 0 ->
      (length (tag_data tag) < 4)%nat ->
      store_tag char_signed rawstr_to_utf8 c tag md w = Undef).
Proof.
  intros Ht. unfold store_tag, translate_name. rewrite Ht.
  split; [|split].
  - intros Hn. apply Z.eqb_neq in Hn. rewrite Hn. reflexivity.
  - intros Hn Hlen. rewrite Hn. cbn [Z.eqb]. unfold read_raw.
    replace (Nat.leb 4 (length (tag_data tag))) with true
      by (symmetry; apply Nat.leb_le; exact Hlen).
    unfold_engine. cbn. eexists. split; [reflexivity|].
    split; [apply calls_since_app; reflexivity|reflexivity].
  - intros Hn Hlen. rewrite Hn. cbn [Z.eqb]. unfold read_raw.
    replace (Nat.leb 4 (length (tag_data tag))) with false
      by (symmetry; apply Nat.leb_gt; exact Hlen).
    reflexivity.
Qed.

Lemma engine_tag_sets_frequency_and_is_not_stored_witness :
  exists w',
    store_tag false (fun b => b) 3%nat
      (mkTag FMOD_TAGTYPE_FMOD FMOD_TAGDATATYPE_FLOAT "sample rate change"
         [Byte.x00; Byte.x00; Byte.x2c; Byte.x47; Byte.x00])
      ∅ world_init
    = Ok (∅, w')
    /\ calls w'
       = [SetFrequency 3%nat [Byte.x00; Byte.x00; Byte.x2c; Byte.x47]].
Proof.
  destruct (engine_tag_sets_frequency_and_is_not_stored false (fun b => b)
              3%nat
              (mkTag FMOD_TAGTYPE_FMOD FMOD_TAGDATATYPE_FLOAT
                 "sample rate change"
                 [Byte.x00; Byte.x00; Byte.x2c; Byte.x47; Byte.x00])
              ∅ world_init eq_refl) as (_ & Hset & _).
  destruct (Hset eq_refl ltac:(cbn; lia)) as (w' & Hrun & Hcalls & _).
  exists w'. split; [exact Hrun|]. exact Hcalls.
Defined.

Lemma translate_name_key (c : Channel) (tag : FMOD_TAG) (w : World)
  (k : string) (w' : World) :
  translate_name c tag w = Ok (Some k, w') ->
  tag_type tag <> FMOD_TAGTYPE_FMOD
  /\ (k = "TITLE"%string \/ k = "ARTIST"%string \/ k = tag_name tag).
Proof.
  unfold translate_name.
  assert (Hup : forall a b : string,
             compareInsensitive a b = 0 -> toUpper a = toUpper b).
  { intros a b. unfold compareInsensitive.
    destruct (String.eqb (toUpper a) (toUpper b)) eqn:He; [|discriminate].
    intros _. apply String.eqb_eq. exact He. }
  destruct (tag_type tag) eqn:Ht;
    try (intros H; inv_ret H; split; [discriminate|];
         destruct (compareInsensitive (tag_name tag) "TITLE" =? 0) eqn:H1;
         [apply Z.eqb_eq, Hup in H1; rewrite H1; left; reflexivity|];
         destruct (compareInsensitive (tag_name tag) "ARTIST" =? 0) eqn:H2;
         [apply Z.eqb_eq, Hup in H2; rewrite H2; right; left; reflexivity|];
         right; right; reflexivity).
  - intros H. inv_ret H. split; [discriminate|].
    destruct (compareInsensitive _ _ =? 0); [left; reflexivity|].
    destruct (String.eqb _ _); [right; left|right; right]; reflexivity.
  - intros H. inv_ret H. split; [discriminate|].
    destruct (compareInsensitive _ _ =? 0); [left; reflexivity|].
    destruct (compareInsensitive _ _ =? 0); [right; left|right; right];
      reflexivity.
  - intros H. inv_bind H. unfold ret in H. discriminate.
Qed.

Lemma store_tag_grows (char_signed : bool)
  (rawstr_to_utf8 : list byte -> list byte) (c : Channel) (tag : FMOD_TAG)
  (md : gmap string LLSD) (w : World) (md' : gmap string LLSD) (w' : World) :
  store_tag char_signed rawstr_to_utf8 c tag md w = Ok (md', w') ->
  (md' = md
   \/ exists k v,
       md' = <[k:=v]> md
       /\ tag_type tag <> FMOD_TAGTYPE_FMOD
       /\ decode_payload char_signed rawstr_to_utf8 tag = Ok (Some v)
       /\ (k = "TITLE"%string \/ k = "ARTIST"%string \/ k = tag_name tag))
  /\ (forall k, is_Some (md !! k) -> is_Some (md' !! k)).
Proof.
  unfold store_tag. intros H. inv_bind H.
  destruct a as [k|]; [|inv_ret H; split; [left; reflexivity|auto]].
  apply translate_name_key in Hm as [Hty Hk].
  inv_bind H. apply lift_res_Ok in Hm as [Hv ->].
  destruct a as [v|]; inv_ret H; [|split; [left; reflexivity|auto]].
  split.
  - right. exists k, v. auto.
  - intros k' Hk'. destruct (decide (k = k')) as [->|Hne].
    + rewrite lookup_insert_eq. eexists; reflexivity.
    + rewrite lookup_insert_ne by exact Hne. exact Hk'.
Qed.

(** X15.  One tag changes the metadata by at most one entry, and never
    removes one.  The entry it writes is the decoded payload, under "TITLE",
    "ARTIST" or the tag's own name.  A tag of the engine's own type, a
    binary payload and a CD table of contents write nothing. *)
Theorem store_tag_writes_at_most_one_entry (char_signed : bool)
  (rawstr_to_utf8 : list byte -> list byte) (c : Channel) (tag : FMOD_TAG)
  (md : gmap string LLSD) (w : World) (md' : gmap string LLSD) (w' : World) :
  store_tag char_signed rawstr_to_utf8 c tag md w = Ok (md', w') ->
  (md' = md
   \/ exists k v,
       md' = <[k:=v]> md
       /\ decode_payload char_signed rawstr_to_utf8 tag = Ok (Some v)
       /\ (k = "TITLE"%string \/ k = "ARTIST"%string \/ k = tag_name tag))
  /\ (forall k, is_Some (md !! k) -> is_Some (md' !! k))
  /\ (tag_type tag = FMOD_TAGTYPE_FMOD
      \/ tag_datatype tag = FMOD_TAGDATATYPE_BINARY
      \/ tag_datatype tag = FMOD_TAGDATATYPE_CDTOC ->
      md' = md).
Proof.
  intros H. destruct (store_tag_grows _ _ _ _ _ _ _ _ H) as [Hcase Hkeep].
  split; [|split; [exact Hkeep|]].
  - destruct Hcase as [->|(k & v & -> & _ & Hv & Hk)]; [left; reflexivity|].
    right. exists k, v. auto.
  - intros Hno.
    destruct Hcase as [->|(k & v & -> & Hty & Hv & _)]; [reflexivity|].
    exfalso. destruct Hno as [Hf|[Hb|Hb]]; [contradiction| |];
      unfold decode_payload in Hv; rewrite Hb in Hv; discriminate.
Qed.

Lemma store_tag_writes_at_most_one_entry_witness :
  exists md' w',
    store_tag false (fun b => b) 3%nat tag_marker_title ∅ world_init
    = Ok (md', w')
    /\ is_Some (md' !! "TITLE"%string).
Proof.
  assert (Hrun : store_tag false (fun b => b) 3%nat tag_marker_title ∅
                   world_init
                 = Ok (<["TITLE"%string := LLSD_String [Byte.x41]]> ∅,
                       world_init)) by reflexivity.
  destruct (store_tag_writes_at_most_one_entry _ _ _ _ _ _ _ _ Hrun)
    as (_ & _ & _).
  eexists _, _. split; [exact Hrun|].
  rewrite lookup_insert_eq. eexists; reflexivity.
Defined.

Lemma store_tag_trace (char_signed : bool)
  (rawstr_to_utf8 : list byte -> list byte) (c : Channel) (tag : FMOD_TAG)
  (md : gmap string LLSD) (w : World) (md' : gmap string LLSD) (w' : World) :
  store_tag char_signed rawstr_to_utf8 c tag md w = Ok (md', w') ->
  exists d, calls w' = calls w ++ d /\ List.filter is_get_tag d = [].
Proof.
  unfold store_tag. intros H. inv_bind H.
  assert (Ht : exists d, calls w0 = calls w ++ d
                         /\ List.filter is_get_tag d = []).
  { unfold translate_name in Hm.
    destruct (tag_type tag);
      try (inv_ret Hm; exists []; rewrite app_nil_r; split; reflexivity).
    inv_bind Hm. inv_ret Hm.
    destruct (compareInsensitive _ _ =? 0).
    - inv_bind Hm0. apply lift_res_Ok in Hm as [_ ->].
      unfold fmod_setFrequency in Hm0. inv_bind Hm0. inv_ret Hm0.
      unfold tick in Hm. injection Hm as _ <-. cbn.
      eexists. split; reflexivity.
    - inv_ret Hm0. exists []. rewrite app_nil_r. split; reflexivity. }
  destruct a as [k|]; [|inv_ret H; exact Ht].
  inv_bind H. apply lift_res_Ok in Hm0 as [_ ->].
  destruct a; inv_ret H; exact Ht.
Qed.

Lemma tag_loop_trace (E : Engine) (char_signed : bool)
  (rawstr_to_utf8 : list byte -> list byte) (s : Sound) (c : Channel)
  (n : nat) :
  forall (i : Z) (md : gmap string LLSD) (w : World)
         (md' : gmap string LLSD) (w' : World),
    tag_loop E char_signed rawstr_to_utf8 s c n i md w = Ok (md', w') ->
    (exists d,
        calls w' = calls w ++ d
        /\ List.filter is_get_tag d
           = map (fun k => GetTag s (i + Z.of_nat k)) (seq 0 n))
    /\ (forall k, is_Some (md !! k) -> is_Some (md' !! k)).
Proof.
  induction n as [|n IH]; intros i md w md' w' H; cbn [tag_loop] in H.
  - inv_ret H. split; [|auto]. exists []. rewrite app_nil_r.
    split; reflexivity.
  - inv_bind H. unfold fmod_getTag in Hm. inv_bind Hm. inv_ret Hm.
    unfold tick in Hm0. injection Hm0 as <- <-.
    inv_bind H. apply IH in H as ((d2 & Hd2 & Hf2) & Hkeep2).
    assert (Hstep : (exists d1, calls w0 = (calls w ++ [GetTag s i]) ++ d1
                                /\ List.filter is_get_tag d1 = [])
                    /\ (forall k, is_Some (md !! k) -> is_Some (a !! k))).
    { destruct (getTag_result E (clock w) s i) as [tag|].
      - split; [exact (store_tag_trace _ _ _ _ _ _ _ _ Hm)|].
        exact (proj2 (store_tag_grows _ _ _ _ _ _ _ _ Hm)).
      - inv_ret Hm. split; [|auto]. exists []. rewrite app_nil_r.
        split; reflexivity. }
    destruct Hstep as ((d1 & Hd1 & Hf1) & Hkeep1).
    split; [|intros k Hk; apply Hkeep2, Hkeep1, Hk].
    exists (GetTag s i :: d1 ++ d2). split.
    + rewrite Hd2, Hd1, <- !app_assoc. reflexivity.
    + cbn [List.filter is_get_tag]. rewrite List.filter_app, Hf1, Hf2.
      cbn [app seq map]. rewrite Z.add_0_r. f_equal.
      rewrite <- seq_shift, map_map. apply map_ext. intros k. f_equal. lia.
Qed.

(** X16.  The tag loop asks the engine for each index once, in ascending
    order, [i, i+1, ..., i+n-1], whether or not a tag is refused on the way;
    it never removes an entry the metadata already had; and, when every tag
    the engine hands out has a payload as long as its type needs, it
    returns. *)
Theorem tag_loop_reads_each_index_once (E : Engine) (char_signed : bool)
  (rawstr_to_utf8 : list byte -> list byte) (s : Sound) (c : Channel)
  (n : nat) (i : Z) (md : gmap string LLSD) (w : World) :
  tags_ok E ->
  exists md' w',
    tag_loop E char_signed rawstr_to_utf8 s c n i md w = Ok (md', w')
    /\ List.filter is_get_tag (calls_since w w')
       = map (fun k => GetTag s (i + Z.of_nat k)) (seq 0 n)
    /\ (forall k, is_Some (md !! k) -> is_Some (md' !! k))
    /\ paused w' = paused w.
Proof.
  intros Hok.
  destruct (tag_loop_total E char_signed rawstr_to_utf8 s c n Hok i md w)
    as (md' & w' & Hrun).
  exists md', w'. split; [exact Hrun|].
  destruct (tag_loop_trace _ _ _ _ _ _ _ _ _ _ _ Hrun)
    as ((d & Hd & Hf) & Hkeep).
  split; [rewrite (calls_since_app _ _ _ Hd); exact Hf|].
  split; [exact Hkeep|].
  apply tag_loop_quiet in Hrun as [Hp _]. exact Hp.
Qed.

Lemma tag_loop_reads_each_index_once_witness :
  exists md' w',
    tag_loop engine_starving false (fun b => b) 7%nat 3%nat 2 0 ∅ world_init
    = Ok (md', w')
    /\ List.filter is_get_tag (calls_since world_init w')
       = [GetTag 7%nat 0; GetTag 7%nat 1].
Proof.
  assert (Hok : tags_ok engine_starving)
    by (intros t s i tag H; discriminate H).
  destruct (tag_loop_reads_each_index_once engine_starving false
              (fun b => b) 7%nat 3%nat 2 0 ∅ world_init Hok)
    as (md' & w' & Hrun & Hf & _).
  exists md', w'. split; [exact Hrun|exact Hf].
Defined.

Lemma update_channel_unfold (E : Engine) (char_signed : bool)
  (rawstr_to_utf8 : list byte -> list byte)
  (this : LLStreamingAudio_FMODSTUDIO) (oi : OpenInfo) (c : Channel)
  (w : World) :
  mFMODInternetStreamChannelp this = Some c ->
  let md0 := match mMetaData this with Some m => m | None => ∅ end in
  let w1 := {| clock := S (clock w); calls := calls w ++ [GetCurrentSound c];
               paused := paused w; dsp_active := dsp_active w;
               wave := wave w |} in
  update_channel E char_signed rawstr_to_utf8 this oi w
  = match getCurrentSound_result E (clock w) c with
    | None => Ok (set_metadata (Some md0) this, w1)
    | Some s =>
        let w2 := {| clock := S (S (clock w));
                     calls := (calls w ++ [GetCurrentSound c])
                              ++ [GetNumTags s];
                     paused := paused w; dsp_active := dsp_active w;
                     wave := wave w |} in
        bind (match getNumTags_result E (S (clock w)) s with
              | Some (tagcount, dirtytagcount) =>
                  if negb (dirtytagcount =? 0)
                  then tag_loop E char_signed rawstr_to_utf8 s c
                         (Z.to_nat tagcount) 0 ∅
                  else ret md0
              | None => ret md0
              end)
          (fun md =>
             bind (starvation_policy c oi)
               (fun _ => ret (set_metadata (Some md) this))) w2
    end.
Proof.
  intros Hch. destruct this as [cur ch dsp dead url pend gain md].
  cbn in Hch. subst ch.
  unfold update_channel. cbn [mFMODInternetStreamChannelp].
  unfold fmod_getCurrentSound at 1. unfold bind at 1. unfold bind at 1.
  unfold tick at 1. unfold ret at 1.
  destruct (getCurrentSound_result E (clock w) c) as [s|]; [|reflexivity].
  unfold fmod_getNumTags at 1. unfold bind at 1. unfold bind at 1.
  unfold tick at 1. unfold ret at 1. cbn [clock].
  destruct (getNumTags_result E (S (clock w)) s) as [[tc dc]|]; reflexivity.
Qed.


(** X17.  What a tick does to the metadata of a controller with a channel.
    If the engine gives no current sound for the channel, that one call is
    the only one made: the tags are not read and the starvation policy is
    not run, so the pause flags stay as they are.  If it gives a sound
    whose tags are not marked as changed (or whose tag count cannot be
    read), no tag is read and the metadata is left as it was, or created
    empty if there was none.  If the tags are marked as changed, the
    metadata is rebuilt from nothing: the tick does the same whatever
    metadata the controller had. *)
Theorem update_channel_metadata_rules (E : Engine) (char_signed : bool)
  (rawstr_to_utf8 : list byte -> list byte)
  (this : LLStreamingAudio_FMODSTUDIO) (oi : OpenInfo) (c : Channel)
  (w : World) :
  mFMODInternetStreamChannelp this = Some c ->
  let md0 := match mMetaData this with Some m => m | None => ∅ end in
  (getCurrentSound_result E (clock w) c = None ->
   exists w',
     update_channel E char_signed rawstr_to_utf8 this oi w
     = Ok (set_metadata (Some md0) this, w')
     /\ calls_since w w' = [GetCurrentSound c]
     /\ paused w' = paused w)
  /\ (forall s,
         getCurrentSound_result E (clock w) c = Some s ->
         match getNumTags_result E (S (clock w)) s with
         | Some (_, dirtytagcount) => dirtytagcount = 0
         | None => True
         end ->
         exists w',
           update_channel E char_signed rawstr_to_utf8 this oi w
           = Ok (set_metadata (Some md0) this, w')
           /\ List.filter is_get_tag (calls_since w w') = [])
  /\ (forall s tagcount dirtytagcount,
         getCurrentSound_result E (clock w) c = Some s ->
         getNumTags_result E (S (clock w)) s
         = Some (tagcount, dirtytagcount) ->
         dirtytagcount <> 0 ->
         forall m,
           update_channel E char_signed rawstr_to_utf8
             (set_metadata m this) oi w
           = update_channel E char_signed rawstr_to_utf8 this oi w).
Proof.
  intros Hch md0.
  pose proof (update_channel_unfold E char_signed rawstr_to_utf8 this oi c w
                Hch) as Hu. cbv zeta in Hu. fold md0 in Hu.
  split; [|split].
  - intros Hs. rewrite Hu, Hs.
    eexists. split; [reflexivity|].
    split; [apply calls_since_app; reflexivity|reflexivity].
  - intros s Hs Hclean. rewrite Hu, Hs.
    set (w2 := {| clock := S (S (clock w));
                  calls := (calls w ++ [GetCurrentSound c]) ++ [GetNumTags s];
                  paused := paused w; dsp_active := dsp_active w;
                  wave := wave w |}).
    assert (Hmd : (match getNumTags_result E (S (clock w)) s with
                   | Some (tagcount, dirtytagcount) =>
                       if negb (dirtytagcount =? 0)
                       then tag_loop E char_signed rawstr_to_utf8 s c
                              (Z.to_nat tagcount) 0 ∅
                       else ret md0
                   | None => ret md0
                   end) w2 = Ok (md0, w2)).
    { destruct (getNumTags_result E (S (clock w)) s) as [[tc dc]|];
        [|reflexivity].
      subst dc. reflexivity. }
    rewrite (bind_step _ _ _ _ _ Hmd).
    destruct (starvation_policy_spec c oi w2) as (w3 & Hpol & Hshape).
    rewrite (bind_step _ _ _ _ _ Hpol). unfold ret.
    exists w3. split; [reflexivity|].
    assert (Hd : exists d, calls w3 = calls w2 ++ d
                           /\ List.filter is_get_tag d = []).
    { destruct (starving oi).
      - destruct (paused w2 c); destruct Hshape as [-> _];
          eexists; split; reflexivity.
      - destruct (percentbuffered oi >? 80); destruct Hshape as [-> _].
        + eexists; split; reflexivity.
        + exists []. rewrite app_nil_r. split; reflexivity. }
    destruct Hd as (d & Hd & Hf).
    rewrite (calls_since_app w w3 ([GetCurrentSound c; GetNumTags s] ++ d)).
    + rewrite List.filter_app, Hf. reflexivity.
    + rewrite Hd. subst w2. cbn [calls]. rewrite <- !app_assoc. reflexivity.
  - intros s tc dc Hs Hnt Hdirty m. rewrite Hu.
    rewrite (update_channel_unfold E char_signed rawstr_to_utf8
               (set_metadata m this) oi c w)
      by (destruct this; exact Hch).
    cbv zeta. rewrite Hs, Hnt.
    apply Z.eqb_neq in Hdirty. rewrite Hdirty. cbn [negb].
    destruct this; reflexivity.
Qed.

Lemma update_channel_metadata_rules_witness :
  exists w',
    update_channel engine_connecting false (fun b => b) controller_playing
      (mkOpenInfo FMOD_OPENSTATE_READY 10 true false) world_init
    = Ok (controller_playing, w')
    /\ calls_since world_init w' = [GetCurrentSound 3%nat].
Proof.
  destruct (update_channel_metadata_rules engine_connecting false
              (fun b => b) controller_playing
              (mkOpenInfo FMOD_OPENSTATE_READY 10 true false) 3%nat
              world_init eq_refl) as (Hnone & _).
  destruct (Hnone eq_refl) as (w' & Hrun & Hcalls & _).
  exists w'. split; [exact Hrun|exact Hcalls].
Defined.

(** ** The callback, block by block *)

Lemma slice_S {A} (l : list A) (off n : nat) (x : A) :
  l !! off = Some x -> slice l off (S n) = x :: slice l (S off) n.
Proof.
  intros Hx. unfold slice.
  rewrite (drop_S l x off Hx). reflexivity.
Qed.

Lemma mix_total_fold (inbuffer : list F32) (base : nat) (n : nat) :
  forall (j0 : nat) (total : F32),
    (base + j0 + n <= length inbuffer)%nat ->
    mix_total inbuffer base n j0 total
    = Ok (fold_left F32.add (slice inbuffer (base + j0) n) total).
Proof.
  induction n as [|n IH]; intros j0 total H; cbn [mix_total].
  - unfold slice. rewrite firstn_O. reflexivity.
  - destruct (lookup_lt_is_Some_2 inbuffer (base + j0)) as [x Hx]; [lia|].
    unfold load. rewrite Hx. cbn [rbind].
    rewrite IH by lia. rewrite (slice_S _ _ _ _ Hx).
    replace (base + S j0)%nat with (S (base + j0)) by lia. reflexivity.
Qed.

Lemma mix_down_frames (inbuffer : list F32) (inchannels : Z) (n : nat) :
  forall (i0 : nat) (lb : list F32),
    ((i0 + n) * Z.to_nat inchannels <= length inbuffer)%nat ->
    (i0 + n <= length lb)%nat ->
    mix_down inbuffer inchannels n i0 lb
    = Ok (firstn i0 lb
          ++ map (frame_mean inbuffer inchannels) (seq i0 n)
          ++ skipn (i0 + n) lb).
Proof.
  induction n as [|n IH]; intros i0 lb Hin Hlb; cbn [mix_down].
  - cbn [seq map app]. rewrite Nat.add_0_r, firstn_skipn. reflexivity.
  - rewrite (mix_total_fold inbuffer (i0 * Z.to_nat inchannels)
               (Z.to_nat inchannels) 0 F32.zero) by nia.
    cbn [rbind]. unfold store.
    replace (Nat.ltb i0 (length lb)) with true
      by (symmetry; apply Nat.ltb_lt; lia).
    cbn [rbind]. rewrite IH; [|exact (eq_ind _ (fun k => (k * _ <= _)%nat) Hin _ (eq_sym (Nat.add_succ_comm i0 n)))|rewrite length_insert; lia].
    f_equal. cbn [seq map].
    rewrite (take_S_r _ i0 (frame_mean inbuffer inchannels i0)).
    + rewrite take_insert_ge by lia. rewrite <- app_assoc. cbn [app].
      rewrite drop_insert_lt by lia.
      replace (S i0 + n)%nat with (i0 + S n)%nat by lia.
      unfold frame_mean. rewrite ?Nat.add_0_r. reflexivity.
    + unfold frame_mean. rewrite ?Nat.add_0_r.
      apply list_lookup_insert_eq. lia.
Qed.

Lemma wave_push_fits (n : nat) :
  forall w : Wave,
    wave_wf w -> (n <= length (local_buf w))%nat ->
    gWaveDataBufferSize w + Z.of_nat n <= WAVE_BUFFER_SIZE ->
    exists w',
      wave_push n w = Ok w'
      /\ wave_wf w'
      /\ gWaveBufferMinSize w' = gWaveBufferMinSize w
      /\ local_buf w' = local_buf w
      /\ gWaveDataBufferSize w' = gWaveDataBufferSize w + Z.of_nat n
      /\ wave_view w' = firstn n (local_buf w) ++ wave_view w.
Proof.
  induction n as [|n IH]; intros w Hwf Hn Hfit; cbn [wave_push].
  - exists w. split; [reflexivity|]. split; [exact Hwf|].
    split; [reflexivity|]. split; [reflexivity|]. split; [lia|reflexivity].
  - destruct (lookup_lt_is_Some_2 (local_buf w) n) as [x Hx]; [lia|].
    unfold load. rewrite Hx. cbn [rbind].
    destruct (wave_store_spec x w Hwf)
      as (w1 & Hst & Hwf1 & Hm1 & Hlb1 & Hlt & _).
    rewrite Hst. cbn [rbind].
    destruct Hlt as [Hsz1 Hv1]; [lia|].
    destruct (IH w1 Hwf1) as (w' & Hp & Hwf' & Hm' & Hlb' & Hsz' & Hv');
      [rewrite Hlb1; lia|lia|].
    exists w'. split; [exact Hp|]. split; [exact Hwf'|].
    split; [congruence|]. split; [congruence|]. split; [lia|].
    rewrite Hv', Hv1, Hlb1, (take_S_r _ _ _ Hx), <- app_assoc. reflexivity.
Qed.

(** X18.  The callback hands the audio through: for a block of [len]
    frames of [inchannels] channels, the first [len * inchannels] cells of
    the output buffer become those of the input buffer and the rest of the
    output buffer is left as it was, whatever the state of the ring buffer.
    A block of no frames, or of no channels, changes neither the output
    buffer nor the ring buffer. *)
Theorem waveDataCallback_passes_audio_through
  (inbuffer outbuffer : list F32) (len inchannels : Z) (w : Wave) :
  wave_wf w -> 0 <= len -> 0 <= inchannels ->
  (Z.to_nat (len * inchannels) <= length inbuffer)%nat ->
  (Z.to_nat (len * inchannels) <= length outbuffer)%nat ->
  exists out w',
    waveDataCallback inbuffer outbuffer len inchannels w = Ok (out, w')
    /\ out = firstn (Z.to_nat (len * inchannels)) inbuffer
             ++ skipn (Z.to_nat (len * inchannels)) outbuffer
    /\ length out = length outbuffer
    /\ (len = 0 \/ inchannels = 0 -> out = outbuffer /\ w' = w).
Proof.
  intros Hwf Hlen Hch Hin Hout.
  assert (Hlenout : length (firstn (Z.to_nat (len * inchannels)) inbuffer
                            ++ skipn (Z.to_nat (len * inchannels)) outbuffer)
                    = length outbuffer).
  { rewrite length_app, length_take, length_drop. lia. }
  destruct (Z.eq_dec len 0) as [->|Hl0].
  - exists outbuffer, w. split; [reflexivity|].
    split; [reflexivity|]. split; [reflexivity|]. auto.
  - destruct (Z.eq_dec inchannels 0) as [->|Hc0].
    + exists outbuffer, w. split.
      * unfold waveDataCallback. rewrite Z.eqb_refl, orb_true_r. reflexivity.
      * rewrite Z.mul_0_r. split; [reflexivity|]. split; [reflexivity|]. auto.
    + destruct (waveDataCallback_spec inbuffer outbuffer len inchannels w
                  Hwf ltac:(lia) ltac:(lia) Hin Hout)
        as (out & w' & Hrun & _).
      exists out, w'. split; [exact Hrun|].
      assert (Hout' : out = firstn (Z.to_nat (len * inchannels)) inbuffer
                            ++ skipn (Z.to_nat (len * inchannels)) outbuffer).
      { unfold waveDataCallback in Hrun.
        replace (len =? 0) with false in Hrun
          by (symmetry; apply Z.eqb_neq; lia).
        replace (inchannels =? 0) with false in Hrun
          by (symmetry; apply Z.eqb_neq; lia).
        replace (inchannels <? 0) with false in Hrun
          by (symmetry; apply Z.ltb_ge; lia).
        cbn [orb] in Hrun. unfold memcpy in Hrun.
        replace (Nat.leb (0 + Z.to_nat (len * inchannels)) (length outbuffer))
          with true in Hrun by (symmetry; apply Nat.leb_le; lia).
        replace (Nat.leb (0 + Z.to_nat (len * inchannels)) (length inbuffer))
          with true in Hrun by (symmetry; apply Nat.leb_le; lia).
        cbn [andb rbind] in Hrun.
        destruct (mix_down _ _ _ _ _); cbn [rbind] in Hrun;
          try discriminate.
        destruct (wave_push _ _); cbn [rbind] in Hrun; try discriminate.
        injection Hrun as <- _. reflexivity. }
      split; [exact Hout'|]. split; [rewrite Hout'; exact Hlenout|].
      intros [H|H]; contradiction.
Qed.

Lemma waveDataCallback_passes_audio_through_witness :
  exists w',
    waveDataCallback (ramp 4) (repeat F32.zero 6) 2 2 wave_init
    = Ok (ramp 4 ++ repeat F32.zero 2, w').
Proof.
  assert (Hwf : wave_wf wave_init).
  { unfold wave_wf, WAVE_BUFFER_SIZE. change (1024 / 2) with 512.
    split; [reflexivity|]. cbn. lia. }
  destruct (waveDataCallback_passes_audio_through (ramp 4)
              (repeat F32.zero 6) 2 2 wave_init Hwf ltac:(lia) ltac:(lia)
              ltac:(vm_compute; lia) ltac:(vm_compute; lia))
    as (out & w' & Hrun & Hout & _).
  exists w'. rewrite Hrun, Hout. reflexivity.
Defined.

Lemma waveDataCallback_fits
  (inbuffer outbuffer : list F32) (len inchannels : Z) (w : Wave) :
  wave_wf w -> 0 < len -> 0 < inchannels ->
  (Z.to_nat (len * inchannels) <= length inbuffer)%nat ->
  (Z.to_nat (len * inchannels) <= length outbuffer)%nat ->
  gWaveDataBufferSize w + len <= WAVE_BUFFER_SIZE ->
  exists out w',
    waveDataCallback inbuffer outbuffer len inchannels w = Ok (out, w')
    /\ gWaveDataBufferSize w' = gWaveDataBufferSize w + len
    /\ gWaveBufferMinSize w' = gWaveBufferMinSize w
    /\ wave_view w'
       = map (frame_mean inbuffer inchannels) (seq 0 (Z.to_nat len))
         ++ wave_view w.
Proof.
  intros Hwf Hlen Hch Hin Hout Hfit. unfold waveDataCallback.
  replace (len =? 0) with false by (symmetry; apply Z.eqb_neq; lia).
  replace (inchannels =? 0) with false by (symmetry; apply Z.eqb_neq; lia).
  replace (inchannels <? 0) with false by (symmetry; apply Z.ltb_ge; lia).
  cbn [orb]. unfold memcpy.
  replace (Nat.leb (0 + Z.to_nat (len * inchannels)) (length outbuffer))
    with true by (symmetry; apply Nat.leb_le; lia).
  replace (Nat.leb (0 + Z.to_nat (len * inchannels)) (length inbuffer))
    with true by (symmetry; apply Nat.leb_le; lia).
  cbn [andb rbind].
  pose proof (resize_local_length (local_buf w) (Z.to_nat len)) as Hrl.
  rewrite (mix_down_frames inbuffer inchannels (Z.to_nat len) 0
             (resize_local (local_buf w) (Z.to_nat len))) by nia.
  cbn [rbind Nat.add]. rewrite (take_0 (resize_local _ _)). cbn [app].
  set (lb' := map (frame_mean inbuffer inchannels) (seq 0 (Z.to_nat len))
              ++ skipn (Z.to_nat len)
                   (resize_local (local_buf w) (Z.to_nat len))).
  set (w0 := {| gWaveBufferMinSize := gWaveBufferMinSize w;
                gWaveDataBuffer := gWaveDataBuffer w;
                gWaveDataBufferSize := gWaveDataBufferSize w;
                local_buf := lb' |}).
  assert (Hwf0 : wave_wf w0) by exact Hwf.
  assert (Hlen' : length (map (frame_mean inbuffer inchannels)
                            (seq 0 (Z.to_nat len))) = Z.to_nat len)
    by (rewrite length_map, length_seq; reflexivity).
  destruct (wave_push_fits (Z.to_nat len) w0 Hwf0)
    as (w' & Hp & _ & Hm & _ & Hsz & Hv).
  { subst w0 lb'. cbn [local_buf]. rewrite length_app, Hlen'. lia. }
  { subst w0. cbn [gWaveDataBufferSize]. lia. }
  rewrite Hp. cbn [rbind]. eexists _, w'. split; [reflexivity|].
  split; [rewrite Hsz; subst w0; cbn [gWaveDataBufferSize]; lia|].
  split; [exact Hm|].
  rewrite Hv. subst w0 lb'. cbn [local_buf].
  rewrite take_app_length'
    by first [exact Hlen' | symmetry; exact Hlen']. reflexivity.
Qed.

(** X19.  A block that fits into the free part of the ring buffer evicts
    nothing.  After the callback the fill count has grown by the number of
    frames, and the valid region is the block's frame values, frame 0
    first, followed by the region as it was; the value kept for a frame is
    the sum of its channels, added in order to zero, divided by the number
    of channels.  The watermark is not changed. *)
Theorem waveDataCallback_block_that_fits
  (inbuffer outbuffer : list F32) (len inchannels : Z) (w : Wave) :
  wave_wf w -> 0 < len -> 0 < inchannels ->
  (Z.to_nat (len * inchannels) <= length inbuffer)%nat ->
  (Z.to_nat (len * inchannels) <= length outbuffer)%nat ->
  gWaveDataBufferSize w + len <= WAVE_BUFFER_SIZE ->
  exists out w',
    waveDataCallback inbuffer outbuffer len inchannels w = Ok (out, w')
    /\ gWaveDataBufferSize w' = gWaveDataBufferSize w + len
    /\ gWaveBufferMinSize w' = gWaveBufferMinSize w
    /\ wave_view w'
       = map (frame_mean inbuffer inchannels) (seq 0 (Z.to_nat len))
         ++ wave_view w.
Proof.
  exact (waveDataCallback_fits inbuffer outbuffer len inchannels w).
Qed.

Lemma waveDataCallback_block_that_fits_witness :
  exists out w',
    waveDataCallback (ramp 4) (repeat F32.zero 4) 2 2 wave_init
    = Ok (out, w')
    /\ gWaveDataBufferSize w' = 2
    /\ wave_view w'
       = [frame_mean (ramp 4) 2 0; frame_mean (ramp 4) 2 1]
         ++ wave_view wave_init.
Proof.
  assert (Hwf : wave_wf wave_init).
  { unfold wave_wf, WAVE_BUFFER_SIZE. change (1024 / 2) with 512.
    split; [reflexivity|]. cbn. lia. }
  destruct (waveDataCallback_block_that_fits (ramp 4) (repeat F32.zero 4)
              2 2 wave_init Hwf ltac:(lia) ltac:(lia)
              ltac:(vm_compute; lia) ltac:(vm_compute; lia)
              ltac:(vm_compute; discriminate))
    as (out & w' & Hrun & Hsz & _ & Hv).
  exists out, w'. split; [exact Hrun|]. split; [exact Hsz|exact Hv].
Defined.

(** ** The UTF-16 decoder with the byte order given *)

Lemma byte_val_range (b : byte) : 0 <= byte_val b < 256.
Proof.
  unfold byte_val. pose proof (Byte.to_N_bounded b). lia.
Qed.

Lemma byte_val_of_Z (z : Z) : byte_val (byte_of_Z z) = z mod 256.
Proof.
  unfold byte_val, byte_of_Z.
  pose proof (Z.mod_pos_bound z 256 ltac:(lia)) as Hr.
  destruct (Byte.of_N (Z.to_N (z mod 256))) as [b|] eqn:H.
  - apply Byte.to_of_N in H. rewrite H. lia.
  - apply Byte.of_N_None_iff in H. lia.
Qed.

Lemma swap16_bytes (h l : Z) :
  0 <= h < 256 -> 0 <= l < 256 -> swap16 (h + 256 * l) = l + 256 * h.
Proof.
  intros Hh Hl.
  assert (H : forallb
                (fun a => forallb
                            (fun b => swap16 (a + 256 * b) =? b + 256 * a)
                            (map Z.of_nat (seq 0 256)))
                (map Z.of_nat (seq 0 256)) = true)
    by (vm_compute; reflexivity).
  assert (Hin : forall x, 0 <= x < 256 -> In x (map Z.of_nat (seq 0 256))).
  { intros x Hx. apply in_map_iff. exists (Z.to_nat x).
    split; [lia|]. apply in_seq. lia. }
  rewrite forallb_forall in H. specialize (H h (Hin h Hh)).
  rewrite forallb_forall in H. specialize (H l (Hin l Hl)).
  apply Z.eqb_eq. exact H.
Qed.

Lemma swap16_unit (u : Z) :
  is_unit16 u -> swap16 (u / 256 + 256 * (u mod 256)) = u.
Proof.
  intros Hu. unfold is_unit16 in Hu.
  rewrite swap16_bytes.
  - pose proof (Z.div_mod u 256 ltac:(lia)). lia.
  - split; [apply Z.div_pos; lia|apply Z.div_lt_upper_bound; lia].
  - apply Z.mod_pos_bound. lia.
Qed.

Lemma units_of_bytes_le (us : list Z) (tail : list byte) :
  Forall is_unit16 us ->
  units_of_bytes (utf16le_bytes us ++ tail) (length us) = Ok us.
Proof.
  intros Hall. induction Hall as [|u us Hu Hus IH].
  - reflexivity.
  - cbn [utf16le_bytes flat_map app length units_of_bytes].
    fold (utf16le_bytes us). rewrite IH. cbn [rbind].
    rewrite !byte_val_of_Z. unfold is_unit16 in Hu.
    rewrite (Z.mod_small (u / 256))
      by (split; [apply Z.div_pos; lia|apply Z.div_lt_upper_bound; lia]).
    pose proof (Z.div_mod u 256 ltac:(lia)).
    f_equal. f_equal. lia.
Qed.

Lemma units_of_bytes_be (us : list Z) (tail : list byte) :
  Forall is_unit16 us ->
  exists raw,
    units_of_bytes (utf16be_bytes us ++ tail) (length us) = Ok raw
    /\ map swap16 raw = us.
Proof.
  intros Hall. induction Hall as [|u us Hu Hus IH].
  - exists []. split; reflexivity.
  - destruct IH as (raw & Hraw & Hswap).
    cbn [utf16be_bytes flat_map app length units_of_bytes].
    fold (utf16be_bytes us). rewrite Hraw. cbn [rbind].
    eexists. split; [reflexivity|]. cbn [map]. rewrite Hswap.
    rewrite !byte_val_of_Z. pose proof Hu as Hu'. unfold is_unit16 in Hu'.
    rewrite (Z.mod_small (u / 256))
      by (split; [apply Z.div_pos; lia|apply Z.div_lt_upper_bound; lia]).
    rewrite (swap16_unit u Hu). reflexivity.
Qed.

Lemma utf16le_bytes_length (us : list Z) :
  length (utf16le_bytes us) = (2 * length us)%nat.
Proof.
  induction us as [|u us IH]; [reflexivity|].
  cbn [utf16le_bytes flat_map app length]. fold (utf16le_bytes us).
  rewrite IH. lia.
Qed.

Lemma utf16be_bytes_length (us : list Z) :
  length (utf16be_bytes us) = (2 * length us)%nat.
Proof.
  induction us as [|u us IH]; [reflexivity|].
  cbn [utf16be_bytes flat_map app length]. fold (utf16be_bytes us).
  rewrite IH. lia.
Qed.

Lemma odd_byte_unit (char_signed : bool) (b : byte) :
  U16 (Z.shiftl (char_value char_signed b) 8) = 256 * byte_val b.
Proof.
  pose proof (byte_val_range b) as Hb.
  rewrite Z.shiftl_mul_pow2 by lia. unfold U16, char_value.
  destruct (char_signed && (128 <=? byte_val b)).
  - replace ((byte_val b - 256) * 2 ^ 8)
      with (256 * byte_val b + (-1) * 2 ^ 16) by lia.
    rewrite Z_mod_plus_full. apply Z.mod_small. lia.
  - replace (byte_val b * 2 ^ 8) with (256 * byte_val b) by lia.
    apply Z.mod_small. lia.
Qed.

(** X20.  With the byte order given by the caller the decoder reads the
    units as they were written, whatever the signedness of plain [char]:
    the little-endian bytes of any sequence of 16-bit units decode, as
    UTF16LE, to that sequence, and the big-endian bytes, as UTF16BE, to
    that sequence; so does a sequence that begins with a byte-order mark,
    which stays in the text. *)
Theorem utf16_given_byte_order_round_trip (char_signed : bool)
  (us : list Z) :
  Forall is_unit16 us ->
  2 * Z.of_nat (length us) < 2 ^ 32 ->
  utf16input_units char_signed (utf16le_bytes us)
    (2 * Z.of_nat (length us)) UTF16LE = Ok us
  /\ utf16input_units char_signed (utf16be_bytes us)
       (2 * Z.of_nat (length us)) UTF16BE = Ok us
  /\ utf16input_to_utf8 char_signed (utf16le_bytes us)
       (2 * Z.of_nat (length us)) UTF16LE
     = utf16input_to_utf8 char_signed (utf16be_bytes us)
         (2 * Z.of_nat (length us)) UTF16BE.
Proof.
  intros Hall Hlen.
  assert (Hn : Z.to_nat (2 * Z.of_nat (length us) / 2) = length us).
  { rewrite Z.mul_comm, Z.div_mul by lia. lia. }
  assert (Hev : ((2 * Z.of_nat (length us)) mod 2 =? 0) = true).
  { rewrite Z.mul_comm, Z.mod_mul by lia. reflexivity. }
  assert (Hle : utf16input_units char_signed (utf16le_bytes us)
                  (2 * Z.of_nat (length us)) UTF16LE = Ok us).
  { unfold utf16input_units, resolve_bom. cbn [utf_endian_eqb rbind].
    rewrite Hn, Hev. cbn [negb rbind].
    rewrite <- (app_nil_r (utf16le_bytes us)).
    rewrite (units_of_bytes_le us [] Hall). reflexivity. }
  assert (Hbe : utf16input_units char_signed (utf16be_bytes us)
                  (2 * Z.of_nat (length us)) UTF16BE = Ok us).
  { unfold utf16input_units, resolve_bom. cbn [utf_endian_eqb rbind].
    rewrite Hn, Hev. cbn [negb rbind].
    destruct (units_of_bytes_be us [] Hall) as (raw & Hraw & Hswap).
    rewrite app_nil_r in Hraw. rewrite Hraw. cbn [rbind].
    rewrite Hswap. reflexivity. }
  split; [exact Hle|]. split; [exact Hbe|].
  unfold utf16input_to_utf8. rewrite Hle, Hbe. reflexivity.
Qed.

Lemma utf16_given_byte_order_round_trip_witness :
  utf16input_units true (utf16be_bytes [65279; 65]) 4 UTF16BE
  = Ok [65279; 65].
Proof.
  assert (Hall : Forall is_unit16 [65279; 65])
    by (repeat constructor; unfold is_unit16; lia).
  exact (proj1 (proj2 (utf16_given_byte_order_round_trip true [65279; 65]
                         Hall ltac:(cbn; lia)))).
Defined.

(** X21.  An odd trailing byte [b] makes one more unit, the same whatever
    the signedness of plain [char]: [b * 256] in little-endian text, and,
    after the swap, [b] itself in big-endian text. *)
Theorem utf16_odd_trailing_byte (char_signed : bool) (us : list Z)
  (b : byte) :
  Forall is_unit16 us ->
  2 * Z.of_nat (length us) + 1 < 2 ^ 32 ->
  utf16input_units char_signed (utf16le_bytes us ++ [b])
    (2 * Z.of_nat (length us) + 1) UTF16LE
  = Ok (us ++ [256 * byte_val b])
  /\ utf16input_units char_signed (utf16be_bytes us ++ [b])
       (2 * Z.of_nat (length us) + 1) UTF16BE
     = Ok (us ++ [byte_val b]).
Proof.
  intros Hall Hlen.
  assert (Hn : Z.to_nat ((2 * Z.of_nat (length us) + 1) / 2) = length us).
  { replace (2 * Z.of_nat (length us) + 1)
      with (1 + Z.of_nat (length us) * 2) by lia.
    rewrite Z.div_add by lia. change (1 / 2) with 0. lia. }
  assert (Hodd : ((2 * Z.of_nat (length us) + 1) mod 2 =? 0) = false).
  { replace (2 * Z.of_nat (length us) + 1)
      with (1 + Z.of_nat (length us) * 2) by lia.
    rewrite Z.mod_add by lia. reflexivity. }
  assert (Hidx : Z.to_nat (2 * Z.of_nat (length us) + 1 - 1)
                 = (2 * length us)%nat) by lia.
  split.
  - unfold utf16input_units, resolve_bom. cbn [utf_endian_eqb rbind].
    rewrite Hn, Hodd, Hidx. cbn [negb].
    rewrite (units_of_bytes_le us [b] Hall). cbn [rbind].
    unfold load. rewrite lookup_app_r by (rewrite utf16le_bytes_length; lia).
    rewrite utf16le_bytes_length, Nat.sub_diag. cbn [lookup list_lookup rbind].
    rewrite odd_byte_unit. reflexivity.
  - unfold utf16input_units, resolve_bom. cbn [utf_endian_eqb rbind].
    rewrite Hn, Hodd, Hidx. cbn [negb].
    destruct (units_of_bytes_be us [b] Hall) as (raw & Hraw & Hswap).
    rewrite Hraw. cbn [rbind].
    unfold load. rewrite lookup_app_r by (rewrite utf16be_bytes_length; lia).
    rewrite utf16be_bytes_length, Nat.sub_diag. cbn [lookup list_lookup rbind].
    rewrite odd_byte_unit, map_app, Hswap. cbn [map].
    pose proof (byte_val_range b) as Hb.
    replace (256 * byte_val b) with (0 + 256 * byte_val b) by lia.
    rewrite swap16_bytes by lia. do 3 f_equal. lia.
Qed.

Lemma utf16_odd_trailing_byte_witness :
  utf16input_units true (utf16be_bytes [65] ++ [Byte.xe9]) 3 UTF16BE
  = Ok [65; 233].
Proof.
  assert (Hall : Forall is_unit16 [65])
    by (repeat constructor; unfold is_unit16; lia).
  exact (proj2 (utf16_odd_trailing_byte true [65] Byte.xe9 Hall
                  ltac:(cbn; lia))).
Defined.

(** ** The UTF-16 decoder finding the byte order itself *)

Lemma swap16_of_unit (u : Z) :
  is_unit16 u -> swap16 u = u / 256 + 256 * (u mod 256).
Proof.
  intros Hu. unfold is_unit16 in Hu.
  pose proof (Z.div_mod u 256 ltac:(lia)) as Hdm.
  replace (swap16 u) with (swap16 (u mod 256 + 256 * (u / 256)))
    by (f_equal; lia).
  apply swap16_bytes.
  - apply Z.mod_pos_bound. lia.
  - split; [apply Z.div_pos; lia|apply Z.div_lt_upper_bound; lia].
Qed.

Lemma units_of_bytes_be_swapped (us : list Z) (tail : list byte) :
  Forall is_unit16 us ->
  units_of_bytes (utf16be_bytes us ++ tail) (length us)
  = Ok (map swap16 us).
Proof.
  intros Hall. induction Hall as [|u us Hu Hus IH].
  - reflexivity.
  - cbn [utf16be_bytes flat_map app length units_of_bytes].
    fold (utf16be_bytes us). rewrite IH. cbn [rbind map].
    rewrite !byte_val_of_Z, (swap16_of_unit u Hu).
    unfold is_unit16 in Hu.
    rewrite (Z.mod_small (u / 256))
      by (split; [apply Z.div_pos; lia|apply Z.div_lt_upper_bound; lia]).
    reflexivity.
Qed.

Lemma swap16_twice (us : list Z) :
  Forall is_unit16 us -> map swap16 (map swap16 us) = us.
Proof.
  intros Hall. induction Hall as [|u us Hu Hus IH]; [reflexivity|].
  cbn [map]. rewrite IH. f_equal.
  rewrite (swap16_of_unit u Hu). apply swap16_unit. exact Hu.
Qed.

Lemma utf16input_units_signed_auto (input : list byte) (len : Z) :
  utf16input_units true input len UTF16
  = utf16input_units true input len UTF16BE.
Proof.
  unfold utf16input_units, resolve_bom. cbn [utf_endian_eqb].
  destruct (len >? 2) eqn:Hlen; [|reflexivity].
  destruct input as [|c0 [|c1 rest]].
  - cbn [load lookup list_lookup rbind].
    destruct (Z.to_nat (len / 2)) eqn:Hn; [|reflexivity].
    apply Z.gtb_lt in Hlen.
    assert (1 <= len / 2) by (apply Z.div_le_lower_bound; lia). lia.
  - cbn [load lookup list_lookup rbind].
    destruct (Z.to_nat (len / 2)) eqn:Hn; [|reflexivity].
    apply Z.gtb_lt in Hlen.
    assert (1 <= len / 2) by (apply Z.div_le_lower_bound; lia). lia.
  - cbn [load lookup list_lookup rbind].
    rewrite is_bom16_signed. reflexivity.
Qed.

(** X22.  Asked to find the byte order itself, the decoder falls back on
    big-endian whenever it sees no marker: on every input of at most two
    bytes, and on every input whose first two bytes are not recognised as
    a marker, it does what it does for UTF16BE.  Where plain [char] is
    signed no marker is ever recognised, so there it does what it does for
    UTF16BE on every input. *)
Theorem utf16_auto_defaults_to_big_endian (char_signed : bool)
  (input : list byte) (len : Z) :
  (len <= 2 \/ char_signed = true
   \/ exists c0 c1 rest,
        input = c0 :: c1 :: rest /\ is_bom16 char_signed c0 c1 = false) ->
  utf16input_units char_signed input len UTF16
  = utf16input_units char_signed input len UTF16BE
  /\ utf16input_to_utf8 char_signed input len UTF16
     = utf16input_to_utf8 char_signed input len UTF16BE.
Proof.
  intros Hcase.
  assert (Hu : utf16input_units char_signed input len UTF16
               = utf16input_units char_signed input len UTF16BE).
  { destruct Hcase as [Hlen|[->|(c0 & c1 & rest & -> & Hb)]].
    - unfold utf16input_units, resolve_bom. cbn [utf_endian_eqb].
      replace (len >? 2) with false
        by (symmetry; rewrite Z.gtb_ltb; apply Z.ltb_ge; lia).
      reflexivity.
    - apply utf16input_units_signed_auto.
    - unfold utf16input_units, resolve_bom. cbn [utf_endian_eqb].
      destruct (len >? 2); [|reflexivity].
      cbn [load lookup list_lookup rbind]. rewrite Hb. reflexivity. }
  split; [exact Hu|]. unfold utf16input_to_utf8. rewrite Hu. reflexivity.
Qed.

Lemma utf16_auto_defaults_to_big_endian_witness :
  utf16input_units true [Byte.xff; Byte.xfe; Byte.x41; Byte.x00] 4 UTF16
  = utf16input_units true [Byte.xff; Byte.xfe; Byte.x41; Byte.x00] 4 UTF16BE.
Proof.
  exact (proj1 (utf16_auto_defaults_to_big_endian true
                  [Byte.xff; Byte.xfe; Byte.x41; Byte.x00] 4
                  (or_intror (or_introl eq_refl)))).
Defined.

(** X23.  Where plain [char] is unsigned and the text begins with a
    marker, the marker is dropped and the byte order is taken from the
    first byte of the text after it, not from the marker: big-endian if
    that byte is FE, little-endian otherwise.  So little-endian text after
    the marker FF FE is read as written unless its first unit has FE as its
    low byte, and big-endian text after the marker FE FF is read with every
    unit byte-swapped unless its first unit has FE as its high byte. *)
Theorem utf16_marker_byte_order_from_first_text_byte (u0 : Z)
  (us : list Z) :
  Forall is_unit16 (u0 :: us) ->
  2 * Z.of_nat (length (u0 :: us)) + 2 < 2 ^ 32 ->
  let len := 2 * Z.of_nat (length (u0 :: us)) + 2 in
  utf16input_units false
    (Byte.xff :: Byte.xfe :: utf16le_bytes (u0 :: us)) len UTF16
  = Ok (if u0 mod 256 =? 254 then map swap16 (u0 :: us) else u0 :: us)
  /\ utf16input_units false
       (Byte.xfe :: Byte.xff :: utf16be_bytes (u0 :: us)) len UTF16
     = Ok (if u0 / 256 =? 254 then u0 :: us else map swap16 (u0 :: us)).
Proof.
  intros Hall Hlen len.
  assert (Hgt : (len >? 2) = true).
  { apply Z.gtb_lt. subst len. cbn [length]. lia. }
  assert (Hu32 : U32 (len - 2) = 2 * Z.of_nat (length (u0 :: us))).
  { replace (len - 2) with (2 * Z.of_nat (length (u0 :: us)))
      by (subst len; lia).
    apply U32_small. lia. }
  assert (Hn : Z.to_nat (2 * Z.of_nat (length (u0 :: us)) / 2)
               = length (u0 :: us)).
  { rewrite Z.mul_comm, Z.div_mul by lia. lia. }
  assert (Hev : ((2 * Z.of_nat (length (u0 :: us))) mod 2 =? 0) = true).
  { rewrite Z.mul_comm, Z.mod_mul by lia. reflexivity. }
  assert (Hu0 : is_unit16 u0) by (inversion Hall; assumption).
  pose proof Hu0 as Hr. unfold is_unit16 in Hr.
  split.
  - unfold utf16input_units, resolve_bom. cbn [utf_endian_eqb].
    rewrite Hgt. cbn [load lookup list_lookup rbind].
    change (is_bom16 false Byte.xff Byte.xfe) with true. cbv iota.
    cbn [skipn drop]. rewrite ?drop_0, Hu32.
    change (utf16le_bytes (u0 :: us))
      with (byte_of_Z u0 :: byte_of_Z (u0 / 256) :: utf16le_bytes us).
    cbn [load lookup list_lookup rbind].
    change (byte_of_Z u0 :: byte_of_Z (u0 / 256) :: utf16le_bytes us)
      with (utf16le_bytes (u0 :: us)).
    rewrite Hn, Hev. cbn [negb].
    rewrite <- (app_nil_r (utf16le_bytes (u0 :: us))).
    rewrite (units_of_bytes_le (u0 :: us) [] Hall). cbn [rbind].
    unfold char_value. cbn [andb]. rewrite byte_val_of_Z.
    destruct (u0 mod 256 =? 254); reflexivity.
  - unfold utf16input_units, resolve_bom. cbn [utf_endian_eqb].
    rewrite Hgt. cbn [load lookup list_lookup rbind].
    change (is_bom16 false Byte.xfe Byte.xff) with true. cbv iota.
    cbn [skipn drop]. rewrite ?drop_0, Hu32.
    change (utf16be_bytes (u0 :: us))
      with (byte_of_Z (u0 / 256) :: byte_of_Z u0 :: utf16be_bytes us).
    cbn [load lookup list_lookup rbind].
    change (byte_of_Z (u0 / 256) :: byte_of_Z u0 :: utf16be_bytes us)
      with (utf16be_bytes (u0 :: us)).
    rewrite Hn, Hev. cbn [negb].
    rewrite <- (app_nil_r (utf16be_bytes (u0 :: us))).
    rewrite (units_of_bytes_be_swapped (u0 :: us) [] Hall). cbn [rbind].
    unfold char_value. cbn [andb]. rewrite byte_val_of_Z.
    rewrite (Z.mod_small (u0 / 256))
      by (split; [apply Z.div_pos; lia|apply Z.div_lt_upper_bound; lia]).
    destruct (u0 / 256 =? 254); cbn [utf_endian_eqb];
      [rewrite (swap16_twice _ Hall)|]; reflexivity.
Qed.

Lemma utf16_marker_byte_order_from_first_text_byte_witness :
  utf16input_units false
    (Byte.xfe :: Byte.xff :: utf16be_bytes [65; 66]) 6 UTF16
  = Ok [16640; 16896].
Proof.
  assert (Hall : Forall is_unit16 [65; 66])
    by (repeat constructor; unfold is_unit16; lia).
  exact (proj2 (utf16_marker_byte_order_from_first_text_byte 65 [66] Hall
                  ltac:(cbn; lia))).
Defined.

(** ** Sessions on an engine that opens every stream *)

Lemma setGain_total (this : LLStreamingAudio_FMODSTUDIO) (v : F32)
  (w : World) :
  exists w', setGain this v w = Ok (set_gain v this, w').
Proof.
  unfold setGain. destruct this as [cur [c|] dsp dead url pend gain md]; cbn;
    unfold_engine; cbn; eexists; reflexivity.
Qed.

Lemma update_ready_total (E : Engine) (this : LLStreamingAudio_FMODSTUDIO)
  (h : LLAudioStreamManagerFMODSTUDIO) (w : World) :
  exists this' w', update_ready E this h w = Ok (this', w').
Proof.
  unfold update_ready.
  destruct (mFMODInternetStreamChannelp this) as [c|] eqn:Hch;
    [eexists _, _; reflexivity|].
  destruct (startStream_total E h w) as (ch & h' & w1 & Hrun).
  rewrite (bind_step _ _ _ _ _ Hrun).
  destruct ch as [c|]; [|eexists _, _; reflexivity].
  match goal with
  | |- context [setGain ?t ?v] =>
      destruct (setGain_total t v w1) as (w2 & Hg)
  end.
  rewrite (bind_step _ _ _ _ _ Hg).
  destruct (mStreamDSP (set_gain _ _)); unfold_engine; cbn;
    eexists _, _; reflexivity.
Qed.

Lemma update_channel_total (E : Engine) (char_signed : bool)
  (rawstr_to_utf8 : list byte -> list byte)
  (this : LLStreamingAudio_FMODSTUDIO) (oi : OpenInfo) (w : World) :
  tags_ok E ->
  exists this' w',
    update_channel E char_signed rawstr_to_utf8 this oi w = Ok (this', w').
Proof.
  intros Hok.
  destruct (mFMODInternetStreamChannelp this) as [c|] eqn:Hch.
  - rewrite (update_channel_unfold E char_signed rawstr_to_utf8 this oi c w
               Hch). cbv zeta.
    destruct (getCurrentSound_result E (clock w) c) as [s|];
      [|eexists _, _; reflexivity].
    match goal with
    | |- context [bind ?m _ ?w2] =>
        assert (Hmd : exists md w3, m w2 = Ok (md, w3))
    end.
    { destruct (getNumTags_result E (S (clock w)) s) as [[tc dc]|];
        [|eexists _, _; reflexivity].
      destruct (negb (dc =? 0)); [|eexists _, _; reflexivity].
      apply tag_loop_total. exact Hok. }
    destruct Hmd as (md & w3 & Hmd).
    rewrite (bind_step _ _ _ _ _ Hmd).
    destruct (starvation_policy_spec c oi w3) as (w4 & Hpol & _).
    rewrite (bind_step _ _ _ _ _ Hpol). eexists _, _; reflexivity.
  - unfold update_channel. rewrite Hch. eexists _, _; reflexivity.
Qed.

Lemma update_poll_defined (E : Engine) (char_signed : bool)
  (rawstr_to_utf8 : list byte -> list byte)
  (this : LLStreamingAudio_FMODSTUDIO) (w : World) :
  tags_ok E -> current_has_stream this ->
  exists this' w',
    update_poll E char_signed rawstr_to_utf8 this w = Ok (this', w')
    /\ current_has_stream this'.
Proof.
  intros Hok Hcs. unfold update_poll.
  destruct (mCurrentInternetStreamp this) as [h|] eqn:Hcur;
    [|eexists _, _; split; [reflexivity|exact Hcs]].
  pose proof (Hcs h Hcur) as Hstream.
  destruct (mInternetStream h) as [s|] eqn:Hs; [clear Hstream|congruence].
  assert (Hopen : getOpenState E h w
                  = Ok (getOpenState_result E (clock w) s,
                        {| clock := S (clock w);
                           calls := calls w ++ [GetOpenState s];
                           paused := paused w; dsp_active := dsp_active w;
                           wave := wave w |})).
  { unfold getOpenState. rewrite Hs. reflexivity. }
  rewrite (bind_step _ _ _ _ _ Hopen).
  set (oi := getOpenState_result E (clock w) s).
  set (w1 := {| clock := S (clock w); calls := calls w ++ [GetOpenState s];
                paused := paused w; dsp_active := dsp_active w;
                wave := wave w |}).
  assert (Hchan : forall t wa,
             current_has_stream t ->
             exists this' w',
               update_channel E char_signed rawstr_to_utf8 t oi wa
               = Ok (this', w')
               /\ current_has_stream this').
  { intros t wa Ht.
    destruct (update_channel_total E char_signed rawstr_to_utf8 t oi wa Hok)
      as (this' & w' & Hrun).
    exists this', w'. split; [exact Hrun|].
    apply update_channel_frame in Hrun as (_ & Hc & _).
    intros h0 Hh0. apply Ht. rewrite <- Hc. exact Hh0. }
  destruct (open_state oi); try (apply Hchan; exact Hcs).
  - destruct (update_ready_total E this h w1) as (this1 & w2 & Hrdy).
    rewrite (bind_step _ _ _ _ _ Hrdy). apply Hchan.
    apply update_ready_frame in Hrdy as (_ & Hkeep & _).
    destruct (Hkeep Hcur) as (h' & Hcur' & Hs').
    intros h0 Hh0. rewrite Hcur' in Hh0. injection Hh0 as <-.
    rewrite Hs', Hs. discriminate.
  - destruct (stop_spec E this w1)
      as (this1 & w2 & d & Hstop & _ & _ & Hnone & _).
    exists this1, w2. split; [exact Hstop|].
    intros h0 Hh0. congruence.
Qed.

Lemma new_manager_opened (E : Engine) (url : string) (w : World) :
  engine_opens E ->
  exists h w',
    new_LLAudioStreamManagerFMODSTUDIO E url w = Ok (h, w')
    /\ mInternetStream h <> None.
Proof.
  intros Hopen. unfold new_LLAudioStreamManagerFMODSTUDIO, fmod_createStream.
  unfold tick, bind, ret. cbn.
  destruct (createStream_result E (clock w) url) as [s|] eqn:Hs.
  - eexists _, _. split; [reflexivity|]. discriminate.
  - exfalso. exact (Hopen _ _ Hs).
Qed.

Lemma update_promote_defined (E : Engine)
  (this : LLStreamingAudio_FMODSTUDIO) (w : World) :
  engine_opens E -> session_inv this -> current_has_stream this ->
  exists this' w',
    update_promote E this w = Ok (this', w') /\ current_has_stream this'.
Proof.
  intros Hopen Hinv Hcs. unfold update_promote.
  destruct (is_empty_string (mPendingURL this)) eqn:Hp; cbn [negb].
  - eexists _, _. split; [reflexivity|exact Hcs].
  - destruct (mCurrentInternetStreamp this) as [h|] eqn:Hcur.
    + exfalso. destruct Hinv as [_ Hpend]; [congruence|].
      rewrite Hpend in Hp. discriminate.
    + destruct (new_manager_opened E (mPendingURL this) w Hopen)
        as (h & w' & Hnew & Hs).
      rewrite (bind_step _ _ _ _ _ Hnew).
      eexists _, _. split; [reflexivity|].
      intros h0 Hh0. cbn in Hh0. injection Hh0 as <-. exact Hs.
Qed.

Lemma update_defined (E : Engine) (char_signed : bool)
  (rawstr_to_utf8 : list byte -> list byte)
  (this : LLStreamingAudio_FMODSTUDIO) (w : World) :
  engine_opens E -> tags_ok E ->
  session_inv this -> current_has_stream this ->
  exists this' w',
    update E char_signed rawstr_to_utf8 this w = Ok (this', w')
    /\ session_inv this' /\ current_has_stream this'.
Proof.
  intros Hopen Hok Hinv Hcs.
  assert (Hrun : exists this' w',
             update E char_signed rawstr_to_utf8 this w = Ok (this', w')
             /\ current_has_stream this').
  { destruct (release_dead_outcome E (mDeadStreams this) w)
      as (l1 & w1 & d1 & Hrel & _).
    assert (Hrds : releaseDeadStreams E this w
                   = Ok ((match l1 with [] => true | _ => false end,
                          set_dead l1 this), w1)).
    { unfold releaseDeadStreams. rewrite (bind_step _ _ _ _ _ Hrel).
      reflexivity. }
    unfold update. rewrite (bind_step _ _ _ _ _ Hrds).
    destruct l1 as [|h1 l1]; cbn [negb].
    - assert (Hinv1 : session_inv (set_dead [] this)).
      { intros Hc. destruct this; cbn in *. destruct (Hinv Hc) as [_ Hp].
        split; [reflexivity|exact Hp]. }
      assert (Hcs1 : current_has_stream (set_dead [] this))
        by (destruct this; exact Hcs).
      destruct (update_promote_defined E (set_dead [] this) w1 Hopen Hinv1
                  Hcs1) as (this2 & w2 & Hpro & Hcs2).
      rewrite (bind_step _ _ _ _ _ Hpro).
      apply update_poll_defined; assumption.
    - assert (Hnone : mCurrentInternetStreamp this = None).
      { destruct (mCurrentInternetStreamp this) as [h|] eqn:Hcur;
          [|reflexivity].
        exfalso. destruct Hinv as [Hdead _]; [congruence|].
        rewrite Hdead in Hrel. cbn in Hrel. unfold ret in Hrel.
        discriminate. }
      destruct this as [cur ch dsp dead url pend gain md]. cbn in Hnone.
      subst cur. cbn. eexists _, _. split; [reflexivity|].
      intros h0 Hh0. discriminate. }
  destruct Hrun as (this' & w' & Hrun & Hcs').
  exists this', w'. split; [exact Hrun|]. split; [|exact Hcs'].
  apply update_spec in Hrun as (_ & _ & _ & _ & _ & _ & Hi & _). exact Hi.
Qed.

Lemma stop_defined (E : Engine) (this : LLStreamingAudio_FMODSTUDIO)
  (w : World) :
  exists this' w',
    stop E this w = Ok (this', w')
    /\ session_inv this' /\ current_has_stream this'.
Proof.
  destruct (stop_spec E this w) as (this1 & w1 & d & Hstop & _ & _ & Hnone & _).
  exists this1, w1. split; [exact Hstop|].
  split; intros ?; congruence.
Qed.

Lemma start_defined (E : Engine) (this : LLStreamingAudio_FMODSTUDIO)
  (url : string) (w : World) :
  engine_opens E ->
  exists this' w',
    start E this url w = Ok (this', w')
    /\ session_inv this' /\ current_has_stream this'.
Proof.
  intros Hopen.
  destruct (start_spec E this url w)
    as (this' & w' & this1 & w1 & d1 & Hstop & _ & _ & Hstart & Hinv & _).
  exists this', w'. split; [exact Hstart|]. split; [exact Hinv|].
  destruct (stop_spec E this w)
    as (t & w2 & d & Hs2 & _ & _ & Hnone & _).
  rewrite Hstop in Hs2. injection Hs2 as <- <-.
  unfold start in Hstart. rewrite (bind_step _ _ _ _ _ Hstop) in Hstart.
  destruct (negb (is_empty_string url)).
  - destruct (mDeadStreams this1).
    + destruct (new_manager_opened E url w1 Hopen) as (h & w3 & Hnew & Hs).
      rewrite (bind_step _ _ _ _ _ Hnew) in Hstart. inv_ret Hstart.
      intros h0 Hh0. cbn in Hh0. injection Hh0 as <-. exact Hs.
    + inv_ret Hstart. intros h0 Hh0. cbn in Hh0. congruence.
  - inv_ret Hstart. intros h0 Hh0. cbn in Hh0. congruence.
Qed.

Lemma exec_defined (E : Engine) (char_signed : bool)
  (rawstr_to_utf8 : list byte -> list byte) (op : Op)
  (this : LLStreamingAudio_FMODSTUDIO) (w : World) :
  engine_opens E -> tags_ok E ->
  session_inv this -> current_has_stream this ->
  exists this' w',
    exec E char_signed rawstr_to_utf8 op this w = Ok (this', w')
    /\ session_inv this' /\ current_has_stream this'.
Proof.
  intros Hopen Hok Hinv Hcs.
  destruct op as [url| | |pauseopt|vol]; cbn [exec].
  - apply start_defined. exact Hopen.
  - apply stop_defined.
  - apply update_defined; assumption.
  - unfold pause. destruct (negb (_ =? 0)).
    + destruct (mCurrentInternetStreamp this) eqn:Hcur;
        [apply stop_defined|].
      eexists _, _. split; [reflexivity|]. split; assumption.
    + apply start_defined. exact Hopen.
  - destruct (setGain_total this vol w) as (w' & Hg).
    eexists _, _. split; [exact Hg|].
    destruct this; split; assumption.
Qed.

Lemma exec_all_defined (E : Engine) (char_signed : bool)
  (rawstr_to_utf8 : list byte -> list byte) (ops : list Op) :
  engine_opens E -> tags_ok E ->
  forall (this : LLStreamingAudio_FMODSTUDIO) (w : World),
    session_inv this -> current_has_stream this ->
    exists this' w',
      exec_all E char_signed rawstr_to_utf8 ops this w = Ok (this', w')
      /\ session_inv this' /\ current_has_stream this'.
Proof.
  intros Hopen Hok.
  induction ops as [|op rest IH]; intros this w Hinv Hcs; cbn [exec_all].
  - eexists _, _. split; [reflexivity|]. split; assumption.
  - destruct (exec_defined E char_signed rawstr_to_utf8 op this w
                Hopen Hok Hinv Hcs) as (this1 & w1 & Hrun & Hinv1 & Hcs1).
    rewrite (bind_step _ _ _ _ _ Hrun). apply IH; assumption.
Qed.

(** X24.  On an engine that makes the channel group and the DSP, opens
    every stream it is asked for and hands out tags whose payloads are as
    long as their types need, the constructor and every session of [start],
    [stop], [update], [pause] and [setGain] calls after it run to their
    end: no assertion fails, and neither an unset group or DSP pointer nor
    a null stream pointer is dereferenced.  In the state reached, a current
    manager holds a stream. *)
Theorem session_runs_to_its_end (E : Engine) (char_signed : bool)
  (rawstr_to_utf8 : list byte -> list byte) (ops : list Op) (w : World) :
  engine_makes_group E -> engine_makes_dsp E -> engine_opens E ->
  tags_ok E ->
  exists this w',
    bind (new_LLStreamingAudio_FMODSTUDIO E)
      (exec_all E char_signed rawstr_to_utf8 ops) w
    = Ok (this, w')
    /\ current_has_stream this.
Proof.
  intros Hgroup Hdsp Hopen Hok.
  assert (Hnew : exists this0 w0,
             new_LLStreamingAudio_FMODSTUDIO E w = Ok (this0, w0)
             /\ mCurrentInternetStreamp this0 = None).
  { unfold new_LLStreamingAudio_FMODSTUDIO. unfold_engine. cbn.
    rewrite Hgroup, Hdsp. eexists _, _. split; reflexivity. }
  destruct Hnew as (this0 & w0 & Hnew & Hnone).
  rewrite (bind_step _ _ _ _ _ Hnew).
  destruct (exec_all_defined E char_signed rawstr_to_utf8 ops Hopen Hok
              this0 w0) as (this & w' & Hrun & _ & Hcs).
  - intros Hx. congruence.
  - intros h Hh. congruence.
  - exists this, w'. split; [exact Hrun|exact Hcs].
Qed.

Lemma session_runs_to_its_end_witness :
  exists this w',
    bind (new_LLStreamingAudio_FMODSTUDIO engine_starving)
      (exec_all engine_starving false (fun b => b)
         [OpStart "http://radio/"; OpUpdate; OpUpdate; OpPause (-1);
          OpUpdate; OpPause (-1); OpUpdate])
      world_init
    = Ok (this, w')
    /\ current_has_stream this.
Proof.
  apply session_runs_to_its_end.
  - intros t. reflexivity.
  - intros t. reflexivity.
  - intros t url. discriminate.
  - intros t s i tag H. discriminate H.
Defined.

(** ** From the callback to the visualiser *)

Lemma getWaveData_reads_view (E : Engine)
  (this : LLStreamingAudio_FMODSTUDIO) (c : Channel)
  (h : LLAudioStreamManagerFMODSTUDIO) (arr : list F32) (count stride : Z)
  (w : World) :
  mFMODInternetStreamChannelp this = Some c ->
  mCurrentInternetStreamp this = Some h ->
  getMute_result E (clock w) c = false ->
  wave_wf (wave w) ->
  0 < count <= WAVE_BUFFER_SIZE / 2 ->
  count <= gWaveDataBufferSize (wave w) ->
  (Z.to_nat count <= length arr)%nat ->
  exists w',
    getWaveData E this arr count stride w
    = Ok ((true, firstn (Z.to_nat count) (wave_view (wave w))
                 ++ skipn (Z.to_nat count) arr), w')
    /\ gWaveBufferMinSize (wave w') = count
    /\ wave_view (wave w') = wave_view (wave w).
Proof.
  intros Hch Hcur Hmute (Hl & Hs & Hm) Hcount Hfill Harr.
  unfold WAVE_BUFFER_SIZE in *. change (1024 / 2) with 512 in *.
  unfold getWaveData, WAVE_BUFFER_SIZE. change (1024 / 2) with 512.
  rewrite (U32_small count) by lia.
  replace (count >? 512) with false
    by (symmetry; rewrite Z.gtb_ltb; apply Z.ltb_ge; lia).
  rewrite Hch, Hcur.
  unfold fmod_getMute, get_wave, put_wave, tick, bind, ret. cbn.
  rewrite Hmute.
  destruct (wave w) as [m buf fill lb] eqn:Hw.
  cbn [gWaveBufferMinSize gWaveDataBuffer gWaveDataBufferSize local_buf] in *.
  cbn.
  replace (fill =? 0) with false by (symmetry; apply Z.eqb_neq; lia).
  rewrite (U32_small (1024 - fill)) by lia.
  replace (Z.min count fill) with count by lia.
  unfold lift_res, memcpy, slice.
  replace (Nat.leb (0 + Z.to_nat count) (length arr))
    with true by (symmetry; apply Nat.leb_le; lia).
  replace (Nat.leb (Z.to_nat (1024 - fill) + Z.to_nat count) (length buf))
    with true by (symmetry; apply Nat.leb_le; lia).
  cbn [andb firstn app Nat.add].
  replace (fill <? count) with false by (symmetry; apply Z.ltb_ge; lia).
  eexists. split; [reflexivity|]. split; reflexivity.
Qed.

(** X25.  What the callback writes is what the visualiser reads.  After a
    block of [len] frames that fits into the free part of the ring buffer,
    [getWaveData] with a count of at most [len] (and at most 512), on a
    controller with a current manager and an unmuted channel, returns true
    and puts the values of the block's first [count] frames, frame 0
    first, at the start of the array; the cells from [count] on are left as
    they were, and [count] becomes the watermark. *)
Theorem getWaveData_reads_block_just_written (E : Engine)
  (this : LLStreamingAudio_FMODSTUDIO) (c : Channel)
  (h : LLAudioStreamManagerFMODSTUDIO)
  (inbuffer outbuffer arr : list F32) (len inchannels count stride : Z)
  (w : World) :
  mFMODInternetStreamChannelp this = Some c ->
  mCurrentInternetStreamp this = Some h ->
  getMute_result E (clock w) c = false ->
  wave_wf (wave w) ->
  gWaveDataBufferSize (wave w) + len <= WAVE_BUFFER_SIZE ->
  0 < inchannels ->
  (Z.to_nat (len * inchannels) <= length inbuffer)%nat ->
  (Z.to_nat (len * inchannels) <= length outbuffer)%nat ->
  0 < count <= len -> count <= WAVE_BUFFER_SIZE / 2 ->
  (Z.to_nat count <= length arr)%nat ->
  exists out w1 w2,
    run_callback inbuffer outbuffer len inchannels w = Ok (out, w1)
    /\ getWaveData E this arr count stride w1
       = Ok ((true,
              map (frame_mean inbuffer inchannels) (seq 0 (Z.to_nat count))
              ++ skipn (Z.to_nat count) arr), w2)
    /\ gWaveBufferMinSize (wave w2) = count.
Proof.
  intros Hch Hcur Hmute Hwf Hfit Hic Hin Hout Hcount Hhalf Harr.
  destruct (waveDataCallback_fits inbuffer outbuffer len inchannels (wave w)
              Hwf ltac:(lia) Hic Hin Hout Hfit)
    as (out & wv & Hrun & Hsz & Hmin & Hview).
  destruct (waveDataCallback_spec inbuffer outbuffer len inchannels (wave w)
              Hwf ltac:(lia) Hic Hin Hout)
    as (out' & wv' & Hrun' & Hwf' & _).
  rewrite Hrun in Hrun'. injection Hrun' as <- <-.
  set (w1 := {| clock := clock w; calls := calls w; paused := paused w;
                dsp_active := dsp_active w; wave := wv |}).
  assert (Hcb : run_callback inbuffer outbuffer len inchannels w
                = Ok (out, w1)).
  { unfold run_callback, get_wave, put_wave, lift_res, bind, ret.
    rewrite Hrun. reflexivity. }
  destruct (getWaveData_reads_view E this c h arr count stride w1
              Hch Hcur Hmute Hwf' (conj (proj1 Hcount) Hhalf))
    as (w2 & Hget & Hmark & _).
  { subst w1. cbn [wave]. pose proof (proj1 (proj2 Hwf)) as Hs0. lia. }
  { exact Harr. }
  exists out, w1, w2. split; [exact Hcb|]. split; [|exact Hmark].
  rewrite Hget. subst w1. cbn [wave]. rewrite Hview.
  rewrite take_app_le
    by (rewrite length_map, length_seq; lia).
  rewrite firstn_map, take_seq.
  replace (Z.to_nat count `min` Z.to_nat len)%nat with (Z.to_nat count)
    by lia.
  reflexivity.
Qed.

Lemma getWaveData_reads_block_just_written_witness :
  exists out w1 w2,
    run_callback (ramp 4) (repeat F32.zero 4) 2 2 world_init = Ok (out, w1)
    /\ getWaveData engine_connecting controller_playing
         (repeat F32.zero 3) 2 0 w1
       = Ok ((true,
              [frame_mean (ramp 4) 2 0; frame_mean (ramp 4) 2 1; F32.zero]),
             w2).
Proof.
  assert (Hwf : wave_wf (wave world_init)).
  { unfold wave_wf, WAVE_BUFFER_SIZE. change (1024 / 2) with 512.
    split; [reflexivity|]. cbn. lia. }
  destruct (getWaveData_reads_block_just_written engine_connecting
              controller_playing 3%nat
              (mkLLAudioStreamManagerFMODSTUDIO (Some 3%nat) (Some 7%nat)
                 true "http://radio/")
              (ramp 4) (repeat F32.zero 4) (repeat F32.zero 3) 2 2 2 0
              world_init eq_refl eq_refl eq_refl Hwf
              ltac:(vm_compute; discriminate) ltac:(lia)
              ltac:(vm_compute; lia) ltac:(vm_compute; lia)
              ltac:(lia) ltac:(vm_compute; discriminate)
              ltac:(vm_compute; lia))
    as (out & w1 & w2 & Hcb & Hget & _).
  exists out, w1, w2. split; [exact Hcb|exact Hget].
Defined.

(** ** What the visualiser reads (C3) *)

(** C3, as stated, fails.  Two mono blocks, 1 2 3 4 and then 5 6 7 8, are
    written into the empty buffer; a read of two samples returns 5 and 6,
    the two oldest frames of the newer block.  The most recent samples, 7
    and 8, are not returned, in either order. *)
Lemma getWaveData_returns_first_frames_of_newest_block :
  exists out1 w1 out2 w2 w3,
    run_callback (map F32.of_int [1; 2; 3; 4]) (repeat F32.zero 4) 4 1
      world_init = Ok (out1, w1)
    /\ run_callback (map F32.of_int [5; 6; 7; 8]) (repeat F32.zero 4) 4 1 w1
       = Ok (out2, w2)
    /\ getWaveData engine_connecting controller_playing (repeat F32.zero 2)
         2 1 w2
       = Ok ((true, [F32.of_int 5; F32.of_int 6]), w3)
    /\ [F32.of_int 5; F32.of_int 6] <> [F32.of_int 8; F32.of_int 7]
    /\ [F32.of_int 5; F32.of_int 6] <> [F32.of_int 7; F32.of_int 8].
Proof.
  eexists _, _, _, _, _.
  split; [vm_compute; reflexivity|].
  split; [vm_compute; reflexivity|].
  split; [vm_compute; reflexivity|].
  split; vm_compute; discriminate.
Qed.

(** C3.  For an [S32] [count]:
    - above half the capacity (512), and also below zero, since the
      comparison is unsigned, [getWaveData] is fatal;
    - from 0 to 512 it returns false and leaves the array alone when the
      channel or the current manager is missing, when the channel is muted
      (the ring buffer is then untouched), and when the fill count is zero
      (the watermark is then [count]);
    - otherwise, on a well-formed buffer and an array of at least [count]
      cells, it returns true; the array then starts with the first
      [min count fill] cells of the valid region, followed by zeros up to
      [count], the cells from [count] on are unchanged; and the watermark is
      [count];
    - the valid region is not in the order of time, newest first: when the
      buffer read is the one a block that fit into the free part has just
      been written into, the region is that block's frame values in playing
      order, frame 0 first, followed by the region as it was before the
      block.  So the cells copied begin with the oldest frame of the newest
      block. *)
Theorem getWaveData_contract (E : Engine) (this : LLStreamingAudio_FMODSTUDIO)
  (arr : list F32) (count stride : Z) (w : World) :
  - 2 ^ 31 <= count < 2 ^ 31 ->
  (WAVE_BUFFER_SIZE / 2 < count \/ count < 0 ->
   getWaveData E this arr count stride w = Fatal)
  /\ (0 <= count <= WAVE_BUFFER_SIZE / 2 ->
      match mFMODInternetStreamChannelp this, mCurrentInternetStreamp this with
      | Some c, Some _ =>
          if getMute_result E (clock w) c then
            exists w',
              getWaveData E this arr count stride w = Ok ((false, arr), w')
              /\ wave w' = wave w
          else if gWaveDataBufferSize (wave w) =? 0 then
            exists w',
              getWaveData E this arr count stride w = Ok ((false, arr), w')
              /\ gWaveBufferMinSize (wave w') = count
          else
            wave_wf (wave w) -> (Z.to_nat count <= length arr)%nat ->
            exists w',
              let n := Z.to_nat (Z.min count (gWaveDataBufferSize (wave w))) in
              getWaveData E this arr count stride w
              = Ok ((true,
                     firstn n (wave_view (wave w))
                       ++ repeat F32.zero (Z.to_nat count - n)
                       ++ skipn (Z.to_nat count) arr), w')
              /\ gWaveBufferMinSize (wave w') = count
              /\ wave_view (wave w') = wave_view (wave w)
              /\ wave_wf (wave w')
      | _, _ => getWaveData E this arr count stride w = Ok ((false, arr), w)
      end)
  /\ (forall (inbuffer outbuffer out : list F32) (len inchannels : Z)
             (w0 : Wave),
         wave_wf w0 -> 0 < len -> 0 < inchannels ->
         (Z.to_nat (len * inchannels) <= length inbuffer)%nat ->
         (Z.to_nat (len * inchannels) <= length outbuffer)%nat ->
         gWaveDataBufferSize w0 + len <= WAVE_BUFFER_SIZE ->
         waveDataCallback inbuffer outbuffer len inchannels w0
         = Ok (out, wave w) ->
         gWaveDataBufferSize (wave w) = gWaveDataBufferSize w0 + len
         /\ wave_view (wave w)
            = map (frame_mean inbuffer inchannels) (seq 0 (Z.to_nat len))
              ++ wave_view w0).
Proof.
  intros Hrange.
  destruct (getWaveData_outcome E this arr count stride w Hrange)
    as [Hfatal Hread].
  split; [exact Hfatal|]. split; [exact Hread|].
  intros inbuffer outbuffer out len inchannels w0 Hwf Hlen Hch Hin Hout Hfit
    Hrun.
  destruct (waveDataCallback_fits inbuffer outbuffer len inchannels w0
              Hwf Hlen Hch Hin Hout Hfit)
    as (out' & wv & Hrun' & Hsz & _ & Hview).
  rewrite Hrun in Hrun'. injection Hrun' as _ <-.
  split; [exact Hsz|exact Hview].
Qed.

Lemma getWaveData_contract_witness :
  exists w',
    getWaveData engine_connecting controller_playing (repeat F32.one 6) 4 1
      world_two_samples
    = Ok ((true, [F32.half; F32.quarter; F32.zero; F32.zero; F32.one; F32.one]),
          w')
    /\ gWaveBufferMinSize (wave w') = 4.
Proof.
  destruct (getWaveData_contract engine_connecting controller_playing
              (repeat F32.one 6) 4 1 world_two_samples) as (_ & H & _);
    [lia|].
  assert (Hc : 0 <= 4 <= WAVE_BUFFER_SIZE / 2)
    by (unfold WAVE_BUFFER_SIZE; change (1024 / 2) with 512; lia).
  specialize (H Hc). cbv beta iota delta [controller_playing
    mFMODInternetStreamChannelp mCurrentInternetStreamp engine_connecting
    getMute_result world_two_samples wave gWaveDataBufferSize Z.eqb clock] in H.
  destruct H as (w' & Hrun & Hmin & _).
  - split; [vm_compute; reflexivity|].
    unfold WAVE_BUFFER_SIZE. cbn. change (1024 / 2) with 512. lia.
  - cbn. lia.
  - exists w'. split; [exact Hrun|exact Hmin].
Defined.
